(** * NASDAQ ITCH 5.0 parser: a shallow embedding of [itch50_parser.py]

    The development follows the source file top to bottom:
    - [messageMap], [read_bytes], [decodeTimestamp] (the message layout
      table and the timestamp codec),
    - [hourlyMap], [calculateHour], [parseOrders] (the hourly aggregator),
    - [parseTrades] (the decode loop with its order reference table),
    - [VWAP] and the projection loop of [main].

    The source is Python 3 ([/] is the true division).  Python values are
    modelled as follows.  Integers are [Z] (Python ints do not wrap).
    The result of [/] is a binary64 float, modelled by Rocq's primitive
    [float]; the conversions int -> float and the true division of two
    ints go through [SpecFloat] (round to nearest, ties to even) and
    raise [OverflowError] where CPython does.  [bytes] are [list byte],
    a [str] that is looked at is a [string], the ticker (which is only
    stored) is the list of its code points.  Exceptions are values of
    [exn] carried by [result]: an uncaught exception aborts the run,
    there is no handler anywhere in the source.  The calls to [print]
    and the two progress counters that only feed them are left out, and
    so are the reading of the gzip file and the writing of the CSV
    file: [main] goes from the bytes of the capture to the columns it
    hands to pandas. *)

From Stdlib Require Import ZArith List String Ascii DecimalString.
From Stdlib.Strings Require Import Byte.
From Stdlib Require Import PrimFloat SpecFloat FloatOps.
From stdpp Require Import base option list gmap strings.

Open Scope Z_scope.

(** ** Exceptions *)

Inductive exn : Set :=
| UnicodeDecodeError
| StructError
| KeyError
| OverflowError
| ZeroDivisionError.

Inductive result (A : Type) : Type :=
| Ok (a : A)
| Raise (e : exn).
Arguments Ok {A} a.
Arguments Raise {A} e.

#[global] Instance result_ret : MRet result := fun A a => Ok a.
#[global] Instance result_bind : MBind result := fun A B f r =>
  match r with
  | Ok a => f a
  | Raise e => Raise e
  end.
#[global] Instance result_fmap : FMap result := fun A B f r =>
  match r with
  | Ok a => Ok (f a)
  | Raise e => Raise e
  end.

(** ** Bytes and [struct] *)

Definition byte_val (b : byte) : Z := Z.of_N (Byte.to_N b).

(** Big-endian unsigned integer held by a run of bytes. *)
Definition be_uint (bs : list byte) : Z :=
  fold_left (fun acc b => acc * 256 + byte_val b) bs 0.

(** [bs[off : off+len]] *)
Definition slice (off len : nat) (bs : list byte) : list byte :=
  take len (drop off bs).

(** The format characters the source uses (byte order [>]: big-endian,
    no alignment padding). *)
Inductive fcode : Set :=
| FH            (* unsigned short, 2 bytes *)
| FI            (* unsigned int, 4 bytes *)
| FQ            (* unsigned long long, 8 bytes *)
| Fc            (* char: bytes of length 1 *)
| Fs (n : nat). (* n s: bytes of length n *)

Definition fcode_size (c : fcode) : nat :=
  match c with
  | FH => 2 | FI => 4 | FQ => 8 | Fc => 1 | Fs n => n
  end.

Definition digit_of (a : ascii) : option nat :=
  let n := nat_of_ascii a in
  if (48 <=? n)%nat && (n <=? 57)%nat then Some (n - 48)%nat else None.

(** Reads a format string after its byte-order mark: a decimal count
    repeats an integer or char code and gives the length of an [s]
    field. *)
Fixpoint parse_codes (s : string) (count : option nat) : list fcode :=
  match s with
  | EmptyString => []
  | String a s' =>
      match digit_of a with
      | Some d => parse_codes s' (Some (default 0 count * 10 + d)%nat)
      | None =>
          let rep := default 1%nat count in
          (if Ascii.eqb a "H" then replicate rep FH
           else if Ascii.eqb a "I" then replicate rep FI
           else if Ascii.eqb a "Q" then replicate rep FQ
           else if Ascii.eqb a "c" then replicate rep Fc
           else if Ascii.eqb a "s" then [Fs rep]
           else []) ++ parse_codes s' None
      end
  end.

Definition parse_format (fmt : string) : list fcode :=
  match fmt with
  | String ">" s => parse_codes s None
  | _ => parse_codes fmt None
  end.

Definition calcsize (codes : list fcode) : nat :=
  foldr (fun c n => (fcode_size c + n)%nat) 0%nat codes.

(** An unpacked field: an int, or a bytes object. *)
Inductive field : Set :=
| VInt (z : Z)
| VBytes (b : list byte).

Definition field_of (c : fcode) (chunk : list byte) : field :=
  match c with
  | Fc | Fs _ => VBytes chunk
  | _ => VInt (be_uint chunk)
  end.

Fixpoint unpack_fields (codes : list fcode) (msg : list byte) : list field :=
  match codes with
  | [] => []
  | c :: codes' =>
      field_of c (take (fcode_size c) msg)
        :: unpack_fields codes' (drop (fcode_size c) msg)
  end.

(** [struct.unpack(fmt, msg)]: the buffer must have exactly the size the
    format calls for, else [struct.error]. *)
Definition struct_unpack (fmt : string) (msg : list byte) : result (list field) :=
  let codes := parse_format fmt in
  if (length msg =? calcsize codes)%nat then Ok (unpack_fields codes msg)
  else Raise StructError.

(** [data[i]] for a field the format makes an int, resp. a bytes object.
    The kind of every field is fixed by the format string, so the
    fall-through values are never read. *)
Definition int_at (data : list field) (i : nat) : Z :=
  match data !! i with
  | Some (VInt z) => z
  | _ => 0
  end.

Definition bytes_at (data : list field) (i : nat) : list byte :=
  match data !! i with
  | Some (VBytes b) => b
  | _ => []
  end.

(** [struct.pack('Ns', b)]: truncated or null-padded to N bytes. *)
Definition pack_s (n : nat) (b : list byte) : list byte :=
  take n b ++ replicate (n - length b) x00.

(** ** Strings *)

(** [b.decode()] for a bytes object of length one (the tag, the event
    code, the printable flag): UTF-8 accepts a lone byte only below 0x80.
    The fall-through for other lengths is never reached, the format codes
    [c] give one byte. *)
Definition decode_char (b : list byte) : result string :=
  match b with
  | [c] => if byte_val c <? 128 then Ok (String (ascii_of_byte c) EmptyString)
           else Raise UnicodeDecodeError
  | _ => Raise UnicodeDecodeError
  end.

Definition in_range (lo hi : Z) (b : byte) : bool :=
  (lo <=? byte_val b) && (byte_val b <=? hi).

(** [b.decode()] in general: strict UTF-8, giving the code points. *)
Fixpoint utf8_decode (bs : list byte) : result (list Z) :=
  match bs with
  | [] => Ok []
  | b0 :: bs1 =>
      let v0 := byte_val b0 in
      if v0 <? 0x80 then cons v0 <$> utf8_decode bs1
      else if in_range 0xC2 0xDF b0 then
        match bs1 with
        | b1 :: bs2 =>
            if in_range 0x80 0xBF b1
            then cons ((v0 - 0xC0) * 64 + (byte_val b1 - 0x80)) <$> utf8_decode bs2
            else Raise UnicodeDecodeError
        | _ => Raise UnicodeDecodeError
        end
      else if in_range 0xE0 0xEF b0 then
        match bs1 with
        | b1 :: b2 :: bs3 =>
            if in_range (if v0 =? 0xE0 then 0xA0 else 0x80)
                        (if v0 =? 0xED then 0x9F else 0xBF) b1
               && in_range 0x80 0xBF b2
            then cons ((v0 - 0xE0) * 4096 + (byte_val b1 - 0x80) * 64
                       + (byte_val b2 - 0x80)) <$> utf8_decode bs3
            else Raise UnicodeDecodeError
        | _ => Raise UnicodeDecodeError
        end
      else if in_range 0xF0 0xF4 b0 then
        match bs1 with
        | b1 :: b2 :: b3 :: bs4 =>
            if in_range (if v0 =? 0xF0 then 0x90 else 0x80)
                        (if v0 =? 0xF4 then 0x8F else 0xBF) b1
               && in_range 0x80 0xBF b2 && in_range 0x80 0xBF b3
            then cons ((v0 - 0xF0) * 262144 + (byte_val b1 - 0x80) * 4096
                       + (byte_val b2 - 0x80) * 64 + (byte_val b3 - 0x80))
                   <$> utf8_decode bs4
            else Raise UnicodeDecodeError
        | _ => Raise UnicodeDecodeError
        end
      else Raise UnicodeDecodeError
  end.

(** The code points [str.strip()] removes. *)
Definition isspace (c : Z) : bool :=
  ((0x09 <=? c) && (c <=? 0x0D)) || ((0x1C <=? c) && (c <=? 0x20))
  || (c =? 0x85) || (c =? 0xA0) || (c =? 0x1680)
  || ((0x2000 <=? c) && (c <=? 0x200A))
  || (c =? 0x2028) || (c =? 0x2029) || (c =? 0x202F) || (c =? 0x205F)
  || (c =? 0x3000).

Fixpoint lstrip (s : list Z) : list Z :=
  match s with
  | c :: s' => if isspace c then lstrip s' else s
  | [] => []
  end.

Definition strip (s : list Z) : list Z := reverse (lstrip (reverse (lstrip s))).

(** ["%d" % n] *)
Definition format_d (n : Z) : string := NilZero.string_of_int (Z.to_int n).

(** ** Numbers *)

Inductive pynum : Set :=
| PyInt (z : Z)
| PyFloat (f : float).

Definition Z2SF (z : Z) : spec_float :=
  match z with
  | Z0 => S754_zero false
  | Zpos p => S754_finite false p 0
  | Zneg p => S754_finite true p 0
  end.

Definition checked (sf : spec_float) : result float :=
  match sf with
  | S754_infinity _ => Raise OverflowError
  | _ => Ok (SF2Prim sf)
  end.

(** Ints of magnitude up to 2^53 are floats already: CPython converts
    them without rounding, and divides two of them as doubles. *)
Definition is_exact (z : Z) : bool := Z.abs z <=? 2 ^ 53.

Definition exact_float (z : Z) : float := SF2Prim (Z2SF z).

(** int -> float, as in [float + int] and [float * int]: rounded to
    nearest, [OverflowError] past the largest float. *)
Definition float_of_int (z : Z) : result float :=
  if is_exact z then Ok (exact_float z)
  else checked (binary_normalize prec emax z 0 false).

(** [a / b] on two ints: the correctly rounded quotient. *)
Definition int_truediv (a b : Z) : result float :=
  if b =? 0 then Raise ZeroDivisionError
  else if is_exact a && is_exact b then Ok (exact_float a / exact_float b)%float
  else checked (SFdiv prec emax (Z2SF a) (Z2SF b)).

Definition as_float (a : pynum) : result float :=
  match a with
  | PyInt z => float_of_int z
  | PyFloat f => Ok f
  end.

(** [a + b] *)
Definition py_add (a b : pynum) : result pynum :=
  match a, b with
  | PyInt x, PyInt y => Ok (PyInt (x + y))
  | _, _ => x ← as_float a; y ← as_float b; Ok (PyFloat (x + y)%float)
  end.

(** [price * quantity], a float by an int *)
Definition float_mul_int (p : float) (q : Z) : result float :=
  y ← float_of_int q; Ok (p * y)%float.

(** [a / q] with an int divisor *)
Definition py_truediv (a : pynum) (q : Z) : result pynum :=
  match a with
  | PyInt x => PyFloat <$> int_truediv x q
  | PyFloat x =>
      y ← float_of_int q;
      if q =? 0 then Raise ZeroDivisionError else Ok (PyFloat (x / y)%float)
  end.

(** [data[i] / (10 ** 4)]: 4 decimal points *)
Definition price_of (raw : Z) : result float := int_truediv raw (10 ^ 4).

(** ** Dictionaries

    [added_orders], [m_map] and the per-security hour tables are only
    looked up by key: they are [gmap]s.  [stock_map] and [trades] are also
    iterated ([stock_map.keys()], [trades.keys()]), in insertion order:
    they are association lists in which a key occurs once, at the place
    of its first insertion. *)

Definition getitem {A} (o : option A) : result A :=
  match o with
  | Some a => Ok a
  | None => Raise KeyError
  end.

Abbreviation dict V := (list (Z * V)) (only parsing).

Section Dict.
Context {V : Type}.

Fixpoint dict_get (k : Z) (d : dict V) : option V :=
  match d with
  | [] => None
  | (k', v) :: d' => if k =? k' then Some v else dict_get k d'
  end.

(** [d[k] = v] *)
Fixpoint dict_set (k : Z) (v : V) (d : dict V) : dict V :=
  match d with
  | [] => [(k, v)]
  | (k', v') :: d' =>
      if k =? k' then (k, v) :: d' else (k', v') :: dict_set k v d'
  end.

Definition dict_keys (d : dict V) : list Z := d.*1.

End Dict.

(** ** The message layout table *)

Definition messageMap : gmap string nat :=
  list_to_map
    [ ("S", 11); ("R", 38); ("H", 24); ("Y", 19); ("L", 25); ("V", 34);
      ("W", 11); ("K", 27); ("J", 34); ("h", 20); ("A", 35); ("F", 39);
      ("E", 30); ("C", 35); ("X", 22); ("D", 18); ("U", 34); ("P", 43);
      ("Q", 39); ("B", 18); ("I", 49); ("N", 19) ]%nat.

(** [file.read(n)]: up to [n] bytes; the stream left is [drop n file]. *)
Definition read_bytes (file : list byte) (n : nat) : list byte := take n file.

Definition decodeTimestamp (timestamp : list byte) : Z :=
  let new_bytes := pack_s 2 [x00; x00] ++ pack_s 6 timestamp in
  be_uint new_bytes.

(** ** Hourly aggregation *)

Definition nsPerHour : Z := 10 ^ 9 * (60 * 60).

(** [range(10, 17)] *)
Definition marketHours : list Z := seqZ 10 7.

(** ["%d:00" % ((n + 11) % 12 + 1)] *)
Definition hourLabel (n : Z) : string :=
  (format_d ((n + 11) mod 12 + 1) ++ ":00")%string.

(** A bucket: (sum of prices * quantities, total quantity). *)
Abbreviation bucket := (pynum * Z)%type (only parsing).

Definition hourlyMap (stockIDs : list Z) (openTime endTime : Z)
  : dict (gmap string bucket) :=
  foldl (fun trades ID =>
           let stock_trades :=
             foldl (fun stock_trades n =>
                      let hour := hourLabel n in
                      let tradeTuple := (PyInt 0, 0) in
                      <[hour := tradeTuple]> stock_trades)
                   ∅ marketHours in
           dict_set ID stock_trades trades)
        [] stockIDs.

Definition calculateHour (time endTime : Z) : string :=
  hourLabel (Z.min (16 - (endTime - time) / nsPerHour) 16).

(** A filled order: (stock, price, quantity, time). *)
Abbreviation order := (Z * float * Z * Z)%type (only parsing).

Fixpoint foldM {A B} (f : A -> B -> result A) (a : A) (l : list B) : result A :=
  match l with
  | [] => Ok a
  | b :: l' => a' ← f a b; foldM f a' l'
  end.

(** The body of the loop of [parseOrders]. *)
Definition parseOrder (endTime : Z) (trades : dict (gmap string bucket))
  (o : order) : result (dict (gmap string bucket)) :=
  let '(stock, price, quantity, time) := o in
  let hour := calculateHour time endTime in
  stock_trades ← getitem (dict_get stock trades);
  '(curValue, curQuantity) ← getitem (stock_trades !! hour);
  value ← float_mul_int price quantity;
  curValue ← py_add curValue (PyFloat value);
  let curQuantity := curQuantity + quantity in
  Ok (dict_set stock (<[hour := (curValue, curQuantity)]> stock_trades) trades).

Definition parseOrders (trades : dict (gmap string bucket))
  (orders : list order) (endTime : Z) : result (dict (gmap string bucket)) :=
  foldM (parseOrder endTime) trades orders.

(** ** The decode loop of [parseTrades] *)

(** The local variables of [parseTrades] that the loop reads or writes. *)
Record state : Type := mkState {
  openTime : Z;
  endTime : Z;
  stock_map : dict (list Z);        (* stock ID -> ticker *)
  added_orders : gmap Z float;      (* reference number -> price *)
  filled_orders : list order;
  started : bool
}.

Definition initial : state :=
  {| openTime := 0; endTime := 0; stock_map := []; added_orders := ∅;
     filled_orders := []; started := false |}.

Definition open_market (t : Z) (st : state) : state :=
  {| openTime := t; endTime := endTime st; stock_map := stock_map st;
     added_orders := added_orders st; filled_orders := filled_orders st;
     started := true |}.

Definition close_market (t : Z) (st : state) : state :=
  {| openTime := openTime st; endTime := t; stock_map := stock_map st;
     added_orders := added_orders st; filled_orders := filled_orders st;
     started := started st |}.

Definition set_ticker (stockID : Z) (ticker : list Z) (st : state) : state :=
  {| openTime := openTime st; endTime := endTime st;
     stock_map := dict_set stockID ticker (stock_map st);
     added_orders := added_orders st; filled_orders := filled_orders st;
     started := started st |}.

Definition set_order (reference : Z) (price : float) (st : state) : state :=
  {| openTime := openTime st; endTime := endTime st; stock_map := stock_map st;
     added_orders := <[reference := price]> (added_orders st);
     filled_orders := filled_orders st; started := started st |}.

Definition append_filled (orderTuple : order) (st : state) : state :=
  {| openTime := openTime st; endTime := endTime st; stock_map := stock_map st;
     added_orders := added_orders st;
     filled_orders := filled_orders st ++ [orderTuple];
     started := started st |}.

(** How the body of the [while] loop ends: at its last line, or by
    [break]. *)
Inductive control : Type :=
| Next (st : state)
| Break (st : state).

(** The [if m_type == ... elif ...] chain, on a message [msg] already
    read. *)
Definition dispatch (m_type : string) (msg : list byte) (st : state)
  : result control :=
  if String.eqb m_type "S" then
    data ← struct_unpack ">HH6sc" msg;
    code ← decode_char (bytes_at data 3);
    if String.eqb code "Q" then
      Ok (Next (open_market (decodeTimestamp (bytes_at data 2)) st))
    else
      code ← decode_char (bytes_at data 3);
      if String.eqb code "M" then
        Ok (Break (close_market (decodeTimestamp (bytes_at data 2)) st))
      else Ok (Next st)
  else if String.eqb m_type "R" then
    data ← struct_unpack ">HH6s8sccIcc2scccccIc" msg;
    let stockID := int_at data 0 in
    ticker ← strip <$> utf8_decode (bytes_at data 3);
    Ok (Next (set_ticker stockID ticker st))
  else if String.eqb m_type "A" then
    data ← struct_unpack ">HH6sQcI8sI" msg;
    let reference := int_at data 3 in
    price ← price_of (int_at data 7);
    Ok (Next (set_order reference price st))
  else if String.eqb m_type "F" then
    data ← struct_unpack ">HH6sQcI8sI4s" msg;
    let reference := int_at data 3 in
    price ← price_of (int_at data 7);
    Ok (Next (set_order reference price st))
  else if String.eqb m_type "E" && started st then
    data ← struct_unpack ">HH6sQIQ" msg;
    let stockID := int_at data 0 in
    let quantity := int_at data 4 in
    let time := decodeTimestamp (bytes_at data 2) in
    let reference := int_at data 3 in
    price ← getitem (added_orders st !! reference);
    let orderTuple := (stockID, price, quantity, time) in
    Ok (Next (append_filled orderTuple st))
  else if String.eqb m_type "C" && started st then
    data ← struct_unpack ">HH6sQIQcI" msg;
    let printable := bytes_at data 6 in
    flag ← decode_char printable;
    if String.eqb flag "Y" then
      let stockID := int_at data 0 in
      price ← price_of (int_at data 7);
      let quantity := int_at data 4 in
      let time := decodeTimestamp (bytes_at data 2) in
      let orderTuple := (stockID, price, quantity, time) in
      Ok (Next (append_filled orderTuple st))
    else Ok (Next st)
  else if String.eqb m_type "U" then
    data ← struct_unpack ">HH6sQQII" msg;
    let reference := int_at data 4 in
    price ← price_of (int_at data 6);
    Ok (Next (set_order reference price st))
  else if String.eqb m_type "P" && started st then
    data ← struct_unpack ">HH6sQcIQIQ" msg;
    let stockID := int_at data 0 in
    price ← price_of (int_at data 7);
    let quantity := int_at data 5 in
    let time := decodeTimestamp (bytes_at data 2) in
    let orderTuple := (stockID, price, quantity, time) in
    Ok (Next (append_filled orderTuple st))
  else Ok (Next st).

(** One test of the loop condition and one pass through the body, on the
    stream that is left: the tag is the byte read by the [file.read(1)]
    that precedes the test. *)
Inductive outcome : Type :=
| Continue (file : list byte) (st : state)
| Finished (st : state).

Definition iteration (m_map : gmap string nat) (file : list byte) (st : state)
  : result outcome :=
  let m_type := read_bytes file 1 in
  let file := drop 1 file in
  match m_type with
  | [] => Ok (Finished st)
  | _ =>
      m_type ← decode_char m_type;
      match m_map !! m_type with
      | Some steps =>
          let msg := read_bytes file steps in
          let file := drop steps file in
          c ← dispatch m_type msg st;
          match c with
          | Next st' => Ok (Continue file st')
          | Break st' => Ok (Finished st')
          end
      | None => Ok (Continue file st)
      end
  end.

(** The [while] loop.  Every pass takes at least the tag off the stream,
    so [fuel] above the length of the stream is never used up
    ([decodeLoop_fuel]). *)
Fixpoint decodeLoop (m_map : gmap string nat) (fuel : nat) (file : list byte)
  (st : state) : option (result state) :=
  match fuel with
  | O => None
  | S fuel' =>
      match iteration m_map file st with
      | Raise e => Some (Raise e)
      | Ok (Finished st') => Some (Ok st')
      | Ok (Continue file' st') => decodeLoop m_map fuel' file' st'
      end
  end.

Definition parseTrades (file : list byte) (m_map : gmap string nat)
  : option (result (dict (list Z) * dict (gmap string bucket))) :=
  st ← decodeLoop m_map (S (length file)) file initial;
  Some (st ← st;
        let trades := hourlyMap (dict_keys (stock_map st)) (openTime st) (endTime st) in
        trades ← parseOrders trades (filled_orders st) (endTime st);
        Ok (stock_map st, trades)).

(** ** The running VWAP *)

Definition VWAP (tradeTuple : bucket) (runningValue : pynum) (runningQuantity : Z)
  : result (pynum * Z * pynum) :=
  let '(totalValue, totalQuantity) := tradeTuple in
  totalValue ← py_add totalValue runningValue;
  let totalQuantity := totalQuantity + runningQuantity in
  average ← (if bool_decide (totalQuantity ≠ 0)
             then py_truediv totalValue totalQuantity
             else Ok (PyInt 0));
  Ok (totalValue, totalQuantity, average).

(** [vwap_map[hour].append(vwap)] *)
Definition append_vwap (hour : string) (vwap : pynum)
  (vwap_map : gmap string (list pynum)) : result (gmap string (list pynum)) :=
  l ← getitem (vwap_map !! hour);
  Ok (<[hour := l ++ [vwap]]> vwap_map).

(** The loop [for i in range(10,17)] inside the loop over the
    securities. *)
Definition hourStep (stock_trades : gmap string bucket)
  (acc : pynum * Z * gmap string (list pynum)) (i : Z)
  : result (pynum * Z * gmap string (list pynum)) :=
  let '(curValue, curQuantity, vwap_map) := acc in
  let hour := hourLabel i in
  tradeTuple ← getitem (stock_trades !! hour);
  '(curValue, curQuantity, vwap) ← VWAP tradeTuple curValue curQuantity;
  vwap_map ← append_vwap hour vwap vwap_map;
  Ok (curValue, curQuantity, vwap_map).

(** The body of the loop [for ID in trades.keys()]; [trades[ID]] is
    looked up once, nothing assigns to [trades] in the loop. *)
Definition securityStep (stock_map : dict (list Z))
  (trades : dict (gmap string bucket))
  (acc : list (list Z) * gmap string (list pynum)) (ID : Z)
  : result (list (list Z) * gmap string (list pynum)) :=
  let '(stocks, vwap_map) := acc in
  ticker ← getitem (dict_get ID stock_map);
  let stocks := stocks ++ [ticker] in
  let curValue := PyInt 0 in
  let curQuantity := 0 in
  stock_trades ← getitem (dict_get ID trades);
  '(_, _, vwap_map) ← foldM (hourStep stock_trades)
                        (curValue, curQuantity, vwap_map) marketHours;
  Ok (stocks, vwap_map).

(** The part of [main] between parsing and the data frame: the tickers
    and, per hour label, the column of running VWAPs. *)
Definition project (stock_map : dict (list Z)) (trades : dict (gmap string bucket))
  : result (list (list Z) * gmap string (list pynum)) :=
  let vwap_map := foldl (fun m i => <[hourLabel i := []]> m) ∅ marketHours in
  foldM (securityStep stock_map trades) ([], vwap_map) (dict_keys trades).

Definition main (file : list byte)
  : option (result (list (list Z) * gmap string (list pynum))) :=
  r ← parseTrades file messageMap;
  Some ('(stock_map, trades) ← r; project stock_map trades).

(** * Vocabulary of the properties *)

(** The keys of every per-security table built by [hourlyMap]. *)
Definition hourLabels : list string := hourLabel <$> marketHours.

(** Where the [i]-th field of a format starts. *)
Definition offset (codes : list fcode) (i : nat) : nat := calcsize (take i codes).

(** The message that one pass of the loop over [file] hands to
    [dispatch], if any: its tag and its bytes. *)
Definition frame (m_map : gmap string nat) (file : list byte)
  : list (string * list byte) :=
  match decode_char (read_bytes file 1) with
  | Ok m_type =>
      match m_map !! m_type with
      | Some steps => [(m_type, read_bytes (drop 1 file) steps)]
      | None => []
      end
  | Raise _ => []
  end.

(** [reaches m_map file st log file' st']: started on the stream [file] in
    state [st], the loop comes, after some passes that neither raise nor
    leave it, to the stream [file'] in state [st'], having dispatched the
    messages [log], oldest first. *)
Inductive reaches (m_map : gmap string nat)
  : list byte -> state -> list (string * list byte) -> list byte -> state -> Prop :=
| reaches_refl file st : reaches m_map file st [] file st
| reaches_step file st file1 st1 log file2 st2 :
    iteration m_map file st = Ok (Continue file1 st1) ->
    reaches m_map file1 st1 log file2 st2 ->
    reaches m_map file st (frame m_map file ++ log) file2 st2.

(** The state a pass of the loop body ends in. *)
Definition state_of (c : control) : state :=
  match c with
  | Next st => st
  | Break st => st
  end.

(** The reference number and price that an Add ("A", "F") or a Replace
    ("U") message registers. *)
Definition registration (message : string * list byte) : option (Z * float) :=
  let '(m_type, msg) := message in
  if String.eqb m_type "A" || String.eqb m_type "F" then
    match price_of (be_uint (slice 31 4 msg)) with
    | Ok price => Some (be_uint (slice 10 8 msg), price)
    | Raise _ => None
    end
  else if String.eqb m_type "U" then
    match price_of (be_uint (slice 30 4 msg)) with
    | Ok price => Some (be_uint (slice 18 8 msg), price)
    | Raise _ => None
    end
  else None.

Definition registers (reference : Z) (message : string * list byte) : Prop :=
  fst <$> registration message = Some reference.

(** The order reference table after the messages [log], from the table
    [tbl]: every registration is an insertion, nothing else happens. *)
Definition table_after (log : list (string * list byte)) (tbl : gmap Z float)
  : gmap Z float :=
  foldl (fun tbl message =>
           match registration message with
           | Some (reference, price) => <[reference := price]> tbl
           | None => tbl
           end) tbl log.

(** ** Test vectors: messages as they come on the wire *)

Definition byte_of_Z (z : Z) : byte :=
  default x00 (Byte.of_N (Z.to_N (z mod 256))).

(** [z] on [n] bytes, big-endian. *)
Fixpoint be_bytes (n : nat) (z : Z) : list byte :=
  match n with
  | O => []
  | S n' => be_bytes n' (z / 256) ++ [byte_of_Z z]
  end.

Definition header (m_type : string) (stockID time : Z) : list byte :=
  list_byte_of_string m_type ++ be_bytes 2 stockID ++ be_bytes 2 0 ++ be_bytes 6 time.

Definition msgS (time : Z) (code : string) : list byte :=
  header "S" 0 time ++ list_byte_of_string code.

Definition msgR (stockID time : Z) (ticker : string) : list byte :=
  header "R" stockID time ++ list_byte_of_string ticker ++ replicate 20 x20.

Definition msgA (stockID time reference price : Z) : list byte :=
  header "A" stockID time ++ be_bytes 8 reference ++ list_byte_of_string "B"
    ++ be_bytes 4 100 ++ list_byte_of_string "TEST    " ++ be_bytes 4 price.

Definition msgE (stockID time reference quantity : Z) : list byte :=
  header "E" stockID time ++ be_bytes 8 reference ++ be_bytes 4 quantity
    ++ be_bytes 8 0.

Definition msgC (stockID time reference quantity : Z) (flag : string) (price : Z)
  : list byte :=
  header "C" stockID time ++ be_bytes 8 reference ++ be_bytes 4 quantity
    ++ be_bytes 8 0 ++ list_byte_of_string flag ++ be_bytes 4 price.

Definition msgU (stockID time old new price : Z) : list byte :=
  header "U" stockID time ++ be_bytes 8 old ++ be_bytes 8 new
    ++ be_bytes 4 100 ++ be_bytes 4 price.

(** ** Vocabulary of the aggregation and of the running VWAP *)

(** [trades[ID][hour]], where it exists. *)
Definition bucket_at (ID : Z) (hour : string) (trades : dict (gmap string bucket))
  : option bucket :=
  stock_trades ← dict_get ID trades; stock_trades !! hour.

(** The running totals of the spec (4.4): "maintaining running totals V
    and Q initialized to zero; at each hour, add that hour's bucket
    value/quantity into V/Q". *)
Definition accumulate (stock_trades : gmap string bucket) (acc : pynum * Z) (i : Z)
  : result (pynum * Z) :=
  let '(V, Q) := acc in
  '(value, quantity) ← getitem (stock_trades !! hourLabel i);
  V ← py_add value V;
  Ok (V, quantity + Q).

Definition spec_cumulative (stock_trades : gmap string bucket) (hours : list Z)
  : result (pynum * Z) :=
  foldM (accumulate stock_trades) (PyInt 0, 0) hours.

(** The number of the spec (4.4) for the last of the hours [hours]:
    "emit VWAP = V/Q if Q is not 0, else emit 0". *)
Definition spec_vwap (stock_trades : gmap string bucket) (hours : list Z)
  : result pynum :=
  '(V, Q) ← spec_cumulative stock_trades hours;
  if bool_decide (Q ≠ 0) then py_truediv V Q else Ok (PyInt 0).

(** The values a bucket holds: the int 0 it starts with, or a float. *)
Definition value_ok (v : pynum) : Prop := v = PyInt 0 \/ exists f, v = PyFloat f.

Definition quantity_at (stock_trades : gmap string bucket) (i : Z) : Z :=
  match stock_trades !! hourLabel i with
  | Some (_, quantity) => quantity
  | None => 0
  end.

(** The quantity of a security over the hours [hours]. *)
Definition total_quantity (stock_trades : gmap string bucket) (hours : list Z) : Z :=
  foldr (fun i s => quantity_at stock_trades i + s) 0 hours.

(** An int that goes to a float without [OverflowError]. *)
Definition convertible (q : Z) : Prop := exists y, float_of_int q = Ok y.

(** Every cumulative quantity of a security, hour after hour, goes to a
    float. *)
Definition quantities_convertible (stock_trades : gmap string bucket) : Prop :=
  forall k, convertible (total_quantity stock_trades (take k marketHours)).

(** A per-security table as [hourlyMap] and [parseOrders] leave it: a
    bucket under each of the hour labels, its value the int 0 or a float,
    its quantity not negative. *)
Definition table_ok (stock_trades : gmap string bucket) (hours : list Z) : Prop :=
  forall i, i ∈ hours ->
    exists value quantity,
      stock_trades !! hourLabel i = Some (value, quantity)
      /\ value_ok value /\ 0 <= quantity.

(** A security without trades. *)
Definition no_trades (stock_trades : gmap string bucket) : Prop :=
  forall i, i ∈ marketHours -> stock_trades !! hourLabel i = Some (PyInt 0, 0).

(** No security of [trades] has a quantity above [n]. *)
Definition volumes_below (n : Z) (trades : dict (gmap string bucket)) : Prop :=
  forall ID stock_trades,
    dict_get ID trades = Some stock_trades ->
    total_quantity stock_trades marketHours <= n.

(** The state of the loop over the hours after its first [k] passes:
    running value, running quantity, columns. *)
Definition after_hours (stock_trades : gmap string bucket)
  (vwap_map : gmap string (list pynum)) (k : nat)
  : result (pynum * Z * gmap string (list pynum)) :=
  foldM (hourStep stock_trades) (PyInt 0, 0, vwap_map) (take k marketHours).

(** The table [hourlyMap] gives to every security. *)
Definition empty_table : gmap string bucket :=
  foldl (fun stock_trades n => <[hourLabel n := (PyInt 0, 0)]> stock_trades)
        ∅ marketHours.

(** What the decode loop keeps true of its state: a security is listed
    once in the directory, and the quantity of a filled order is an
    unsigned integer of the wire. *)
Definition state_inv (st : state) : Prop :=
  NoDup (dict_keys (stock_map st))
  /\ Forall (fun o : order => 0 <= o.1.2 < 2 ^ 64) (filled_orders st).

(** Every security of [trades] has a table that is [table_ok]. *)
Definition tables_ok (trades : dict (gmap string bucket)) : Prop :=
  forall ID stock_trades,
    dict_get ID trades = Some stock_trades -> table_ok stock_trades marketHours.

(** The columns [main] starts from: an empty list under each label. *)
Definition empty_columns : gmap string (list pynum) :=
  foldl (fun m i => <[hourLabel i := []]> m) ∅ marketHours.

(** A session: one security, the two length bytes that precede a message
    in a capture, market open at 9:30, an add at 50.00, its execution for
    100 shares 6 h 30 after the open, market close 7 h after the open, and
    a message after the close. *)
Definition session : list byte :=
  msgR 7 0 "TEST    " ++ [x00; x0c]
  ++ msgS 34200000000000 "Q"
  ++ msgA 7 34200000000005 99 500000
  ++ msgE 7 (34200000000000 + 6 * nsPerHour + nsPerHour / 2) 99 100
  ++ msgS (34200000000000 + 7 * nsPerHour) "M"
  ++ msgE 7 0 1234 5.

(** ** Vocabulary of the further properties *)

(** A message as a capture file holds it: the length of the message (tag
    and body) on two bytes, big-endian, then the tag and the body. *)
Definition framed (c : byte) (msg : list byte) : list byte :=
  be_bytes 2 (Z.of_nat (S (length msg))) ++ c :: msg.

(** The two ways the loop ends without an exception, from the stream
    [file] in the state [st]: the stream is at its end, or the pass is over
    a whole System Event message with the event code "M", whose timestamp
    becomes the closing time. *)
Definition stops_at (m_map : gmap string nat) (file : list byte) (st st' : state)
  : Prop :=
  file = [] /\ st' = st
  \/ exists msg,
       frame m_map file = [("S"%string, msg)]
       /\ length msg = 11%nat
       /\ slice 10 1 msg = ["M"%byte]
       /\ st' = close_market (decodeTimestamp (slice 4 6 msg)) st.

(** A System Event message with the event code "Q": start of market
    hours. *)
Definition opens (message : string * list byte) : Prop :=
  message.1 = "S"%string /\ slice 10 1 message.2 = ["Q"%byte].

(** The filled orders that fall in the bucket of the security [ID] and
    the hour [hour], in their order. *)
Definition matching (ID : Z) (hour : string) (endTime : Z) (orders : list order)
  : list order :=
  filter (fun o : order => o.1.1.1 = ID /\ calculateHour o.2 endTime = hour) orders.

(** What one filled order adds to the bucket it falls in: its price
    times its quantity to the value, its quantity to the quantity. *)
Definition bucket_add (b : bucket) (o : order) : result bucket :=
  let '(_, price, quantity, _) := o in
  let '(curValue, curQuantity) := b in
  value ← float_mul_int price quantity;
  curValue ← py_add curValue (PyFloat value);
  Ok (curValue, curQuantity + quantity).

(** The sum of the quantities of a list of filled orders. *)
Definition quantity_sum (orders : list order) : Z :=
  foldr (fun o s => o.1.2 + s) 0 orders.

(** ** The output file name of [main] *)

(** [s.split(sep)] for a separator of one character: the pieces of [s]
    between the occurrences of [sep], one piece at least. *)
Fixpoint split (sep : ascii) (s : string) : list string :=
  match s with
  | EmptyString => [EmptyString]
  | String a s' =>
      let pieces := split sep s' in
      if Ascii.eqb a sep then EmptyString :: pieces
      else String a (hd EmptyString pieces) :: tl pieces
  end.

(** [splitName = fileName.split(','); outName = splitName[0] + ".csv"] *)
Definition outName (fileName : string) : string :=
  let splitName := split "," fileName in
  (hd EmptyString splitName ++ ".csv")%string.

(** The filled order [o] has a bucket in the table built for the
    securities [stockIDs]: its security is one of them, and the label of
    its hour one of the seven. *)
Definition has_bucket (stockIDs : list Z) (endTime : Z) (o : order) : Prop :=
  o.1.1.1 ∈ stockIDs /\ calculateHour o.2 endTime ∈ hourLabels.

(** ** Exact values of floats *)

(** The value of a finite float in units of 2^-1074, the spacing of the
    smallest doubles: every finite double is a whole number of them. *)
Definition float_units (f : float) : option Z :=
  match Prim2SF f with
  | S754_zero _ => Some 0
  | S754_finite s m e =>
      if 0 <=? e + 1074
      then Some ((if s then -1 else 1) * Z.pos m * 2 ^ (e + 1074))
      else None
  | _ => None
  end.

(** Two captures of one session: a security, the market open, one
    printable execution of 1 share at 0.1000 in the last hour, in the
    second capture followed by one of 10 shares at 100.2500, and the
    market close. *)
Definition one_execution : list byte :=
  msgR 7 0 "TEST    " ++ msgS 34200000000000 "Q"
  ++ msgC 7 57599999999998 98 1 "Y" 1000
  ++ msgS 57600000000000 "M".

Definition two_executions : list byte :=
  msgR 7 0 "TEST    " ++ msgS 34200000000000 "Q"
  ++ msgC 7 57599999999998 98 1 "Y" 1000
  ++ msgC 7 57599999999999 99 10 "Y" 1002500
  ++ msgS 57600000000000 "M".

(** [trades[ID][hour]] in what [parseTrades] returns for a capture. *)
Definition parsed_bucket (file : list byte) (ID : Z) (hour : string)
  : option (result (option bucket)) :=
  r ← parseTrades file messageMap;
  Some ('(_, trades) ← r; Ok (bucket_at ID hour trades)).

(** A table with trades in the last two hours: 100 shares for 5000.0 in
    the hour 3:00, 10 shares for 1002.5 in the hour 4:00. *)
Definition traded_table : gmap string bucket :=
  <[hourLabel 16 := (PyFloat 1002.5, 10)]>
    (<[hourLabel 15 := (PyFloat 5000, 100)]> empty_table).

(** * Properties *)

(** ** Hour bucketing *)

Lemma hourLabels_eq :
  hourLabels = ["10:00"; "11:00"; "12:00"; "1:00"; "2:00"; "3:00"; "4:00"]%string.
Proof. reflexivity. Qed.

(** The check of [testCalculateHour] in the source, on timestamps taken
    from a real capture: 100 seconds before the close. *)
Example testCalculateHour :
  calculateHour 57500000113132 57600000113132 = "4:00"%string.
Proof. reflexivity. Qed.

Lemma hoursBeforeClose_range time endTime :
  time <= endTime -> endTime - time < 7 * nsPerHour ->
  0 <= (endTime - time) / nsPerHour <= 6.
Proof.
  intros Hle Hlt. unfold nsPerHour in *. split.
  - apply Z.div_pos; lia.
  - assert ((endTime - time) / (10 ^ 9 * (60 * 60)) < 7); [|lia].
    apply Z.div_lt_upper_bound; lia.
Qed.

Lemma calculateHour_of_hours time endTime h :
  (endTime - time) / nsPerHour = h -> 0 <= h ->
  calculateHour time endTime = hourLabel (16 - h).
Proof.
  intros Hh Hpos. unfold calculateHour. rewrite Hh.
  rewrite Z.min_l by lia. reflexivity.
Qed.

Ltac in_list := repeat (apply elem_of_cons; first [left; reflexivity | right]).

Ltac not_in_list Hin :=
  repeat (apply elem_of_cons in Hin as [Hin|Hin]; [congruence|]);
  by apply elem_of_nil in Hin.

(** The label depends on the hour modulo 12 only. *)
Lemma hourLabel_mod n m : (n - m) mod 12 = 0 -> hourLabel n = hourLabel m.
Proof.
  intros H. unfold hourLabel. do 3 f_equal.
  apply Z.cong_iff_0 in H.
  rewrite <- (Zplus_mod_idemp_l n), <- (Zplus_mod_idemp_l m), H. reflexivity.
Qed.

(** C1 (as amended): for a timestamp at or before the close, with [h]
    the whole hours from the timestamp to the close, the label is that of
    the clock hour [16 - h], on a 12-hour clock and without any clamp at
    6: 4:00 for [h = 0] (the close itself included), then 3:00, 2:00,
    1:00, 12:00, 11:00, and 10:00 for [h = 6] (every timestamp from 6
    hours up to, not including, 7 hours before the close); 9:00 down to
    5:00 for [h] from 7 to 11, and round again from 12 on.  The label is
    one of the 7 labels 10:00, 11:00, 12:00, 1:00, 2:00, 3:00, 4:00 of
    [hourlyMap] exactly when [h mod 12] is below 7, so for every
    timestamp less than 7 hours before the close, and for none from 7 to
    12 hours before it. *)
Theorem calculateHour_bucket time endTime :
  time <= endTime ->
  let h := (endTime - time) / nsPerHour in
  (0 <= h /\ h * nsPerHour <= endTime - time < (h + 1) * nsPerHour)
  /\ calculateHour time endTime = hourLabel (16 - h)
  /\ ["4:00"; "3:00"; "2:00"; "1:00"; "12:00"; "11:00"; "10:00";
      "9:00"; "8:00"; "7:00"; "6:00"; "5:00"]%string !! Z.to_nat (h mod 12)
     = Some (calculateHour time endTime)
  /\ (calculateHour time endTime ∈ hourLabels <-> h mod 12 < 7)
  /\ hourLabels
     = ["10:00"; "11:00"; "12:00"; "1:00"; "2:00"; "3:00"; "4:00"]%string
  /\ NoDup hourLabels
  /\ length hourLabels = 7%nat
  /\ (time = endTime -> calculateHour time endTime = "4:00"%string)
  /\ (6 * nsPerHour <= endTime - time < 7 * nsPerHour ->
      calculateHour time endTime = "10:00"%string)
  /\ (endTime - time < 7 * nsPerHour -> calculateHour time endTime ∈ hourLabels)
  /\ (7 * nsPerHour <= endTime - time < 12 * nsPerHour ->
      calculateHour time endTime ∉ hourLabels).
Proof.
  intros Hle h.
  assert (Hns : 0 < nsPerHour) by reflexivity.
  assert (Hh : 0 <= h) by (apply Z.div_pos; lia).
  assert (Hlo : h * nsPerHour <= endTime - time).
  { rewrite Z.mul_comm. apply Z.mul_div_le, Hns. }
  assert (Hhi : endTime - time < (h + 1) * nsPerHour).
  { rewrite Z.mul_comm. apply (Z.mul_succ_div_gt (endTime - time) nsPerHour Hns). }
  assert (Hc : calculateHour time endTime = hourLabel (16 - h))
    by apply (calculateHour_of_hours _ _ h eq_refl Hh).
  assert (Hr : 0 <= h mod 12 < 12) by (apply Z.mod_pos_bound; lia).
  assert (Hm : hourLabel (16 - h) = hourLabel (16 - h mod 12)).
  { apply hourLabel_mod.
    replace (16 - h - (16 - h mod 12)) with (- (h - h mod 12)) by lia.
    rewrite (Z.div_mod h 12) at 1 by lia.
    replace (- (12 * (h / 12) + h mod 12 - h mod 12)) with ((- (h / 12)) * 12)
      by lia.
    apply Z.mod_mul. lia. }
  assert (Hcases : h mod 12 = 0 \/ h mod 12 = 1 \/ h mod 12 = 2 \/ h mod 12 = 3
                   \/ h mod 12 = 4 \/ h mod 12 = 5 \/ h mod 12 = 6
                   \/ h mod 12 = 7 \/ h mod 12 = 8 \/ h mod 12 = 9
                   \/ h mod 12 = 10 \/ h mod 12 = 11) by lia.
  assert (Hin : calculateHour time endTime ∈ hourLabels <-> h mod 12 < 7).
  { rewrite Hc, Hm, hourLabels_eq. clear Hc Hm Hr.
    destruct Hcases as [E|[E|[E|[E|[E|[E|[E|[E|[E|[E|[E|E]]]]]]]]]]];
      rewrite E; (split; [intros Hin|intros Hlt]);
      first [ reflexivity
            | exfalso; vm_compute in Hlt; discriminate Hlt
            | solve [vm_compute; in_list]
            | exfalso; vm_compute in Hin; not_in_list Hin ]. }
  assert (Hsmall : h < 12 -> h mod 12 = h) by (intros; apply Z.mod_small; lia).
  split; [done|]. split; [exact Hc|]. split.
  { rewrite Hc, Hm. clear Hc Hm Hr Hin Hsmall.
    destruct Hcases as [E|[E|[E|[E|[E|[E|[E|[E|[E|[E|[E|E]]]]]]]]]]];
      rewrite E; reflexivity. }
  split; [exact Hin|]. split; [apply hourLabels_eq|]. split.
  { rewrite hourLabels_eq. apply (bool_decide_unpack (NoDup _)). vm_compute. exact I. }
  split; [reflexivity|]. split; [|split; [|split]].
  - intros Heq. assert (h = 0) as H0 by (unfold nsPerHour in *; nia).
    rewrite Hc, H0. reflexivity.
  - intros H6. assert (h = 6) as H0 by (unfold nsPerHour in *; nia).
    rewrite Hc, H0. reflexivity.
  - intros H7. apply Hin. assert (h < 7) by (unfold nsPerHour in *; nia).
    rewrite Hsmall; lia.
  - intros H7 Hmem. apply Hin in Hmem.
    assert (7 <= h < 12) by (unfold nsPerHour in *; nia).
    rewrite Hsmall in Hmem; lia.
Qed.

Lemma calculateHour_bucket_witness :
  Some "2:00"%string
  = Some (calculateHour (57600000113132 - 9000000000000) 57600000113132).
Proof.
  refine (proj1 (proj2 (proj2
    (calculateHour_bucket (57600000113132 - 9000000000000) 57600000113132 _)))).
  vm_compute. congruence.
Defined.

(** A timestamp 7 hours before close is given the label 9:00, which is
    none of the 7 buckets (neither as the source spells them nor in a
    24-hour spelling), and the close itself is not labelled 16:00. *)
Lemma calculateHour_not_clamped :
  let endTime := 57600000000000 in
  let time := endTime - 7 * nsPerHour in
  time <= endTime
  /\ 6 * nsPerHour < endTime - time
  /\ calculateHour time endTime = "9:00"%string
  /\ (calculateHour time endTime ∉ hourLabels)
  /\ (calculateHour time endTime ∉
       ["10:00"; "11:00"; "12:00"; "13:00"; "14:00"; "15:00"; "16:00"]%string)
  /\ calculateHour endTime endTime <> "16:00"%string.
Proof.
  cbv zeta. split; [vm_compute; congruence|]. split; [reflexivity|].
  split; [reflexivity|].
  split; [|split]; vm_compute; try congruence;
    intros H; repeat (apply elem_of_cons in H as [H|H]; [discriminate H|]);
    by apply elem_of_nil in H.
Qed.

(** ** Bytes and numbers *)

Lemma byte_val_range b : 0 <= byte_val b < 256.
Proof.
  unfold byte_val. pose proof (Byte.to_N_bounded b) as H. lia.
Qed.

Lemma be_uint_snoc bs b : be_uint (bs ++ [b]) = be_uint bs * 256 + byte_val b.
Proof. unfold be_uint. rewrite fold_left_app. reflexivity. Qed.

Lemma be_uint_range bs : 0 <= be_uint bs < 256 ^ Z.of_nat (length bs).
Proof.
  induction bs as [|b bs IH] using rev_ind.
  - vm_compute. split; congruence.
  - rewrite be_uint_snoc, length_app, Nat2Z.inj_add, Z.pow_add_r by lia.
    pose proof (byte_val_range b). simpl length. change (256 ^ Z.of_nat 1) with 256. nia.
Qed.

Lemma slice_length off len bs : (length (slice off len bs) <= len)%nat.
Proof. unfold slice. rewrite length_take. lia. Qed.

Lemma slice_length_exact off len (bs : list byte) :
  (off + len <= length bs)%nat -> length (slice off len bs) = len.
Proof. intros H. unfold slice. rewrite length_take, length_drop. lia. Qed.

Lemma be_uint_slice_range off len bs :
  0 <= be_uint (slice off len bs) < 256 ^ Z.of_nat len.
Proof.
  pose proof (be_uint_range (slice off len bs)) as H.
  pose proof (slice_length off len bs) as Hl.
  assert (256 ^ Z.of_nat (length (slice off len bs)) <= 256 ^ Z.of_nat len).
  { apply Z.pow_le_mono_r; lia. }
  lia.
Qed.

(** A wire price (4 bytes) always decodes, to the quotient of two
    doubles. *)
Lemma price_of_uint32 raw :
  0 <= raw < 2 ^ 32 ->
  price_of raw = Ok (exact_float raw / exact_float (10 ^ 4))%float.
Proof.
  intros H. unfold price_of, int_truediv.
  change (10 ^ 4 =? 0) with false. cbv iota.
  assert (is_exact raw = true) as ->.
  { unfold is_exact. apply Z.leb_le. change (2 ^ 53) with 9007199254740992.
    change (2 ^ 32) with 4294967296 in H. lia. }
  reflexivity.
Qed.

Lemma price_of_slice off bs :
  price_of (be_uint (slice off 4 bs))
  = Ok (exact_float (be_uint (slice off 4 bs)) / exact_float (10 ^ 4))%float.
Proof. apply price_of_uint32. apply (be_uint_slice_range off 4 bs). Qed.

(** ** [struct.unpack] *)

Lemma struct_unpack_ok fmt msg :
  length msg = calcsize (parse_format fmt) ->
  struct_unpack fmt msg = Ok (unpack_fields (parse_format fmt) msg).
Proof.
  intros H. unfold struct_unpack. rewrite H, Nat.eqb_refl. reflexivity.
Qed.

Lemma slice_drop off len n (bs : list byte) :
  slice off len (drop n bs) = slice (n + off) len bs.
Proof. unfold slice. rewrite drop_drop. reflexivity. Qed.

Lemma unpack_fields_lookup codes : forall msg i c,
  codes !! i = Some c ->
  unpack_fields codes msg !! i
  = Some (field_of c (slice (offset codes i) (fcode_size c) msg)).
Proof.
  induction codes as [|c0 codes IH]; intros msg i c Hi; [done|].
  destruct i as [|i]; simpl in *.
  - injection Hi as ->. reflexivity.
  - rewrite (IH _ _ _ Hi), slice_drop. reflexivity.
Qed.

Lemma int_at_unpack codes msg i c off :
  codes !! i = Some c -> offset codes i = off ->
  (forall chunk, field_of c chunk = VInt (be_uint chunk)) ->
  int_at (unpack_fields codes msg) i = be_uint (slice off (fcode_size c) msg).
Proof.
  intros Hi <- Hc. unfold int_at.
  rewrite (unpack_fields_lookup _ _ _ _ Hi), Hc. reflexivity.
Qed.

Lemma bytes_at_unpack codes msg i c off :
  codes !! i = Some c -> offset codes i = off ->
  (forall chunk, field_of c chunk = VBytes chunk) ->
  bytes_at (unpack_fields codes msg) i = slice off (fcode_size c) msg.
Proof.
  intros Hi <- Hc. unfold bytes_at.
  rewrite (unpack_fields_lookup _ _ _ _ Hi), Hc. reflexivity.
Qed.

(** Rewrites [data[i]] of an unpacked message into the slice of the
    message it is read from. *)
Ltac fields :=
  repeat match goal with
    | |- context [int_at (unpack_fields ?codes ?msg) ?i] =>
        let off := eval vm_compute in (offset codes i) in
        lazymatch eval vm_compute in (codes !! i) with
        | Some ?c =>
            let sz := eval vm_compute in (fcode_size c) in
            rewrite (int_at_unpack codes msg i c off eq_refl eq_refl
                       (fun _ => eq_refl));
            change (fcode_size c) with sz
        end
    | |- context [bytes_at (unpack_fields ?codes ?msg) ?i] =>
        let off := eval vm_compute in (offset codes i) in
        lazymatch eval vm_compute in (codes !! i) with
        | Some ?c =>
            let sz := eval vm_compute in (fcode_size c) in
            rewrite (bytes_at_unpack codes msg i c off eq_refl eq_refl
                       (fun _ => eq_refl));
            change (fcode_size c) with sz
        end
    end.

(** A 6-byte timestamp is read as the big-endian integer it is. *)
Lemma decodeTimestamp_be_uint timestamp :
  length timestamp = 6%nat -> decodeTimestamp timestamp = be_uint timestamp.
Proof.
  intros H. unfold decodeTimestamp, pack_s.
  rewrite H, (take_ge timestamp) by lia. cbn [take length Nat.sub replicate app].
  rewrite app_nil_r. reflexivity.
Qed.

(** ** The branches of [dispatch] *)

Lemma dispatch_S msg st :
  dispatch "S" msg st
  = (data ← struct_unpack ">HH6sc" msg;
     code ← decode_char (bytes_at data 3);
     if String.eqb code "Q" then
       Ok (Next (open_market (decodeTimestamp (bytes_at data 2)) st))
     else
       code ← decode_char (bytes_at data 3);
       if String.eqb code "M" then
         Ok (Break (close_market (decodeTimestamp (bytes_at data 2)) st))
       else Ok (Next st)).
Proof. reflexivity. Qed.

Lemma dispatch_A msg st :
  dispatch "A" msg st
  = (data ← struct_unpack ">HH6sQcI8sI" msg;
     price ← price_of (int_at data 7);
     Ok (Next (set_order (int_at data 3) price st))).
Proof. reflexivity. Qed.

Lemma dispatch_F msg st :
  dispatch "F" msg st
  = (data ← struct_unpack ">HH6sQcI8sI4s" msg;
     price ← price_of (int_at data 7);
     Ok (Next (set_order (int_at data 3) price st))).
Proof. reflexivity. Qed.

Lemma dispatch_E msg st :
  dispatch "E" msg st
  = if started st then
      data ← struct_unpack ">HH6sQIQ" msg;
      price ← getitem (added_orders st !! int_at data 3);
      Ok (Next (append_filled
                  (int_at data 0, price, int_at data 4,
                   decodeTimestamp (bytes_at data 2)) st))
    else Ok (Next st).
Proof. unfold dispatch. simpl. destruct (started st); reflexivity. Qed.

Lemma dispatch_C msg st :
  dispatch "C" msg st
  = if started st then
      data ← struct_unpack ">HH6sQIQcI" msg;
      flag ← decode_char (bytes_at data 6);
      if String.eqb flag "Y" then
        price ← price_of (int_at data 7);
        Ok (Next (append_filled
                    (int_at data 0, price, int_at data 4,
                     decodeTimestamp (bytes_at data 2)) st))
      else Ok (Next st)
    else Ok (Next st).
Proof. unfold dispatch. simpl. destruct (started st); reflexivity. Qed.

Lemma dispatch_U msg st :
  dispatch "U" msg st
  = (data ← struct_unpack ">HH6sQQII" msg;
     price ← price_of (int_at data 6);
     Ok (Next (set_order (int_at data 4) price st))).
Proof. reflexivity. Qed.

Lemma dispatch_R msg st :
  dispatch "R" msg st
  = (data ← struct_unpack ">HH6s8sccIcc2scccccIc" msg;
     ticker ← strip <$> utf8_decode (bytes_at data 3);
     Ok (Next (set_ticker (int_at data 0) ticker st))).
Proof. reflexivity. Qed.

Lemma dispatch_P msg st :
  dispatch "P" msg st
  = if started st then
      data ← struct_unpack ">HH6sQcIQIQ" msg;
      price ← price_of (int_at data 7);
      Ok (Next (append_filled
                  (int_at data 0, price, int_at data 5,
                   decodeTimestamp (bytes_at data 2)) st))
    else Ok (Next st).
Proof. unfold dispatch. simpl. destruct (started st); reflexivity. Qed.

(** Every other tag is only passed over. *)
Lemma dispatch_other m_type msg st :
  m_type <> "S"%string -> m_type <> "R"%string -> m_type <> "A"%string ->
  m_type <> "F"%string -> m_type <> "E"%string -> m_type <> "C"%string ->
  m_type <> "U"%string -> m_type <> "P"%string ->
  dispatch m_type msg st = Ok (Next st).
Proof.
  intros HS HR HA HF HE HC HU HP. unfold dispatch.
  apply String.eqb_neq in HS, HR, HA, HF, HE, HC, HU, HP.
  rewrite HS, HR, HA, HF, HE, HC, HU, HP. reflexivity.
Qed.

(** ** The decode loop *)

Lemma read_bytes_cons c file : read_bytes (c :: file) 1 = [c].
Proof. unfold read_bytes. simpl. rewrite take_0. reflexivity. Qed.

(** One pass over a stream that starts with the byte [c]. *)
Lemma iteration_cons m_map c file st :
  iteration m_map (c :: file) st
  = (m_type ← decode_char [c];
     match m_map !! m_type with
     | Some steps =>
         c ← dispatch m_type (read_bytes file steps) st;
         match c with
         | Next st' => Ok (Continue (drop steps file) st')
         | Break st' => Ok (Finished st')
         end
     | None => Ok (Continue file st)
     end).
Proof. unfold iteration. rewrite read_bytes_cons. reflexivity. Qed.

(** One pass over a stream that starts with a whole message. *)
Lemma iteration_message m_map c m_type steps msg rest st :
  decode_char [c] = Ok m_type -> m_map !! m_type = Some steps ->
  length msg = steps ->
  iteration m_map (c :: msg ++ rest) st
  = (c ← dispatch m_type msg st;
     match c with
     | Next st' => Ok (Continue rest st')
     | Break st' => Ok (Finished st')
     end).
Proof.
  intros Hc Hm Hl. rewrite iteration_cons, Hc. cbn [mbind result_bind].
  rewrite Hm. unfold read_bytes.
  rewrite take_app_length', drop_app_length' by (symmetry; exact Hl).
  reflexivity.
Qed.

(** Every pass that carries on has taken at least one byte. *)
Lemma iteration_shrinks m_map file st file' st' :
  iteration m_map file st = Ok (Continue file' st') ->
  (length file' < length file)%nat.
Proof.
  destruct file as [|c file]; [discriminate|].
  rewrite iteration_cons. unfold mbind, result_bind.
  intros H. repeat case_match; simplify_eq; cbn [length];
    rewrite ?length_drop; lia.
Qed.

(** The loop terminates: fuel above the length of the stream is enough,
    and more fuel changes nothing. *)
Lemma decodeLoop_fuel m_map : forall fuel file st,
  (length file < fuel)%nat -> is_Some (decodeLoop m_map fuel file st).
Proof.
  induction fuel as [|fuel IH]; intros file st Hlen; [lia|].
  cbn [decodeLoop].
  destruct (iteration m_map file st) as [[file' st'|st']|e] eqn:Hit; [|done..].
  apply IH. apply iteration_shrinks in Hit. lia.
Qed.

Lemma decodeLoop_more_fuel m_map : forall fuel fuel' file st,
  (length file < fuel)%nat -> (length file < fuel')%nat ->
  decodeLoop m_map fuel file st = decodeLoop m_map fuel' file st.
Proof.
  induction fuel as [|fuel IH]; intros fuel' file st Hlen Hlen'; [lia|].
  destruct fuel' as [|fuel']; [lia|]. cbn [decodeLoop].
  destruct (iteration m_map file st) as [[file' st'|st']|e] eqn:Hit; [|done..].
  apply iteration_shrinks in Hit. apply IH; lia.
Qed.

Lemma decodeLoop_S m_map fuel file st :
  decodeLoop m_map (S fuel) file st
  = match iteration m_map file st with
    | Raise e => Some (Raise e)
    | Ok (Finished st') => Some (Ok st')
    | Ok (Continue file' st') => decodeLoop m_map fuel file' st'
    end.
Proof. reflexivity. Qed.

Lemma decodeLoop_continue m_map fuel file st file' st' :
  iteration m_map file st = Ok (Continue file' st') ->
  (length file < fuel)%nat ->
  decodeLoop m_map fuel file st = decodeLoop m_map (S (length file')) file' st'.
Proof.
  intros Hit Hlen. destruct fuel as [|fuel]; [lia|].
  rewrite decodeLoop_S, Hit.
  apply iteration_shrinks in Hit. apply decodeLoop_more_fuel; lia.
Qed.

(** [parseTrades] and [main] always return: with a table or with an
    exception, never for want of fuel. *)
Lemma parseTrades_returns file m_map : is_Some (parseTrades file m_map).
Proof.
  unfold parseTrades.
  destruct (decodeLoop_fuel m_map (S (length file)) file initial) as [r ->];
    [lia|].
  cbn [mbind option_bind]. eauto.
Qed.

Lemma main_returns file : is_Some (main file).
Proof.
  unfold main. destruct (parseTrades_returns file messageMap) as [r ->].
  cbn [mbind option_bind]. eauto.
Qed.

(** What the loop gives from a stream is what it gives from any point it
    reaches. *)
Lemma reaches_decodeLoop m_map file st log file' st' :
  reaches m_map file st log file' st' ->
  forall fuel, (length file < fuel)%nat ->
  decodeLoop m_map fuel file st = decodeLoop m_map (S (length file')) file' st'.
Proof.
  induction 1 as [file st|file st file1 st1 log file2 st2 Hit _ IH];
    intros fuel Hlen.
  - apply decodeLoop_more_fuel; lia.
  - rewrite (decodeLoop_continue _ _ _ _ _ _ Hit Hlen). apply IH. lia.
Qed.


(** ** The order reference table *)

Ltac case_tag m_type s :=
  destruct (String.eqb_spec m_type s) as [->|?].

Ltac case_binds :=
  unfold struct_unpack, mbind, result_bind, fmap, result_fmap;
  repeat case_match; try discriminate; try (intros [= <-]; reflexivity).

(** A message changes the table by its registration, if it has one. *)
Lemma dispatch_table m_type msg st c :
  dispatch m_type msg st = Ok c ->
  added_orders (state_of c) = table_after [(m_type, msg)] (added_orders st).
Proof.
  unfold table_after, registration. cbn [foldl].
  case_tag m_type "S"; [rewrite dispatch_S; case_binds|].
  case_tag m_type "R"; [rewrite dispatch_R; case_binds|].
  case_tag m_type "A".
  { rewrite dispatch_A. unfold struct_unpack.
    destruct (_ =? _)%nat; [|discriminate]. cbn [mbind result_bind].
    fields. rewrite !price_of_slice. intros [= <-]. reflexivity. }
  case_tag m_type "F".
  { rewrite dispatch_F. unfold struct_unpack.
    destruct (_ =? _)%nat; [|discriminate]. cbn [mbind result_bind].
    fields. rewrite !price_of_slice. intros [= <-]. reflexivity. }
  case_tag m_type "E"; [rewrite dispatch_E; case_binds|].
  case_tag m_type "C"; [rewrite dispatch_C; case_binds|].
  case_tag m_type "U".
  { rewrite dispatch_U. unfold struct_unpack.
    destruct (_ =? _)%nat; [|discriminate]. cbn [mbind result_bind].
    fields. rewrite !price_of_slice. intros [= <-]. reflexivity. }
  case_tag m_type "P"; [rewrite dispatch_P; case_binds|].
  rewrite dispatch_other by assumption. intros [= <-].
  repeat match goal with
    | H : m_type <> _ |- _ => apply String.eqb_neq in H; rewrite H; clear H
    end.
  reflexivity.
Qed.

Lemma iteration_table m_map file st file' st' :
  iteration m_map file st = Ok (Continue file' st') ->
  added_orders st' = table_after (frame m_map file) (added_orders st).
Proof.
  destruct file as [|c file]; [discriminate|].
  rewrite iteration_cons. unfold frame. rewrite read_bytes_cons.
  destruct (decode_char [c]) as [m_type|e]; [|discriminate].
  cbn [mbind result_bind]. destruct (m_map !! m_type) as [steps|].
  - change (drop 1 (c :: file)) with file.
    destruct (dispatch m_type (read_bytes file steps) st) as [ctl|e] eqn:Hd;
      [|discriminate].
    apply dispatch_table in Hd. destruct ctl; intros [= <- <-]. exact Hd.
  - intros [= <- <-]. reflexivity.
Qed.

Lemma table_after_app log log' tbl :
  table_after (log ++ log') tbl = table_after log' (table_after log tbl).
Proof. unfold table_after. apply foldl_app. Qed.

(** The table a run reaches is the table it started from, with the
    registrations of the messages it went through, in their order. *)
Lemma reaches_table m_map file st log file' st' :
  reaches m_map file st log file' st' ->
  added_orders st' = table_after log (added_orders st).
Proof.
  induction 1 as [|file st file1 st1 log file2 st2 Hit _ IH]; [reflexivity|].
  rewrite table_after_app, IH. f_equal. apply (iteration_table _ _ _ _ _ Hit).
Qed.

(** A reference that no message of the log registers is where it was. *)
Lemma table_after_unregistered reference log : forall tbl,
  Forall (fun message => ~ registers reference message) log ->
  table_after log tbl !! reference = tbl !! reference.
Proof.
  induction log as [|message log IH]; intros tbl Hall; [reflexivity|].
  apply Forall_cons in Hall as [Hm Hall].
  change (table_after (message :: log) tbl)
    with (table_after log (table_after [message] tbl)).
  rewrite (IH _ Hall). unfold table_after. cbn [foldl].
  unfold registers in Hm.
  destruct (registration message) as [[r p]|]; [|reflexivity].
  apply lookup_insert_ne. intros ->. apply Hm. reflexivity.
Qed.

(** An entry, once in the table, stays: no message removes a key. *)
Lemma table_after_retains reference log : forall tbl,
  is_Some (tbl !! reference) -> is_Some (table_after log tbl !! reference).
Proof.
  induction log as [|message log IH]; intros tbl Hin; [exact Hin|].
  change (table_after (message :: log) tbl)
    with (table_after log (table_after [message] tbl)).
  apply IH. unfold table_after. cbn [foldl].
  destruct (registration message) as [[r p]|]; [|exact Hin].
  destruct (decide (r = reference)) as [->|Hne].
  - rewrite lookup_insert_eq. eauto.
  - rewrite lookup_insert_ne by exact Hne. exact Hin.
Qed.

(** ** Claims on the decoder *)

Lemma decode_char_inv b s :
  decode_char b = Ok s ->
  exists c, b = [c] /\ byte_val c < 128 /\ s = String (ascii_of_byte c) EmptyString.
Proof.
  unfold decode_char. destruct b as [|c [|? ?]]; try discriminate.
  destruct (Z.ltb_spec (byte_val c) 128); [|discriminate].
  intros [= <-]. eauto.
Qed.

(** [dispatch] leaves the loop on one message only: a whole System
    Event message with the event code "M". *)
Lemma dispatch_break m_type msg st st' :
  dispatch m_type msg st = Ok (Break st') ->
  m_type = "S"%string /\ length msg = 11%nat /\ slice 10 1 msg = ["M"%byte]
  /\ st' = close_market (decodeTimestamp (slice 4 6 msg)) st.
Proof.
  case_tag m_type "S".
  { rewrite dispatch_S. unfold struct_unpack.
    destruct (Nat.eqb_spec (length msg) (calcsize (parse_format ">HH6sc")))
      as [Hl|]; [|discriminate].
    cbn [mbind result_bind]. fields.
    destruct (decode_char (slice 10 1 msg)) as [code|] eqn:Hcode; [|discriminate].
    cbn [mbind result_bind].
    destruct (String.eqb code "Q"); [discriminate|].
    destruct (String.eqb_spec code "M") as [->|_]; [|discriminate].
    intros [= <-]. split; [reflexivity|]. split; [exact Hl|]. split; [|reflexivity].
    apply decode_char_inv in Hcode as (b & -> & _ & Heq).
    injection Heq as Heq. apply (f_equal byte_of_ascii) in Heq.
    rewrite byte_of_ascii_of_byte in Heq. rewrite <- Heq. reflexivity. }
  case_tag m_type "R"; [rewrite dispatch_R; case_binds|].
  case_tag m_type "A"; [rewrite dispatch_A; case_binds|].
  case_tag m_type "F"; [rewrite dispatch_F; case_binds|].
  case_tag m_type "E"; [rewrite dispatch_E; case_binds|].
  case_tag m_type "C"; [rewrite dispatch_C; case_binds|].
  case_tag m_type "U"; [rewrite dispatch_U; case_binds|].
  case_tag m_type "P"; [rewrite dispatch_P; case_binds|].
  rewrite dispatch_other by assumption. discriminate.
Qed.

(** A pass ends the loop at the end of the stream or on the market-close
    message, and nowhere else. *)
Lemma iteration_finished m_map file st st' :
  iteration m_map file st = Ok (Finished st') -> stops_at m_map file st st'.
Proof.
  destruct file as [|c file]; [intros [= <-]; left; done|].
  rewrite iteration_cons. unfold stops_at, frame. rewrite read_bytes_cons.
  destruct (decode_char [c]) as [m_type|]; [|discriminate].
  cbn [mbind result_bind]. change (drop 1 (c :: file)) with file.
  destruct (m_map !! m_type) as [steps|]; [|discriminate].
  destruct (dispatch m_type (read_bytes file steps) st) as [[st1|st1]|] eqn:Hd;
    [discriminate| |discriminate].
  cbn [mbind result_bind]. intros [= <-]. right.
  apply dispatch_break in Hd as (-> & Hl & Hm & ->).
  exists (read_bytes file steps). done.
Qed.

(** What the loop returns, it returns from a point of the stream it has
    reached by passes that carried on: a state, where a pass ended the
    loop, or the exception of a pass. *)
Lemma decodeLoop_stops m_map : forall fuel file st,
  match decodeLoop m_map fuel file st with
  | Some (Ok st') =>
      exists log file1 st1,
        reaches m_map file st log file1 st1 /\ stops_at m_map file1 st1 st'
  | Some (Raise e) =>
      exists log file1 st1,
        reaches m_map file st log file1 st1
        /\ iteration m_map file1 st1 = Raise e
  | None => True
  end.
Proof.
  induction fuel as [|fuel IH]; intros file st; [exact I|].
  rewrite decodeLoop_S.
  destruct (iteration m_map file st) as [[file1 st1|st1]|e] eqn:Hit.
  - specialize (IH file1 st1).
    destruct (decodeLoop m_map fuel file1 st1) as [[st'|e]|]; [| |exact I].
    + destruct IH as (log & file2 & st2 & Hrun & Hstop).
      exists (frame m_map file ++ log), file2, st2.
      split; [exact (reaches_step _ _ _ _ _ _ _ _ Hit Hrun)|exact Hstop].
    + destruct IH as (log & file2 & st2 & Hrun & He).
      exists (frame m_map file ++ log), file2, st2.
      split; [exact (reaches_step _ _ _ _ _ _ _ _ Hit Hrun)|exact He].
  - exists [], file, st. split; [apply reaches_refl|].
    apply iteration_finished, Hit.
  - exists [], file, st. split; [apply reaches_refl|exact Hit].
Qed.

(** C2 (as amended): a tag byte below 0x80 that is not a key of the
    layout table is passed over.  The pass takes that one byte, changes
    nothing in the state and dispatches no message, and the loop goes on
    with the next byte as the next tag.  The loop stops in three ways
    only.  It returns a state from the end of the stream, where it always
    stops, or from a whole System Event message with the event code "M"
    (the market close), each reached by passes that carried on; it ends
    with an exception where a pass raises it; and on any stream it does
    one or the other. *)
Theorem unknown_tag_is_skipped m_map c rest st :
  byte_val c < 128 ->
  m_map !! String (ascii_of_byte c) EmptyString = None ->
  (iteration m_map (c :: rest) st = Ok (Continue rest st)
   /\ frame m_map (c :: rest) = []
   /\ forall fuel,
        decodeLoop m_map (S fuel) (c :: rest) st = decodeLoop m_map fuel rest st)
  /\ (forall st0, iteration m_map [] st0 = Ok (Finished st0))
  /\ (forall file st0 st',
        iteration m_map file st0 = Ok (Finished st') ->
        stops_at m_map file st0 st')
  /\ (forall fuel file st0 st',
        decodeLoop m_map fuel file st0 = Some (Ok st') ->
        exists log file1 st1,
          reaches m_map file st0 log file1 st1
          /\ stops_at m_map file1 st1 st')
  /\ (forall fuel file st0 e,
        decodeLoop m_map fuel file st0 = Some (Raise e) ->
        exists log file1 st1,
          reaches m_map file st0 log file1 st1
          /\ iteration m_map file1 st1 = Raise e)
  /\ (forall fuel file st0,
        (length file < fuel)%nat ->
        exists r, decodeLoop m_map fuel file st0 = Some r).
Proof.
  intros Hc Hm.
  assert (Hd : decode_char [c] = Ok (String (ascii_of_byte c) EmptyString)).
  { unfold decode_char. apply Z.ltb_lt in Hc. rewrite Hc. reflexivity. }
  assert (Hit : iteration m_map (c :: rest) st = Ok (Continue rest st)).
  { rewrite iteration_cons, Hd. cbn [mbind result_bind]. rewrite Hm. reflexivity. }
  split; [split; [exact Hit|split]|].
  - unfold frame. rewrite read_bytes_cons, Hd, Hm. reflexivity.
  - intros fuel. rewrite decodeLoop_S, Hit. reflexivity.
  - split; [reflexivity|]. split; [apply iteration_finished|].
    split; [|split].
    + intros fuel file st0 st' Hl.
      pose proof (decodeLoop_stops m_map fuel file st0) as H.
      rewrite Hl in H. exact H.
    + intros fuel file st0 e Hl.
      pose proof (decodeLoop_stops m_map fuel file st0) as H.
      rewrite Hl in H. exact H.
    + intros fuel file st0 Hlen. apply decodeLoop_fuel, Hlen.
Qed.

Lemma unknown_tag_is_skipped_witness :
  iteration messageMap (x00 :: x0c :: msgS 34200000000000 "Q") initial
  = Ok (Continue (x0c :: msgS 34200000000000 "Q") initial).
Proof.
  refine (proj1 (proj1 (unknown_tag_is_skipped messageMap x00
                          (x0c :: msgS 34200000000000 "Q") initial _ _)));
    vm_compute; reflexivity.
Defined.

(** A tag byte from 0x80 on is no UTF-8 string: the run ends there. *)
Lemma non_ascii_tag_raises m_map c rest st :
  128 <= byte_val c ->
  iteration m_map (c :: rest) st = Raise UnicodeDecodeError.
Proof.
  intros Hc. rewrite iteration_cons. unfold decode_char.
  destruct (Z.ltb_spec (byte_val c) 128); [lia|reflexivity].
Qed.

(** A stream in which a Stock Directory message follows the unknown tag
    "Z": the message is read and registers its security, where stopping at
    the tag would have left the directory empty. *)
Lemma unknown_tag_does_not_stop :
  let file := list_byte_of_string "Z" ++ msgR 7 0 "TEST    " in
  messageMap !! "Z"%string = None
  /\ decodeLoop messageMap (S (length file)) file initial
     = Some (Ok (set_ticker 7 [84; 69; 83; 84] initial))
  /\ set_ticker 7 [84; 69; 83; 84] initial <> initial
  /\ decodeLoop messageMap (S (length file)) file initial
     <> decodeLoop messageMap 1 [] initial.
Proof.
  cbv zeta. split; [reflexivity|]. split; [vm_compute; reflexivity|].
  split; [intros H; apply (f_equal stock_map) in H; discriminate H|].
  vm_compute. intros H. discriminate H.
Qed.

(** One pass over an Order Executed message once the market has opened. *)
Lemma iteration_execute msg rest st :
  started st = true -> length msg = 30%nat ->
  iteration messageMap ("E"%byte :: msg ++ rest) st
  = (price ← getitem (added_orders st !! be_uint (slice 10 8 msg));
     Ok (Continue rest
           (append_filled
              (be_uint (slice 0 2 msg), price, be_uint (slice 18 4 msg),
               decodeTimestamp (slice 4 6 msg)) st))).
Proof.
  intros Hs Hl.
  rewrite (iteration_message messageMap "E"%byte "E" 30 msg rest st eq_refl eq_refl Hl).
  rewrite dispatch_E, Hs, struct_unpack_ok by exact Hl.
  cbn [mbind result_bind]. fields.
  destruct (added_orders st !! _); reflexivity.
Qed.

(** C3: a plain Order Executed message, met while the market is open,
    whose reference number no earlier Add or Replace message of the stream
    has registered, raises [KeyError]: the loop, [parseTrades] and [main]
    all end with that exception, no table of volumes comes out. *)
Theorem execute_unregistered_raises file log msg rest st :
  reaches messageMap file initial log ("E"%byte :: msg ++ rest) st ->
  started st = true -> length msg = 30%nat ->
  Forall (fun message => ~ registers (be_uint (slice 10 8 msg)) message) log ->
  added_orders st !! be_uint (slice 10 8 msg) = None
  /\ iteration messageMap ("E"%byte :: msg ++ rest) st = Raise KeyError
  /\ parseTrades file messageMap = Some (Raise KeyError)
  /\ main file = Some (Raise KeyError).
Proof.
  intros Hrun Hs Hl Hlog.
  assert (Hnone : added_orders st !! be_uint (slice 10 8 msg) = None).
  { rewrite (reaches_table _ _ _ _ _ _ Hrun).
    rewrite (table_after_unregistered _ _ _ Hlog). reflexivity. }
  assert (Hit : iteration messageMap ("E"%byte :: msg ++ rest) st = Raise KeyError).
  { rewrite (iteration_execute _ _ _ Hs Hl), Hnone. reflexivity. }
  assert (Hp : parseTrades file messageMap = Some (Raise KeyError)).
  { unfold parseTrades.
    rewrite (reaches_decodeLoop _ _ _ _ _ _ Hrun) by lia.
    rewrite decodeLoop_S, Hit. reflexivity. }
  repeat split; try assumption. unfold main. rewrite Hp. reflexivity.
Qed.

Lemma execute_unregistered_raises_witness :
  main (msgS 34200000000000 "Q" ++ msgE 7 34200000000001 99 10)
  = Some (Raise KeyError).
Proof.
  refine (proj2 (proj2 (proj2
    (execute_unregistered_raises
       (msgS 34200000000000 "Q" ++ msgE 7 34200000000001 99 10)
       (frame messageMap (msgS 34200000000000 "Q" ++ msgE 7 34200000000001 99 10) ++ [])
       (drop 1 (msgE 7 34200000000001 99 10)) []
       (open_market 34200000000000 initial) _ _ _ _)))).
  - eapply reaches_step; [vm_compute; reflexivity|]. apply reaches_refl.
  - reflexivity.
  - reflexivity.
  - apply Forall_cons. split; [|constructor].
    intros H. vm_compute in H. discriminate H.
Defined.

(** An Order Replace message, in any state. *)
Lemma dispatch_replace msg st :
  length msg = 34%nat ->
  dispatch "U" msg st
  = Ok (Next (set_order (be_uint (slice 18 8 msg))
                (exact_float (be_uint (slice 30 4 msg)) / exact_float (10 ^ 4))%float
                st)).
Proof.
  intros Hl. rewrite dispatch_U, struct_unpack_ok by exact Hl.
  cbn [mbind result_bind]. fields. rewrite price_of_slice. reflexivity.
Qed.

Lemma iteration_replace msg rest st :
  length msg = 34%nat ->
  iteration messageMap ("U"%byte :: msg ++ rest) st
  = Ok (Continue rest
          (set_order (be_uint (slice 18 8 msg))
             (exact_float (be_uint (slice 30 4 msg)) / exact_float (10 ^ 4))%float
             st)).
Proof.
  intros Hl.
  rewrite (iteration_message messageMap "U"%byte "U" 34 msg rest st eq_refl eq_refl Hl).
  rewrite (dispatch_replace _ _ Hl). reflexivity.
Qed.

(** C6: an Order Replace message is handled whatever the state, open
    market or not.  All it does is to enter, in the order reference table,
    the new reference number (the second 8-byte integer of the message)
    with the price of the message (its last 4-byte integer, over 10,000);
    the list of filled orders and the rest of the state stay as they
    are. *)
Theorem replace_registers_unconditionally msg rest st :
  length msg = 34%nat ->
  let reference := be_uint (slice 18 8 msg) in
  let price := (exact_float (be_uint (slice 30 4 msg)) / exact_float (10 ^ 4))%float in
  let st' := set_order reference price st in
  price_of (be_uint (slice 30 4 msg)) = Ok price
  /\ dispatch "U" msg st = Ok (Next st')
  /\ iteration messageMap ("U"%byte :: msg ++ rest) st = Ok (Continue rest st')
  /\ added_orders st' = <[reference := price]> (added_orders st)
  /\ filled_orders st' = filled_orders st
  /\ started st' = started st
  /\ stock_map st' = stock_map st
  /\ openTime st' = openTime st
  /\ endTime st' = endTime st.
Proof.
  intros Hl reference price st'.
  split; [apply price_of_slice|]. split; [exact (dispatch_replace _ _ Hl)|].
  split; [exact (iteration_replace _ _ _ Hl)|]. done.
Qed.

Lemma replace_registers_unconditionally_witness :
  iteration messageMap (msgU 7 34200000000000 98 99 500000) initial
  = Ok (Continue [] (set_order 99 50 initial)).
Proof.
  refine (proj1 (proj2 (proj2
    (replace_registers_unconditionally
       (drop 1 (msgU 7 34200000000000 98 99 500000)) [] initial _)))).
  reflexivity.
Defined.

(** One pass over an Add Order message, of either kind. *)
Lemma iteration_add c msg rest st :
  c = "A"%byte /\ length msg = 35%nat \/ c = "F"%byte /\ length msg = 39%nat ->
  iteration messageMap (c :: msg ++ rest) st
  = Ok (Continue rest
          (set_order (be_uint (slice 10 8 msg))
             (exact_float (be_uint (slice 31 4 msg)) / exact_float (10 ^ 4))%float
             st)).
Proof.
  intros [[-> Hl]|[-> Hl]].
  - rewrite (iteration_message messageMap "A"%byte "A" 35 msg rest st eq_refl eq_refl Hl).
    rewrite dispatch_A, struct_unpack_ok by exact Hl.
    cbn [mbind result_bind]. fields. rewrite price_of_slice. reflexivity.
  - rewrite (iteration_message messageMap "F"%byte "F" 39 msg rest st eq_refl eq_refl Hl).
    rewrite dispatch_F, struct_unpack_ok by exact Hl.
    cbn [mbind result_bind]. fields. rewrite price_of_slice. reflexivity.
Qed.

(** C7: an Add Order message ("A" or "F") registers its reference number
    with its price; when a plain Order Executed message for that reference
    comes later, the market being open and no message in between having
    registered the reference again, the pass appends to the filled orders
    the trade (stock ID, price of the add, quantity and timestamp of the
    execute message). *)
Theorem add_then_execute_uses_add_price c add file st0 log msg rest st :
  c = "A"%byte /\ length add = 35%nat \/ c = "F"%byte /\ length add = 39%nat ->
  let reference := be_uint (slice 10 8 add) in
  let price := (exact_float (be_uint (slice 31 4 add)) / exact_float (10 ^ 4))%float in
  reaches messageMap file (set_order reference price st0) log
    ("E"%byte :: msg ++ rest) st ->
  Forall (fun message => ~ registers reference message) log ->
  started st = true -> length msg = 30%nat ->
  be_uint (slice 10 8 msg) = reference ->
  price_of (be_uint (slice 31 4 add)) = Ok price
  /\ iteration messageMap (c :: add ++ file) st0
     = Ok (Continue file (set_order reference price st0))
  /\ iteration messageMap ("E"%byte :: msg ++ rest) st
     = Ok (Continue rest
             (append_filled
                (be_uint (slice 0 2 msg), price, be_uint (slice 18 4 msg),
                 decodeTimestamp (slice 4 6 msg)) st))
  /\ decodeTimestamp (slice 4 6 msg) = be_uint (slice 4 6 msg).
Proof.
  intros Hadd reference price Hrun Hlog Hs Hl Href.
  split; [apply price_of_slice|]. split; [apply iteration_add, Hadd|].
  split; [|apply decodeTimestamp_be_uint, slice_length_exact; lia].
  rewrite (iteration_execute _ _ _ Hs Hl), Href.
  rewrite (reaches_table _ _ _ _ _ _ Hrun).
  rewrite (table_after_unregistered _ _ _ Hlog).
  cbn [added_orders set_order]. rewrite lookup_insert_eq. reflexivity.
Qed.

Lemma add_then_execute_uses_add_price_witness :
  iteration messageMap (msgE 7 34200000000009 99 100)
    (set_order 99 50 (open_market 34200000000000 initial))
  = Ok (Continue []
          (append_filled (7, 50%float, 100, 34200000000009)
             (set_order 99 50 (open_market 34200000000000 initial)))).
Proof.
  refine (proj1 (proj2 (proj2
    (add_then_execute_uses_add_price "A"%byte
       (drop 1 (msgA 7 34200000000005 99 500000))
       (msgE 7 34200000000009 99 100)
       (open_market 34200000000000 initial) []
       (drop 1 (msgE 7 34200000000009 99 100)) []
       (set_order 99 50 (open_market 34200000000000 initial)) _ _ _ _ _ _)))).
  - left. split; reflexivity.
  - apply reaches_refl.
  - constructor.
  - reflexivity.
  - reflexivity.
  - reflexivity.
Defined.

(** C9: on a System message with event code "M" the pass records the
    close timestamp and leaves the loop.  Whatever follows the message in
    the stream plays no part: the loop ends in the state the message was
    met in, with [endTime] set, so with the filled orders collected
    before, and [parseTrades] returns the same for any two streams that
    differ only after the message. *)
Theorem market_close_ends_decoding msg rest st :
  length msg = 11%nat -> slice 10 1 msg = ["M"%byte] ->
  let st' := close_market (decodeTimestamp (slice 4 6 msg)) st in
  iteration messageMap ("S"%byte :: msg ++ rest) st = Ok (Finished st')
  /\ (forall fuel,
        decodeLoop messageMap (S fuel) ("S"%byte :: msg ++ rest) st = Some (Ok st'))
  /\ (forall file st0 log,
        reaches messageMap file st0 log ("S"%byte :: msg ++ rest) st ->
        forall fuel, (length file < fuel)%nat ->
        decodeLoop messageMap fuel file st0 = Some (Ok st'))
  /\ (forall file log,
        reaches messageMap file initial log ("S"%byte :: msg ++ rest) st ->
        parseTrades file messageMap
        = Some (trades ← parseOrders
                           (hourlyMap (dict_keys (stock_map st)) (openTime st)
                              (decodeTimestamp (slice 4 6 msg)))
                           (filled_orders st) (decodeTimestamp (slice 4 6 msg));
                Ok (stock_map st, trades)))
  /\ (forall pre log rest',
        (forall suffix, reaches messageMap (pre ++ suffix) initial log suffix st) ->
        parseTrades (pre ++ "S"%byte :: msg ++ rest) messageMap
        = parseTrades (pre ++ "S"%byte :: msg ++ rest') messageMap)
  /\ filled_orders st' = filled_orders st
  /\ endTime st' = decodeTimestamp (slice 4 6 msg).
Proof.
  intros Hl Hm st'.
  assert (Hit : iteration messageMap ("S"%byte :: msg ++ rest) st = Ok (Finished st')).
  { rewrite (iteration_message messageMap "S"%byte "S" 11 msg rest st eq_refl eq_refl Hl).
    rewrite dispatch_S, struct_unpack_ok by exact Hl.
    cbn [mbind result_bind]. fields. rewrite Hm. reflexivity. }
  assert (Hparse : forall suffix file log,
            reaches messageMap file initial log ("S"%byte :: msg ++ suffix) st ->
            parseTrades file messageMap
            = Some (trades ← parseOrders
                               (hourlyMap (dict_keys (stock_map st)) (openTime st)
                                  (decodeTimestamp (slice 4 6 msg)))
                               (filled_orders st) (decodeTimestamp (slice 4 6 msg));
                    Ok (stock_map st, trades))).
  { intros suffix file log Hrun. unfold parseTrades.
    rewrite (reaches_decodeLoop _ _ _ _ _ _ Hrun) by lia.
    rewrite decodeLoop_S.
    rewrite (iteration_message messageMap "S"%byte "S" 11 msg suffix st
               eq_refl eq_refl Hl).
    rewrite dispatch_S, struct_unpack_ok by exact Hl.
    cbn [mbind result_bind]. fields. rewrite Hm. reflexivity. }
  split; [exact Hit|]. split; [|split; [|split; [|split; [|done]]]].
  - intros fuel. rewrite decodeLoop_S, Hit. reflexivity.
  - intros file st0 log Hrun fuel Hfuel.
    rewrite (reaches_decodeLoop _ _ _ _ _ _ Hrun) by exact Hfuel.
    rewrite decodeLoop_S, Hit. reflexivity.
  - exact (Hparse rest).
  - intros pre log rest' Hpre.
    rewrite (Hparse rest _ log (Hpre _)), (Hparse rest' _ log (Hpre _)).
    reflexivity.
Qed.

Lemma market_close_ends_decoding_witness :
  decodeLoop messageMap 1
    (msgS 57600000000000 "M" ++ msgE 7 57600000000001 99 100)
    (open_market 34200000000000 initial)
  = Some (Ok (close_market 57600000000000 (open_market 34200000000000 initial))).
Proof.
  refine (proj1 (proj2
    (market_close_ends_decoding (drop 1 (msgS 57600000000000 "M"))
       (msgE 7 57600000000001 99 100)
       (open_market 34200000000000 initial) _ _)) 0%nat);
    reflexivity.
Defined.

(** C10: no message takes an entry out of the order reference table.
    After an Order Replace message has registered a new reference, the
    entry of the reference it replaces (a different number) is as it was;
    a later plain Order Executed message against the replaced reference,
    the market being open, is not refused: it appends a trade priced at
    the entry of that reference, which is its old price when no message in
    between has registered the reference again. *)
Theorem replaced_reference_stays_executable replace st0 old_price file log msg rest st :
  length replace = 34%nat ->
  let old := be_uint (slice 10 8 replace) in
  let new := be_uint (slice 18 8 replace) in
  let price := (exact_float (be_uint (slice 30 4 replace)) / exact_float (10 ^ 4))%float in
  let st1 := set_order new price st0 in
  old <> new ->
  added_orders st0 !! old = Some old_price ->
  reaches messageMap file st1 log ("E"%byte :: msg ++ rest) st ->
  started st = true -> length msg = 30%nat ->
  be_uint (slice 10 8 msg) = old ->
  iteration messageMap ("U"%byte :: replace ++ file) st0 = Ok (Continue file st1)
  /\ added_orders st1 !! old = Some old_price
  /\ (forall reference, is_Some (added_orders st0 !! reference) ->
        is_Some (added_orders st1 !! reference)
        /\ is_Some (added_orders st !! reference))
  /\ (exists last_price,
        added_orders st !! old = Some last_price
        /\ iteration messageMap ("E"%byte :: msg ++ rest) st
           = Ok (Continue rest
                   (append_filled
                      (be_uint (slice 0 2 msg), last_price,
                       be_uint (slice 18 4 msg),
                       decodeTimestamp (slice 4 6 msg)) st))
        /\ (Forall (fun message => ~ registers old message) log ->
            last_price = old_price)).
Proof.
  intros Hlr old new price st1 Hne Hold Hrun Hs Hl Href.
  assert (H1 : added_orders st1 !! old = Some old_price).
  { cbn [st1 added_orders set_order]. rewrite lookup_insert_ne by congruence.
    exact Hold. }
  pose proof (reaches_table _ _ _ _ _ _ Hrun) as Htbl.
  split; [exact (iteration_replace replace file st0 Hlr)|].
  split; [exact H1|]. split.
  - intros reference Hin.
    assert (Hin1 : is_Some (added_orders st1 !! reference)).
    { apply (table_after_retains reference [("U"%string, replace)]) in Hin.
      unfold table_after in Hin. cbn [foldl registration String.eqb] in Hin.
      revert Hin. simpl. rewrite price_of_slice. trivial. }
    split; [exact Hin1|]. rewrite Htbl. apply table_after_retains, Hin1.
  - destruct (table_after_retains old log (added_orders st1)) as [last_price Hlast];
      [eauto|].
    exists last_price. rewrite Htbl. split; [exact Hlast|]. split.
    + rewrite (iteration_execute _ _ _ Hs Hl), Href, Htbl, Hlast. reflexivity.
    + intros Hlog. rewrite (table_after_unregistered _ _ _ Hlog) in Hlast.
      congruence.
Qed.

Lemma replaced_reference_stays_executable_witness :
  added_orders
    (set_order 99 60 (set_order 98 50 (open_market 34200000000000 initial)))
    !! 98 = Some 50%float.
Proof.
  refine (proj1 (proj2
    (replaced_reference_stays_executable
       (drop 1 (msgU 7 34200000000005 98 99 600000))
       (set_order 98 50 (open_market 34200000000000 initial)) 50%float
       (msgE 7 34200000000009 98 100) []
       (drop 1 (msgE 7 34200000000009 98 100)) []
       (set_order 99 60 (set_order 98 50 (open_market 34200000000000 initial)))
       _ _ _ _ _ _ _))).
  - reflexivity.
  - vm_compute. congruence.
  - reflexivity.
  - apply reaches_refl.
  - reflexivity.
  - reflexivity.
  - reflexivity.
Defined.

(** ** Dictionaries and folds *)

Lemma foldM_app {A B} (f : A -> B -> result A) l l' : forall a,
  foldM f a (l ++ l') = (a' ← foldM f a l; foldM f a' l').
Proof.
  induction l as [|b l IH]; intros a; [reflexivity|].
  cbn [app foldM]. destruct (f a b) as [a'|e]; [|reflexivity].
  cbn [mbind result_bind]. apply IH.
Qed.

Lemma dict_get_set_eq {V} k (v : V) d : dict_get k (dict_set k v d) = Some v.
Proof.
  induction d as [|[k' v'] d IH]; cbn [dict_set dict_get].
  - rewrite Z.eqb_refl. reflexivity.
  - destruct (Z.eqb_spec k k') as [->|Hne]; cbn [dict_get].
    + rewrite Z.eqb_refl. reflexivity.
    + destruct (Z.eqb_spec k k'); [contradiction|]. exact IH.
Qed.

Lemma dict_get_set_ne {V} k k' (v : V) d :
  k <> k' -> dict_get k' (dict_set k v d) = dict_get k' d.
Proof.
  intros Hne. induction d as [|[k0 v0] d IH]; cbn [dict_set dict_get].
  - destruct (Z.eqb_spec k' k); [congruence|reflexivity].
  - destruct (Z.eqb_spec k k0) as [->|Hne0]; cbn [dict_get].
    + destruct (Z.eqb_spec k' k0); [congruence|reflexivity].
    + destruct (Z.eqb_spec k' k0); [reflexivity|exact IH].
Qed.

(** Assigning to a key that is there keeps the keys and their order. *)
Lemma dict_keys_set_present {V} k (v : V) d :
  is_Some (dict_get k d) -> dict_keys (dict_set k v d) = dict_keys d.
Proof.
  unfold dict_keys. induction d as [|[k' v'] d IH]; cbn [dict_set dict_get].
  - intros [? ?]. discriminate.
  - destruct (Z.eqb_spec k k') as [->|Hne]; intros Hin; cbn [fmap list_fmap fst].
    + reflexivity.
    + change (list_fmap _ _ fst ?l) with (l.*1). rewrite (IH Hin). reflexivity.
Qed.

Lemma parseOrders_snoc trades orders o endTime :
  parseOrders trades (orders ++ [o]) endTime
  = (trades' ← parseOrders trades orders endTime; parseOrder endTime trades' o).
Proof.
  unfold parseOrders. rewrite foldM_app. 
  destruct (foldM _ trades orders) as [trades'|e]; [|reflexivity].
  cbn [mbind result_bind foldM].
  destruct (parseOrder endTime trades' o); reflexivity.
Qed.

(** What folding one filled order in does to the table. *)
Lemma parseOrder_bucket endTime trades stock price quantity time
  stock_trades curValue curQuantity :
  dict_get stock trades = Some stock_trades ->
  stock_trades !! calculateHour time endTime = Some (curValue, curQuantity) ->
  parseOrder endTime trades (stock, price, quantity, time)
  = (value ← float_mul_int price quantity;
     newValue ← py_add curValue (PyFloat value);
     Ok (dict_set stock
           (<[calculateHour time endTime := (newValue, curQuantity + quantity)]>
              stock_trades) trades)).
Proof.
  intros Hs Hb. unfold parseOrder. rewrite Hs. cbn [getitem mbind result_bind].
  rewrite Hb. reflexivity.
Qed.

Lemma bucket_at_set_eq ID hour b stock_trades trades :
  bucket_at ID hour (dict_set ID (<[hour := b]> stock_trades) trades) = Some b.
Proof.
  unfold bucket_at. rewrite dict_get_set_eq. cbn. apply lookup_insert_eq.
Qed.

Lemma bucket_at_set_ne ID hour b stock_trades trades ID' hour' :
  dict_get ID trades = Some stock_trades ->
  (ID', hour') <> (ID, hour) ->
  bucket_at ID' hour' (dict_set ID (<[hour := b]> stock_trades) trades)
  = bucket_at ID' hour' trades.
Proof.
  intros Hs Hne. unfold bucket_at.
  destruct (decide (ID = ID')) as [<-|HID].
  - rewrite dict_get_set_eq, Hs. cbn. apply lookup_insert_ne. congruence.
  - rewrite dict_get_set_ne by exact HID. reflexivity.
Qed.

(** ** Claims on the aggregation *)

(** C8 (as amended): an Order Executed With Price message met while the
    market is open.  With the flag "Y", the wire price 1002500 and the
    quantity 10, the price decodes to the float 100.25 (exactly 401/4)
    and the pass appends the trade (stock ID, 100.25, 10, timestamp).
    Folding that trade in adds 10 to the quantity of the bucket of its
    stock and hour, and gives the bucket the value that Python's [+]
    gives for the old value and the float 1002.5 (exactly 2005/2): the
    float 1002.5 on a fresh bucket, the rounded float sum on a bucket
    that holds a float; no other bucket is touched.  With another flag
    no trade is appended: the pass leaves the state as it is when the
    flag byte is ASCII, and the run ends in [UnicodeDecodeError] when it
    is 0x80 or above. *)
Theorem execute_with_price_contribution msg rest st :
  started st = true -> length msg = 35%nat ->
  let stockID := be_uint (slice 0 2 msg) in
  let time := decodeTimestamp (slice 4 6 msg) in
  let trade : order := (stockID, 100.25%float, 10, time) in
  (slice 30 1 msg = ["Y"%byte] ->
   be_uint (slice 31 4 msg) = 1002500 -> be_uint (slice 18 4 msg) = 10 ->
   price_of 1002500 = Ok 100.25%float
   /\ float_units 100.25 = Some (401 * 2 ^ 1072)
   /\ float_mul_int 100.25 10 = Ok 1002.5%float
   /\ float_units 1002.5 = Some (2005 * 2 ^ 1073)
   /\ iteration messageMap ("C"%byte :: msg ++ rest) st
      = Ok (Continue rest (append_filled trade st))
   /\ filled_orders (append_filled trade st) = filled_orders st ++ [trade]
   /\ (forall trades endTime,
         parseOrders trades (filled_orders (append_filled trade st)) endTime
         = (trades' ← parseOrders trades (filled_orders st) endTime;
            parseOrder endTime trades' trade))
   /\ (forall endTime trades stock_trades curValue curQuantity,
         dict_get stockID trades = Some stock_trades ->
         stock_trades !! calculateHour time endTime = Some (curValue, curQuantity) ->
         exists trades',
           parseOrder endTime trades trade
           = (newValue ← py_add curValue (PyFloat 1002.5);
              Ok (trades' newValue))
           /\ (forall newValue,
                 bucket_at stockID (calculateHour time endTime) (trades' newValue)
                 = Some (newValue, curQuantity + 10))
           /\ (forall newValue ID hour,
                 (ID, hour) <> (stockID, calculateHour time endTime) ->
                 bucket_at ID hour (trades' newValue) = bucket_at ID hour trades))
   /\ py_add (PyInt 0) (PyFloat 1002.5) = Ok (PyFloat 1002.5)
   /\ (forall f, py_add (PyFloat f) (PyFloat 1002.5) = Ok (PyFloat (f + 1002.5))))
  /\ (forall b, slice 30 1 msg = [b] -> b <> "Y"%byte ->
      iteration messageMap ("C"%byte :: msg ++ rest) st
      = if byte_val b <? 128 then Ok (Continue rest st)
        else Raise UnicodeDecodeError).
Proof.
  intros Hs Hl stockID time trade.
  assert (Hit : iteration messageMap ("C"%byte :: msg ++ rest) st
    = (flag ← decode_char (slice 30 1 msg);
       if String.eqb flag "Y" then
         price ← price_of (be_uint (slice 31 4 msg));
         Ok (Continue rest
               (append_filled (stockID, price, be_uint (slice 18 4 msg), time) st))
       else Ok (Continue rest st))).
  { rewrite (iteration_message messageMap "C"%byte "C" 35 msg rest st eq_refl eq_refl Hl).
    rewrite dispatch_C, Hs, struct_unpack_ok by exact Hl.
    cbn [mbind result_bind]. fields.
    destruct (decode_char (slice 30 1 msg)) as [flag|e]; [|reflexivity].
    cbn [mbind result_bind]. destruct (String.eqb flag "Y"); [|reflexivity].
    rewrite price_of_slice. reflexivity. }
  split.
  - intros Hy Hp Hq.
    split; [reflexivity|]. split; [vm_compute; reflexivity|].
    split; [reflexivity|]. split; [vm_compute; reflexivity|]. split.
    { rewrite Hit, Hy, Hp, Hq. reflexivity. }
    split; [reflexivity|].
    split; [intros; apply parseOrders_snoc|]. split; [|split; [reflexivity|done]].
    intros endTime trades stock_trades curValue curQuantity Hst Hb.
    exists (fun newValue =>
              dict_set stockID
                (<[calculateHour time endTime := (newValue, curQuantity + 10)]>
                   stock_trades) trades).
    split; [|split].
    + unfold trade. rewrite (parseOrder_bucket _ _ _ _ _ _ _ _ _ Hst Hb).
      reflexivity.
    + intros newValue. apply bucket_at_set_eq.
    + intros newValue ID hour Hne. apply bucket_at_set_ne; assumption.
  - intros b Hb Hn. rewrite Hit, Hb. unfold decode_char.
    destruct (byte_val b <? 128); [|reflexivity].
    cbn [mbind result_bind].
    destruct (String.eqb_spec (String (ascii_of_byte b) EmptyString) "Y") as [Heq|];
      [|reflexivity].
    exfalso. apply Hn. injection Heq as Heq.
    apply (f_equal byte_of_ascii) in Heq. rewrite byte_of_ascii_of_byte in Heq.
    rewrite Heq. reflexivity.
Qed.

Lemma execute_with_price_contribution_witness :
  iteration messageMap (msgC 7 34200000000009 99 10 "Y" 1002500)
    (open_market 34200000000000 initial)
  = Ok (Continue []
          (append_filled (7, 100.25%float, 10, 34200000000009)
             (open_market 34200000000000 initial)))
  /\ iteration messageMap (msgC 7 34200000000009 99 10 "N" 1002500)
       (open_market 34200000000000 initial)
     = Ok (Continue [] (open_market 34200000000000 initial)).
Proof.
  split.
  - refine (proj1 (proj2 (proj2 (proj2 (proj2 (proj1
      (execute_with_price_contribution
         (drop 1 (msgC 7 34200000000009 99 10 "Y" 1002500)) []
         (open_market 34200000000000 initial) _ _) _ _ _)))))); reflexivity.
  - refine (proj2
      (execute_with_price_contribution
         (drop 1 (msgC 7 34200000000009 99 10 "N" 1002500)) []
         (open_market 34200000000000 initial) _ _) "N"%byte _ _);
      [reflexivity|reflexivity|reflexivity|].
    intros H. discriminate H.
Defined.

(** The value of a bucket does not go up by exactly 1002.50 when the
    bucket already holds a float.  In the capture [one_execution] the
    bucket of the last hour holds 0.1 (the double nearest to it) after an
    execution of 1 share at 0.1000; in [two_executions] the execution of
    10 shares at 100.2500 follows, and the bucket holds the double nearest
    to 1002.6.  The difference of the two values, taken exactly, is not
    1002.5. *)
Lemma execute_with_price_not_exact :
  parsed_bucket one_execution 7 "4:00"
  = Some (Ok (Some (PyFloat 0x1.999999999999ap-4, 1)))
  /\ parsed_bucket two_executions 7 "4:00"
     = Some (Ok (Some (PyFloat 0x1.f54cccccccccdp+9, 11)))
  /\ exists old new added,
       float_units 0x1.999999999999ap-4 = Some old
       /\ float_units 0x1.f54cccccccccdp+9 = Some new
       /\ float_units 1002.5 = Some added
       /\ new - old <> added.
Proof.
  split; [vm_compute; reflexivity|]. split; [vm_compute; reflexivity|].
  eexists _, _, _. split; [vm_compute; reflexivity|].
  split; [vm_compute; reflexivity|]. split; [vm_compute; reflexivity|].
  vm_compute. discriminate.
Qed.

(** ** Ints that go to floats

    Rounding an int to a float overflows only from 2^1024 on: below 2^1023
    the exponent the rounding ends with is within the range of the
    format. *)

Lemma digits2_size p : digits2_pos p = Pos.size p.
Proof. induction p as [p IH|p IH|]; simpl; congruence. Qed.

Lemma Zdigits2_nonneg z : 0 <= Zdigits2 z.
Proof. destruct z; simpl; lia. Qed.

Lemma Zdigits2_gt z : Z.abs z < 2 ^ Zdigits2 z.
Proof.
  assert (H : forall p, Zpos p < 2 ^ Zpos (digits2_pos p)).
  { intros p. rewrite digits2_size. pose proof (Pos.size_gt p) as H.
    apply Pos2Z.pos_lt_pos in H. rewrite Pos2Z.inj_pow in H. exact H. }
  destruct z as [|p|p]; simpl Z.abs; simpl Zdigits2; [reflexivity|apply H..].
Qed.

Lemma Zdigits2_le z n : 0 <= n -> Z.abs z < 2 ^ n -> Zdigits2 z <= n.
Proof.
  intros Hn Hz.
  assert (H : forall p, Zpos p < 2 ^ n -> Zpos (digits2_pos p) <= n).
  { intros p Hp. rewrite digits2_size. pose proof (Pos.size_le p) as H.
    apply Pos2Z.pos_le_pos in H. rewrite Pos2Z.inj_pow in H.
    change (Zpos p~0) with (2 * Zpos p) in H.
    assert (H2 : 2 ^ Zpos (Pos.size p) < 2 ^ (n + 1)).
    { rewrite Z.pow_add_r by lia. change (2 ^ 1) with 2. lia. }
    apply Z.pow_lt_mono_r_iff in H2; lia. }
  destruct z as [|p|p]; simpl Z.abs in Hz; simpl Zdigits2; [lia|apply H, Hz..].
Qed.

Lemma Zdigits2_succ z : Zdigits2 (z + 1) <= Zdigits2 z + 1.
Proof.
  pose proof (Zdigits2_nonneg z). pose proof (Zdigits2_gt z) as Hz.
  assert (0 < 2 ^ Zdigits2 z) by (apply Z.pow_pos_nonneg; lia).
  apply Zdigits2_le; [lia|].
  rewrite Z.pow_add_r by lia. change (2 ^ 1) with 2. lia.
Qed.

Lemma shr_1_digits r :
  Zdigits2 (shr_m (shr_1 r)) <= Z.max 0 (Zdigits2 (shr_m r) - 1).
Proof.
  destruct r as [m r s].
  destruct m as [|[p|p|]|[p|p|]]; cbn [shr_1 shr_m Zdigits2 digits2_pos]; lia.
Qed.

Lemma iter_shr_1_digits p : forall r,
  Zdigits2 (shr_m (SpecFloat.iter_pos shr_1 p r)) <= Z.max 0 (Zdigits2 (shr_m r) - Zpos p).
Proof.
  induction p as [p IH|p IH|]; intros r; simpl SpecFloat.iter_pos.
  - pose proof (IH (SpecFloat.iter_pos shr_1 p (shr_1 r))).
    pose proof (IH (shr_1 r)). pose proof (shr_1_digits r). lia.
  - pose proof (IH (SpecFloat.iter_pos shr_1 p r)). pose proof (IH r). lia.
  - apply shr_1_digits.
Qed.

Lemma shr_record_of_loc_m m l : shr_m (shr_record_of_loc m l) = m.
Proof. destruct l as [|[| |]]; reflexivity. Qed.

Lemma shr_fexp_bound m e l :
  snd (shr_fexp prec emax m e l) = Z.max e (fexp prec emax (Zdigits2 m + e))
  /\ Zdigits2 (shr_m (fst (shr_fexp prec emax m e l)))
       + snd (shr_fexp prec emax m e l)
     <= Z.max (snd (shr_fexp prec emax m e l)) (Zdigits2 m + e).
Proof.
  unfold shr_fexp, shr.
  pose proof (Zdigits2_nonneg m).
  destruct (fexp prec emax (Zdigits2 m + e) - e) as [|p|p] eqn:Hn; cbn [fst snd];
    rewrite ?shr_record_of_loc_m; try lia.
  pose proof (iter_shr_1_digits p (shr_record_of_loc m l)) as Hd.
  rewrite shr_record_of_loc_m in Hd. lia.
Qed.

Lemma round_digits m l : Zdigits2 (round_nearest_even m l) <= Zdigits2 m + 1.
Proof.
  pose proof (Zdigits2_succ m).
  destruct l as [|[| |]]; simpl; try lia. destruct (Z.even m); lia.
Qed.

Lemma binary_round_aux_finite sx mx ex lx :
  Z.max ex (Zdigits2 mx + ex - 52) <= 971 ->
  forall s, binary_round_aux prec emax sx mx ex lx <> S754_infinity s.
Proof.
  intros Hb s. unfold binary_round_aux.
  destruct (shr_fexp_bound mx ex lx) as [He1 Hd1].
  destruct (shr_fexp prec emax mx ex lx) as [mrs1 e1]. cbn [fst snd] in *.
  set (m2 := round_nearest_even (shr_m mrs1) (loc_of_shr_record mrs1)).
  destruct (shr_fexp_bound m2 e1 loc_Exact) as [He2 _].
  destruct (shr_fexp prec emax m2 e1 loc_Exact) as [mrs2 e2]. cbn [fst snd] in *.
  pose proof (round_digits (shr_m mrs1) (loc_of_shr_record mrs1)) as Hr.
  fold m2 in Hr.
  assert (He : e2 <= 971).
  { unfold fexp, SpecFloat.emin, prec, emax in *. lia. }
  destruct (shr_m mrs2); try discriminate.
  apply Z.leb_le in He. unfold prec, emax. change (1024 - 53) with 971.
  rewrite He. discriminate.
Qed.

Lemma digits_iter_xO m d :
  Zpos (digits2_pos (Pos.iter xO m d)) = Zpos (digits2_pos m) + Zpos d.
Proof.
  induction d as [|d IH] using Pos.peano_ind.
  - simpl. lia.
  - rewrite Pos.iter_succ. simpl digits2_pos. lia.
Qed.

Lemma binary_normalize_finite z :
  Z.abs z < 2 ^ 1023 ->
  forall s, binary_normalize prec emax z 0 false <> S754_infinity s.
Proof.
  intros Hz s.
  assert (H : forall sx m, Zpos m < 2 ^ 1023 ->
                binary_round prec emax sx m 0 <> S754_infinity s).
  { intros sx m Hm. unfold binary_round.
    pose proof (Zdigits2_le (Zpos m) 1023 ltac:(lia) Hm) as Hd. simpl Zdigits2 in Hd.
    unfold shl_align.
    destruct (fexp prec emax (Zpos (digits2_pos m) + 0) - 0) as [|d|d] eqn:Hn;
      apply binary_round_aux_finite; simpl Zdigits2; rewrite ?digits_iter_xO;
      unfold fexp, SpecFloat.emin, prec, emax in *; lia. }
  destruct z as [|m|m]; simpl binary_normalize; [discriminate|apply H, Hz..].
Qed.

(** An int below 2^1023 in magnitude goes to a float. *)
Lemma float_of_int_below z : Z.abs z < 2 ^ 1023 -> convertible z.
Proof.
  intros Hz. unfold convertible, float_of_int.
  destruct (is_exact z); [eauto|].
  pose proof (binary_normalize_finite z Hz) as Hfin. unfold checked.
  destruct (binary_normalize prec emax z 0 false) as [s|s| |s m e];
    [eauto| |eauto..].
  exfalso. exact (Hfin s eq_refl).
Qed.

(** ** The running VWAP *)

Lemma py_add_ok a b :
  value_ok a -> value_ok b -> exists v, py_add a b = Ok v /\ value_ok v.
Proof.
  intros [->|[x ->]] [->|[y ->]]; eexists; (split; [reflexivity|]);
    solve [left; reflexivity | right; eauto].
Qed.

(** The division of [VWAP] raises only when the quantity does not go to
    a float. *)
Lemma py_truediv_ok v q :
  value_ok v -> q <> 0 -> convertible q -> exists a, py_truediv v q = Ok a.
Proof.
  intros Hv Hq [y Hy]. pose proof (proj2 (Z.eqb_neq _ _) Hq) as Hq'.
  destruct Hv as [->|[x ->]]; unfold py_truediv.
  - unfold int_truediv. rewrite Hq'.
    destruct (is_exact 0 && is_exact q); [eexists; reflexivity|].
    destruct q as [|p|p]; [contradiction|eexists; reflexivity..].
  - rewrite Hy. cbn [mbind result_bind]. rewrite Hq'. eexists. reflexivity.
Qed.

(** [VWAP] read backwards: what a result says of the arguments. *)
Lemma VWAP_inv value quantity runningValue runningQuantity V Q a :
  VWAP (value, quantity) runningValue runningQuantity = Ok (V, Q, a) ->
  py_add value runningValue = Ok V
  /\ Q = quantity + runningQuantity
  /\ (Q <> 0 -> py_truediv V Q = Ok a)
  /\ (Q = 0 -> a = PyInt 0).
Proof.
  unfold VWAP. destruct (py_add value runningValue) as [V'|e]; [|discriminate].
  cbn [mbind result_bind]. case_bool_decide as HQ.
  - destruct (py_truediv V' (quantity + runningQuantity)) as [a'|e] eqn:Hd;
      [|discriminate].
    cbn [mbind result_bind]. intros [= <- <- <-]. done.
  - cbn [mbind result_bind]. intros [= <- <- <-].
    split; [reflexivity|]. split; [reflexivity|]. split; [|reflexivity].
    intros HQ'. contradiction.
Qed.

(** [VWAP] gives the number of the spec for the totals it returns. *)
Lemma VWAP_spec value quantity runningValue runningQuantity :
  VWAP (value, quantity) runningValue runningQuantity
  = (V ← py_add value runningValue;
     a ← (if bool_decide (quantity + runningQuantity ≠ 0)
          then py_truediv V (quantity + runningQuantity)
          else Ok (PyInt 0));
     Ok (V, quantity + runningQuantity, a)).
Proof. reflexivity. Qed.

Lemma VWAP_ok value quantity runningValue runningQuantity :
  value_ok value -> value_ok runningValue ->
  convertible (quantity + runningQuantity) ->
  exists V a,
    VWAP (value, quantity) runningValue runningQuantity
    = Ok (V, quantity + runningQuantity, a)
    /\ value_ok V.
Proof.
  intros Hv Hr Hb. rewrite VWAP_spec.
  destruct (py_add_ok _ _ Hv Hr) as (V & -> & HV). cbn [mbind result_bind].
  case_bool_decide as HQ.
  - destruct (py_truediv_ok V _ HV HQ Hb) as [a ->]. eauto.
  - eauto.
Qed.

Lemma spec_cumulative_snoc stock_trades hours i :
  spec_cumulative stock_trades (hours ++ [i])
  = (acc ← spec_cumulative stock_trades hours; accumulate stock_trades acc i).
Proof.
  unfold spec_cumulative. rewrite foldM_app.
  destruct (foldM _ _ hours) as [acc|e]; [|reflexivity].
  cbn [mbind result_bind foldM].
  destruct (accumulate stock_trades acc i); reflexivity.
Qed.

Lemma total_quantity_nonneg stock_trades hours :
  table_ok stock_trades hours -> 0 <= total_quantity stock_trades hours.
Proof.
  induction hours as [|i hours IH]; intros Hok; cbn [total_quantity foldr]; [lia|].
  fold (total_quantity stock_trades hours).
  assert (0 <= total_quantity stock_trades hours).
  { apply IH. intros j Hj. apply Hok. set_solver. }
  destruct (Hok i) as (v & q & Hb & _ & Hq); [set_solver|].
  unfold quantity_at. rewrite Hb. lia.
Qed.

Lemma hourStep_eq stock_trades curValue curQuantity vwap_map i :
  hourStep stock_trades (curValue, curQuantity, vwap_map) i
  = (tradeTuple ← getitem (stock_trades !! hourLabel i);
     '(curValue, curQuantity, vwap) ← VWAP tradeTuple curValue curQuantity;
     vwap_map ← append_vwap (hourLabel i) vwap vwap_map;
     Ok (curValue, curQuantity, vwap_map)).
Proof. reflexivity. Qed.

(** The loop over the hours, from any point of it: [done] are the hours
    behind, [todo] the hours ahead. *)
Lemma hour_loop stock_trades : forall todo done cv cq vwap_map,
  spec_cumulative stock_trades done = Ok (cv, cq) ->
  value_ok cv -> 0 <= cq ->
  table_ok stock_trades todo ->
  (forall j, convertible (cq + total_quantity stock_trades (take j todo))) ->
  NoDup (hourLabel <$> todo) ->
  (forall i, i ∈ todo -> is_Some (vwap_map !! hourLabel i)) ->
  exists V Q vwap_map',
    foldM (hourStep stock_trades) (cv, cq, vwap_map) todo = Ok (V, Q, vwap_map')
    /\ spec_cumulative stock_trades (done ++ todo) = Ok (V, Q)
    /\ (forall j i, todo !! j = Some i ->
          exists a col,
            spec_vwap stock_trades (done ++ take (S j) todo) = Ok a
            /\ vwap_map !! hourLabel i = Some col
            /\ vwap_map' !! hourLabel i = Some (col ++ [a]))
    /\ (forall s, s ∉ hourLabel <$> todo -> vwap_map' !! s = vwap_map !! s).
Proof.
  induction todo as [|i todo IH]; intros done cv cq vwap_map Hcum Hcv Hcq Hok Hb Hnd Hcols.
  { exists cv, cq, vwap_map. rewrite app_nil_r. done. }
  apply NoDup_cons in Hnd as [Hi Hnd].
  destruct (Hok i) as (value & quantity & Hbucket & Hvalue & Hquantity);
    [set_solver|].
  assert (Hok' : table_ok stock_trades todo).
  { intros j Hj. apply Hok. set_solver. }
  assert (Hqi : quantity_at stock_trades i = quantity).
  { unfold quantity_at. rewrite Hbucket. reflexivity. }
  destruct (VWAP_ok value quantity cv cq Hvalue Hcv) as (V1 & a & HV & HV1).
  { specialize (Hb 1%nat). cbn [take total_quantity foldr] in Hb.
    rewrite take_0, Hqi in Hb. cbn [foldr] in Hb.
    replace (quantity + cq) with (cq + (quantity + 0)) by lia. exact Hb. }
  destruct (Hcols i) as [col Hcol]; [set_solver|].
  pose proof (VWAP_inv _ _ _ _ _ _ _ HV) as (Hadd & _ & Hdiv & Hzero).
  assert (Hcum1 : spec_cumulative stock_trades (done ++ [i]) = Ok (V1, quantity + cq)).
  { rewrite spec_cumulative_snoc, Hcum. cbn [mbind result_bind accumulate].
    rewrite Hbucket. cbn [getitem mbind result_bind]. rewrite Hadd. reflexivity. }
  assert (Hemit : spec_vwap stock_trades (done ++ [i]) = Ok a).
  { unfold spec_vwap. rewrite Hcum1. cbn [mbind result_bind].
    case_bool_decide as HQ; [apply Hdiv, HQ|].
    rewrite Hzero; [reflexivity|]. destruct (decide (quantity + cq = 0)); [done|].
    contradiction. }
  destruct (IH (done ++ [i]) V1 (quantity + cq)
              (<[hourLabel i := col ++ [a]]> vwap_map))
    as (V & Q & vwap_map' & Hloop & Hcum' & Hcolumns & Hothers);
    [exact Hcum1|exact HV1|lia|exact Hok'| |exact Hnd| |].
  { intros j. specialize (Hb (S j)). cbn [take total_quantity foldr] in Hb.
    fold (total_quantity stock_trades (take j todo)) in Hb. rewrite Hqi in Hb.
    replace (quantity + cq + total_quantity stock_trades (take j todo))
      with (cq + (quantity + total_quantity stock_trades (take j todo))) by lia.
    exact Hb. }
  { intros j Hj. destruct (decide (hourLabel i = hourLabel j)) as [->|Hne].
    - rewrite lookup_insert_eq. eauto.
    - rewrite lookup_insert_ne by exact Hne. apply Hcols. set_solver. }
  exists V, Q, vwap_map'. split; [|split; [|split]].
  - cbn [foldM]. rewrite hourStep_eq, Hbucket. cbn [getitem mbind result_bind].
    rewrite HV. cbn [mbind result_bind]. unfold append_vwap. rewrite Hcol.
    cbn [getitem mbind result_bind]. exact Hloop.
  - rewrite <- Hcum'. rewrite <- app_assoc. reflexivity.
  - intros [|j] i' Hj.
    + injection Hj as <-. exists a, col. split; [exact Hemit|]. split; [exact Hcol|].
      rewrite Hothers by exact Hi. apply lookup_insert_eq.
    + cbn in Hj. destruct (Hcolumns j i' Hj) as (a' & col' & Ha' & Hc1 & Hc2).
      exists a', col'. split; [|split; [|exact Hc2]].
      * rewrite <- Ha'. rewrite <- app_assoc. reflexivity.
      * rewrite lookup_insert_ne in Hc1; [exact Hc1|].
        intros Heq. apply Hi. rewrite Heq.
        apply list_elem_of_fmap. exists i'. split; [reflexivity|].
        apply list_elem_of_lookup. eauto.
  - intros s Hs. rewrite fmap_cons in Hs. apply not_elem_of_cons in Hs as [Hs1 Hs2].
    rewrite Hothers by exact Hs2. apply lookup_insert_ne. congruence.
Qed.

(** ** Invariants of the tables *)

Lemma hourLabels_NoDup : NoDup hourLabels.
Proof. apply (bool_decide_unpack (NoDup _)). vm_compute. exact I. Qed.

Lemma dict_get_None {V} k (d : dict V) : dict_get k d = None <-> k ∉ dict_keys d.
Proof.
  unfold dict_keys. induction d as [|[k' v'] d IH]; cbn [dict_get].
  - split; [intros _ H; inversion H|done].
  - rewrite fmap_cons, not_elem_of_cons. cbn [fst].
    destruct (Z.eqb_spec k k') as [->|Hne].
    + split; [discriminate|intros [H _]; contradiction].
    + rewrite IH. tauto.
Qed.

Lemma dict_get_is_Some {V} k (d : dict V) : is_Some (dict_get k d) <-> k ∈ dict_keys d.
Proof.
  destruct (dict_get k d) as [v|] eqn:Hg.
  - split; [intros _|eauto]. destruct (decide (k ∈ dict_keys d)) as [|Hn]; [done|].
    apply dict_get_None in Hn. congruence.
  - apply dict_get_None in Hg. split; [intros [? ?]; discriminate|contradiction].
Qed.

Lemma dict_keys_set_absent {V} k (v : V) d :
  dict_get k d = None -> dict_keys (dict_set k v d) = dict_keys d ++ [k].
Proof.
  unfold dict_keys. induction d as [|[k' v'] d IH]; cbn [dict_set dict_get];
    [reflexivity|].
  destruct (Z.eqb_spec k k') as [->|Hne]; [discriminate|].
  intros Hg. rewrite !fmap_cons, (IH Hg). reflexivity.
Qed.

Lemma dict_set_NoDup {V} k (v : V) d :
  NoDup (dict_keys d) -> NoDup (dict_keys (dict_set k v d)).
Proof.
  intros Hnd. destruct (dict_get k d) as [v'|] eqn:Hg.
  - rewrite dict_keys_set_present by eauto. exact Hnd.
  - rewrite (dict_keys_set_absent _ _ _ Hg). apply NoDup_app.
    split; [exact Hnd|]. split; [|apply NoDup_singleton].
    intros x Hx Hin. apply list_elem_of_singleton in Hin as ->.
    apply dict_get_None in Hg. contradiction.
Qed.

Lemma dict_get_lookup {V} (d : dict V) n k v :
  NoDup (dict_keys d) -> d !! n = Some (k, v) -> dict_get k d = Some v.
Proof.
  unfold dict_keys. revert n. induction d as [|[k' v'] d IH]; intros n Hnd Hn;
    [discriminate|].
  rewrite fmap_cons in Hnd. apply NoDup_cons in Hnd as [Hk' Hnd].
  cbn [dict_get]. destruct n as [|n]; cbn in Hn.
  - injection Hn as -> ->. rewrite Z.eqb_refl. reflexivity.
  - destruct (Z.eqb_spec k k') as [->|Hne]; [|exact (IH _ Hnd Hn)].
    exfalso. apply Hk'. apply list_elem_of_fmap. exists (k', v).
    split; [reflexivity|]. apply list_elem_of_lookup. eauto.
Qed.

Lemma empty_table_lookup i :
  i ∈ marketHours -> empty_table !! hourLabel i = Some (PyInt 0, 0).
Proof.
  intros Hi. unfold marketHours in Hi. apply elem_of_seqZ in Hi.
  assert (Hc : i = 10 \/ i = 11 \/ i = 12 \/ i = 13 \/ i = 14 \/ i = 15 \/ i = 16)
    by lia.
  destruct Hc as [Hc|[Hc|[Hc|[Hc|[Hc|[Hc|Hc]]]]]]; subst i; vm_compute; reflexivity.
Qed.

Lemma empty_table_ok : table_ok empty_table marketHours.
Proof.
  intros i Hi. exists (PyInt 0), 0. split; [apply empty_table_lookup, Hi|].
  split; [left; reflexivity|lia].
Qed.

(** [hourlyMap]: one empty table per stock ID, in the order of the
    IDs. *)
Lemma hourlyMap_tables : forall stockIDs acc,
  NoDup (dict_keys acc ++ stockIDs) ->
  let trades :=
    foldl (fun trades ID => dict_set ID empty_table trades) acc stockIDs in
  dict_keys trades = dict_keys acc ++ stockIDs
  /\ forall ID stock_trades, dict_get ID trades = Some stock_trades ->
       dict_get ID acc = Some stock_trades \/ stock_trades = empty_table.
Proof.
  induction stockIDs as [|ID0 stockIDs IH]; intros acc Hnd; cbn [foldl].
  { rewrite app_nil_r. eauto. }
  assert (Hfresh : dict_get ID0 acc = None).
  { apply dict_get_None. apply NoDup_app in Hnd as (_ & Hd & _).
    intros Hin. apply (Hd _ Hin). left. }
  destruct (IH (dict_set ID0 empty_table acc)) as [Hk Hg].
  { rewrite (dict_keys_set_absent _ _ _ Hfresh), <- app_assoc. exact Hnd. }
  split.
  - rewrite Hk, (dict_keys_set_absent _ _ _ Hfresh), <- app_assoc. reflexivity.
  - intros ID stock_trades Hget. destruct (Hg _ _ Hget) as [Hacc|Hempty]; [|eauto].
    destruct (decide (ID0 = ID)) as [->|Hne].
    + rewrite dict_get_set_eq in Hacc. right. congruence.
    + rewrite dict_get_set_ne in Hacc by exact Hne. eauto.
Qed.

Lemma hourlyMap_ok stockIDs openTime endTime :
  NoDup stockIDs ->
  dict_keys (hourlyMap stockIDs openTime endTime) = stockIDs
  /\ tables_ok (hourlyMap stockIDs openTime endTime).
Proof.
  intros Hnd.
  destruct (hourlyMap_tables stockIDs [] Hnd) as [Hk Hg].
  split; [exact Hk|].
  intros ID stock_trades Hget. destruct (Hg _ _ Hget) as [Hacc| ->];
    [discriminate|apply empty_table_ok].
Qed.

Lemma py_add_float a x v : py_add a (PyFloat x) = Ok v -> value_ok v.
Proof.
  unfold py_add. destruct a as [z|y]; cbn [as_float mbind result_bind].
  - destruct (float_of_int z); [|discriminate]. intros [= <-]. right. eauto.
  - intros [= <-]. right. eauto.
Qed.

(** Folding an order in keeps the securities and keeps every table
    well formed. *)
Lemma parseOrder_ok endTime trades o trades' :
  parseOrder endTime trades o = Ok trades' -> 0 <= o.1.2 < 2 ^ 64 ->
  tables_ok trades ->
  dict_keys trades' = dict_keys trades /\ tables_ok trades'.
Proof.
  destruct o as [[[stock price] quantity] time]. cbn [fst snd].
  unfold parseOrder.
  destruct (dict_get stock trades) as [stock_trades|] eqn:Hst; [|discriminate].
  cbn [getitem mbind result_bind].
  destruct (stock_trades !! calculateHour time endTime) as [[curValue curQuantity]|]
    eqn:Hb; [|discriminate].
  cbn [getitem mbind result_bind].
  destruct (float_mul_int price quantity) as [value|]; [|discriminate].
  cbn [mbind result_bind].
  destruct (py_add curValue (PyFloat value)) as [newValue|] eqn:Hadd; [|discriminate].
  cbn [mbind result_bind]. intros [= <-] Hq Hok. split.
  - apply dict_keys_set_present. eauto.
  - intros ID tbl Hget. destruct (decide (stock = ID)) as [->|Hne].
    + rewrite dict_get_set_eq in Hget. injection Hget as <-.
      intros i Hi. destruct (Hok _ _ Hst i Hi) as (v & q & Hvq & Hv & Hq0).
      destruct (decide (calculateHour time endTime = hourLabel i)) as [Heq|Hneq].
      * rewrite Heq, lookup_insert_eq. rewrite Heq, Hvq in Hb.
        injection Hb as <- <-. eexists _, _. split; [reflexivity|].
        split; [apply (py_add_float _ _ _ Hadd)|]. cbn [fst snd] in Hq. lia.
      * rewrite lookup_insert_ne by exact Hneq. eauto.
    + rewrite dict_get_set_ne in Hget by exact Hne. exact (Hok _ _ Hget).
Qed.

Lemma parseOrders_ok endTime : forall orders trades trades',
  parseOrders trades orders endTime = Ok trades' ->
  Forall (fun o : order => 0 <= o.1.2 < 2 ^ 64) orders ->
  tables_ok trades ->
  dict_keys trades' = dict_keys trades /\ tables_ok trades'.
Proof.
  unfold parseOrders.
  induction orders as [|o orders IH]; intros trades trades' Hp Hall Hok.
  - injection Hp as <-. done.
  - cbn [foldM] in Hp. apply Forall_cons in Hall as [Ho Hall].
    destruct (parseOrder endTime trades o) as [trades1|] eqn:H1; [|discriminate].
    destruct (parseOrder_ok _ _ _ _ H1 Ho Hok) as [Hk1 Hok1].
    destruct (IH _ _ Hp Hall Hok1) as [Hk Hok']. split; [congruence|exact Hok'].
Qed.

(** ** Invariants of the decode loop *)

(** An unpacked integer is an unsigned integer of 8 bytes at most. *)
Lemma int_at_unpack_range codes : forall msg i,
  0 <= int_at (unpack_fields codes msg) i < 2 ^ 64.
Proof.
  unfold int_at. induction codes as [|c codes IH]; intros msg i; [done|].
  destruct i as [|i]; cbn [unpack_fields lookup list_lookup]; [|apply IH].
  destruct c; cbn [field_of fcode_size]; [| | |done..].
  - pose proof (be_uint_slice_range 0 2 msg) as H. unfold slice in H.
    change (2 ^ 64) with 18446744073709551616.
    change (256 ^ Z.of_nat 2) with 65536 in H. rewrite drop_0 in H. lia.
  - pose proof (be_uint_slice_range 0 4 msg) as H. unfold slice in H.
    change (2 ^ 64) with 18446744073709551616.
    change (256 ^ Z.of_nat 4) with 4294967296 in H. rewrite drop_0 in H. lia.
  - pose proof (be_uint_slice_range 0 8 msg) as H. unfold slice in H.
    rewrite drop_0 in H. exact H.
Qed.

Lemma append_filled_inv o st :
  0 <= o.1.2 < 2 ^ 64 -> state_inv st -> state_inv (append_filled o st).
Proof.
  intros Ho [Hnd Hall]. split; [exact Hnd|]. cbn [append_filled filled_orders].
  apply Forall_app. split; [exact Hall|]. apply Forall_singleton. exact Ho.
Qed.

Lemma dispatch_inv m_type msg st c :
  dispatch m_type msg st = Ok c -> state_inv st -> state_inv (state_of c).
Proof.
  intros Hd Hinv.
  assert (Hq : forall codes i stockID price time,
             state_inv (append_filled
                          (stockID, price, int_at (unpack_fields codes msg) i, time) st)).
  { intros. apply append_filled_inv; [apply int_at_unpack_range|exact Hinv]. }
  revert Hd.
  case_tag m_type "S"; [rewrite dispatch_S; case_binds; intros [= <-]; exact Hinv|].
  case_tag m_type "R".
  { rewrite dispatch_R. case_binds. intros [= <-]. destruct Hinv as [Hnd Hall].
    split; [apply dict_set_NoDup, Hnd|exact Hall]. }
  case_tag m_type "A"; [rewrite dispatch_A; case_binds; intros [= <-]; exact Hinv|].
  case_tag m_type "F"; [rewrite dispatch_F; case_binds; intros [= <-]; exact Hinv|].
  case_tag m_type "E".
  { rewrite dispatch_E. case_binds; intros [= <-]; simplify_eq;
      first [exact Hinv | apply (Hq (parse_format ">HH6sQIQ"))]. }
  case_tag m_type "C".
  { rewrite dispatch_C. case_binds; intros [= <-]; simplify_eq;
      first [exact Hinv | apply (Hq (parse_format ">HH6sQIQcI"))]. }
  case_tag m_type "U"; [rewrite dispatch_U; case_binds; intros [= <-]; exact Hinv|].
  case_tag m_type "P".
  { rewrite dispatch_P. case_binds; intros [= <-]; simplify_eq;
      first [exact Hinv | apply (Hq (parse_format ">HH6sQcIQIQ"))]. }
  rewrite dispatch_other by assumption. intros [= <-]. exact Hinv.
Qed.

Lemma iteration_inv m_map file st o :
  iteration m_map file st = Ok o -> state_inv st ->
  match o with
  | Continue _ st' => state_inv st'
  | Finished st' => state_inv st'
  end.
Proof.
  destruct file as [|c file]; [intros [= <-]; done|].
  rewrite iteration_cons.
  destruct (decode_char [c]) as [m_type|]; [|discriminate].
  cbn [mbind result_bind]. destruct (m_map !! m_type) as [steps|].
  - destruct (dispatch m_type (read_bytes file steps) st) as [ctl|] eqn:Hd;
      [|discriminate].
    intros Ho Hinv. apply (dispatch_inv _ _ _ _ Hd) in Hinv.
    destruct ctl; injection Ho as <-; exact Hinv.
  - intros [= <-]. done.
Qed.

Lemma decodeLoop_inv m_map : forall fuel file st st',
  decodeLoop m_map fuel file st = Some (Ok st') -> state_inv st -> state_inv st'.
Proof.
  induction fuel as [|fuel IH]; intros file st st' Hl Hinv; [discriminate|].
  rewrite decodeLoop_S in Hl.
  destruct (iteration m_map file st) as [[file1 st1|st1]|] eqn:Hit; [| |discriminate].
  - apply (IH _ _ _ Hl). apply (iteration_inv _ _ _ _ Hit Hinv).
  - injection Hl as <-. apply (iteration_inv _ _ _ _ Hit Hinv).
Qed.

Lemma initial_inv : state_inv initial.
Proof. split; [apply NoDup_nil_2|apply Forall_nil_2]. Qed.

(** A pass appends one filled order at most, and takes a byte off the
    stream for it. *)
Lemma dispatch_count m_type msg st c :
  dispatch m_type msg st = Ok c ->
  (length (filled_orders (state_of c)) <= S (length (filled_orders st)))%nat.
Proof.
  assert (Hq : forall o,
            (length (filled_orders (append_filled o st))
             <= S (length (filled_orders st)))%nat).
  { intros o. cbn [append_filled filled_orders]. rewrite length_app. simpl. lia. }
  case_tag m_type "S"; [rewrite dispatch_S; case_binds; intros [= <-]; simpl; lia|].
  case_tag m_type "R"; [rewrite dispatch_R; case_binds; intros [= <-]; simpl; lia|].
  case_tag m_type "A"; [rewrite dispatch_A; case_binds; intros [= <-]; simpl; lia|].
  case_tag m_type "F"; [rewrite dispatch_F; case_binds; intros [= <-]; simpl; lia|].
  case_tag m_type "E";
    [rewrite dispatch_E; case_binds; intros [= <-]; first [apply Hq|simpl; lia]|].
  case_tag m_type "C";
    [rewrite dispatch_C; case_binds; intros [= <-]; first [apply Hq|simpl; lia]|].
  case_tag m_type "U"; [rewrite dispatch_U; case_binds; intros [= <-]; simpl; lia|].
  case_tag m_type "P";
    [rewrite dispatch_P; case_binds; intros [= <-]; first [apply Hq|simpl; lia]|].
  rewrite dispatch_other by assumption. intros [= <-]. simpl. lia.
Qed.

Lemma iteration_count m_map file st o :
  iteration m_map file st = Ok o ->
  match o with
  | Continue file' st' =>
      (length (filled_orders st') + length file'
       <= length (filled_orders st) + length file)%nat
  | Finished st' =>
      (length (filled_orders st') <= length (filled_orders st) + length file)%nat
  end.
Proof.
  destruct file as [|c file]; [intros [= <-]; simpl; lia|].
  rewrite iteration_cons.
  destruct (decode_char [c]) as [m_type|]; [|discriminate].
  cbn [mbind result_bind]. destruct (m_map !! m_type) as [steps|].
  - destruct (dispatch m_type (read_bytes file steps) st) as [ctl|] eqn:Hd;
      [|discriminate].
    apply dispatch_count in Hd.
    destruct ctl; intros [= <-]; cbn [state_of] in Hd; cbn [length];
      rewrite ?length_drop; lia.
  - intros [= <-]. cbn [length]. lia.
Qed.

Lemma decodeLoop_count m_map : forall fuel file st st',
  decodeLoop m_map fuel file st = Some (Ok st') ->
  (length (filled_orders st') <= length (filled_orders st) + length file)%nat.
Proof.
  induction fuel as [|fuel IH]; intros file st st' Hl; [discriminate|].
  rewrite decodeLoop_S in Hl.
  destruct (iteration m_map file st) as [[file1 st1|st1]|] eqn:Hit; [| |discriminate].
  - apply iteration_count in Hit. apply IH in Hl. lia.
  - apply iteration_count in Hit. injection Hl as <-. exact Hit.
Qed.

(** ** The quantities of the tables *)

Lemma total_quantity_insert_other h b stock_trades hours :
  h ∉ hourLabel <$> hours ->
  total_quantity (<[h := b]> stock_trades) hours = total_quantity stock_trades hours.
Proof.
  unfold total_quantity. induction hours as [|i hours IH]; intros Hh; [reflexivity|].
  rewrite fmap_cons in Hh. apply not_elem_of_cons in Hh as [Hi Hh].
  cbn [foldr]. rewrite (IH Hh). unfold quantity_at.
  rewrite lookup_insert_ne by congruence. reflexivity.
Qed.

(** Adding [q] to the quantity of one bucket adds [q] at most to the
    quantity of the table. *)
Lemma total_quantity_insert h v cv cq q stock_trades hours :
  NoDup (hourLabel <$> hours) ->
  stock_trades !! h = Some (cv, cq) -> 0 <= q ->
  total_quantity (<[h := (v, cq + q)]> stock_trades) hours
  <= total_quantity stock_trades hours + q.
Proof.
  intros Hnd Hb Hq. induction hours as [|i hours IH]; [simpl; lia|].
  rewrite fmap_cons in Hnd. apply NoDup_cons in Hnd as [Hi Hnd].
  cbn [total_quantity foldr].
  fold (total_quantity (<[h := (v, cq + q)]> stock_trades) hours).
  fold (total_quantity stock_trades hours).
  destruct (decide (h = hourLabel i)) as [->|Hne].
  - rewrite total_quantity_insert_other by exact Hi.
    unfold quantity_at. rewrite lookup_insert_eq, Hb. lia.
  - specialize (IH Hnd). unfold quantity_at at 1.
    rewrite lookup_insert_ne by exact Hne.
    fold (quantity_at stock_trades i). lia.
Qed.

Lemma parseOrder_volume endTime trades o trades' n :
  parseOrder endTime trades o = Ok trades' -> 0 <= o.1.2 ->
  volumes_below n trades -> volumes_below (n + o.1.2) trades'.
Proof.
  destruct o as [[[stock price] quantity] time]. cbn [fst snd].
  unfold parseOrder.
  destruct (dict_get stock trades) as [stock_trades|] eqn:Hst; [|discriminate].
  cbn [getitem mbind result_bind].
  destruct (stock_trades !! calculateHour time endTime) as [[curValue curQuantity]|]
    eqn:Hb; [|discriminate].
  cbn [getitem mbind result_bind].
  destruct (float_mul_int price quantity) as [value|]; [|discriminate].
  cbn [mbind result_bind].
  destruct (py_add curValue (PyFloat value)) as [newValue|]; [|discriminate].
  cbn [mbind result_bind]. intros [= <-] Hq Hvol ID tbl Hget.
  destruct (decide (stock = ID)) as [->|Hne].
  - rewrite dict_get_set_eq in Hget. injection Hget as <-.
    pose proof (total_quantity_insert _ newValue _ _ _ _ _ hourLabels_NoDup Hb Hq).
    pose proof (Hvol _ _ Hst). lia.
  - rewrite dict_get_set_ne in Hget by exact Hne. pose proof (Hvol _ _ Hget). lia.
Qed.

Lemma parseOrders_volume endTime : forall orders trades trades' n,
  parseOrders trades orders endTime = Ok trades' ->
  Forall (fun o : order => 0 <= o.1.2 < 2 ^ 64) orders ->
  volumes_below n trades ->
  volumes_below (n + 2 ^ 64 * Z.of_nat (length orders)) trades'.
Proof.
  unfold parseOrders.
  induction orders as [|o orders IH]; intros trades trades' n Hp Hall Hvol.
  - injection Hp as <-. intros ID tbl Hget. pose proof (Hvol _ _ Hget).
    simpl length. lia.
  - cbn [foldM] in Hp. apply Forall_cons in Hall as [Ho Hall].
    destruct (parseOrder endTime trades o) as [trades1|] eqn:H1; [|discriminate].
    pose proof (parseOrder_volume _ _ _ _ n H1 (proj1 Ho) Hvol) as Hvol1.
    pose proof (IH _ _ _ Hp Hall Hvol1) as Hvol'.
    intros ID tbl Hget. pose proof (Hvol' _ _ Hget). cbn [length]. lia.
Qed.

Lemma hourlyMap_volume stockIDs openTime endTime :
  NoDup stockIDs -> volumes_below 0 (hourlyMap stockIDs openTime endTime).
Proof.
  intros Hnd ID tbl Hget.
  destruct (hourlyMap_tables stockIDs [] Hnd) as [_ Hg].
  destruct (Hg _ _ Hget) as [Hacc| ->]; [discriminate|].
  vm_compute. discriminate.
Qed.

(** The quantity of a security is at most 2^64 times the length of the
    stream: a filled order takes at least a byte of it and has a quantity
    below 2^64. *)
Lemma parseTrades_volume file m_map stock_map trades :
  parseTrades file m_map = Some (Ok (stock_map, trades)) ->
  volumes_below (2 ^ 64 * Z.of_nat (length file)) trades.
Proof.
  unfold parseTrades.
  destruct (decodeLoop m_map (S (length file)) file initial) as [[st|]|] eqn:Hl;
    [|discriminate..].
  cbn [mbind option_bind result_bind].
  destruct (parseOrders _ _ _) as [trades'|] eqn:Hp; [|discriminate].
  cbn [mbind result_bind]. intros [= <- <-].
  destruct (decodeLoop_inv _ _ _ _ _ Hl initial_inv) as [Hnd Hall].
  pose proof (decodeLoop_count _ _ _ _ _ Hl) as Hcount. cbn in Hcount.
  pose proof (parseOrders_volume _ _ _ _ 0 Hp Hall
                (hourlyMap_volume _ (openTime st) (endTime st) Hnd)) as Hvol.
  intros ID tbl Hget. pose proof (Hvol _ _ Hget). nia.
Qed.

(** What [parseTrades] returns: a table for every security of the
    directory and for no other, in the order of the directory, every
    table well formed. *)
Lemma parseTrades_ok file m_map stock_map trades :
  parseTrades file m_map = Some (Ok (stock_map, trades)) ->
  NoDup (dict_keys trades)
  /\ dict_keys trades = dict_keys stock_map
  /\ tables_ok trades.
Proof.
  unfold parseTrades.
  destruct (decodeLoop m_map (S (length file)) file initial) as [[st|]|] eqn:Hl;
    [|discriminate..].
  cbn [mbind option_bind result_bind].
  destruct (parseOrders _ _ _) as [trades'|] eqn:Hp; [|discriminate].
  cbn [mbind result_bind]. intros [= <- <-].
  destruct (decodeLoop_inv _ _ _ _ _ Hl initial_inv) as [Hnd Hall].
  destruct (hourlyMap_ok _ (openTime st) (endTime st) Hnd) as [Hk Hok].
  destruct (parseOrders_ok _ _ _ _ Hp Hall Hok) as [Hk' Hok'].
  rewrite Hk', Hk. done.
Qed.

(** ** The projection loop of [main] *)

Lemma marketHours_lookup_elem k i : marketHours !! k = Some i -> i ∈ marketHours.
Proof. intros H. apply list_elem_of_lookup. eauto. Qed.

Lemma total_quantity_app stock_trades l l' :
  total_quantity stock_trades (l ++ l')
  = total_quantity stock_trades l + total_quantity stock_trades l'.
Proof.
  unfold total_quantity. induction l as [|i l IH]; cbn [app foldr]; [lia|].
  rewrite IH. lia.
Qed.

Lemma table_ok_subset stock_trades (l l' : list Z) :
  (forall i, i ∈ l -> i ∈ l') -> table_ok stock_trades l' -> table_ok stock_trades l.
Proof. intros Hsub Hok i Hi. apply Hok, Hsub, Hi. Qed.

(** Quantities that add up to less than 2^1023 all go to floats. *)
Lemma bounded_quantities_convertible stock_trades :
  table_ok stock_trades marketHours ->
  total_quantity stock_trades marketHours < 2 ^ 1023 ->
  quantities_convertible stock_trades.
Proof.
  intros Hok Hb k. apply float_of_int_below.
  assert (Hsub : forall i, i ∈ take k marketHours -> i ∈ marketHours).
  { intros i Hi. apply elem_of_take in Hi as (j & Hj & _).
    exact (marketHours_lookup_elem _ _ Hj). }
  assert (Hsub' : forall i, i ∈ drop k marketHours -> i ∈ marketHours).
  { intros i Hi. apply list_elem_of_lookup in Hi as [j Hj].
    rewrite lookup_drop in Hj. exact (marketHours_lookup_elem _ _ Hj). }
  pose proof (total_quantity_nonneg _ _ (table_ok_subset _ _ _ Hsub Hok)).
  pose proof (total_quantity_nonneg _ _ (table_ok_subset _ _ _ Hsub' Hok)).
  rewrite <- (take_drop k marketHours), total_quantity_app in Hb. lia.
Qed.

(** The loop over the hours of one security, from its start. *)
Lemma hour_loop_whole stock_trades vwap_map :
  table_ok stock_trades marketHours ->
  quantities_convertible stock_trades ->
  (forall i, i ∈ marketHours -> is_Some (vwap_map !! hourLabel i)) ->
  exists V Q vwap_map',
    foldM (hourStep stock_trades) (PyInt 0, 0, vwap_map) marketHours
    = Ok (V, Q, vwap_map')
    /\ (forall k i, marketHours !! k = Some i ->
          exists a col,
            spec_vwap stock_trades (take (S k) marketHours) = Ok a
            /\ vwap_map !! hourLabel i = Some col
            /\ vwap_map' !! hourLabel i = Some (col ++ [a]))
    /\ (forall s, s ∉ hourLabels -> vwap_map' !! s = vwap_map !! s).
Proof.
  intros Hok Hb Hcols.
  destruct (hour_loop stock_trades marketHours [] (PyInt 0) 0 vwap_map)
    as (V & Q & vwap_map' & Hloop & _ & Hcolumns & Hothers);
    [reflexivity|left; reflexivity|lia|exact Hok|exact Hb|exact hourLabels_NoDup
    |exact Hcols|].
  exists V, Q, vwap_map'. done.
Qed.

(** The loop over the first [k] hours. *)
Lemma hour_loop_prefix stock_trades vwap_map k :
  table_ok stock_trades marketHours ->
  quantities_convertible stock_trades ->
  (forall i, i ∈ marketHours -> is_Some (vwap_map !! hourLabel i)) ->
  exists V Q vwap_map',
    after_hours stock_trades vwap_map k = Ok (V, Q, vwap_map')
    /\ spec_cumulative stock_trades (take k marketHours) = Ok (V, Q).
Proof.
  intros Hok Hb Hcols.
  assert (Hsub : forall i, i ∈ take k marketHours -> i ∈ marketHours).
  { intros i Hi. apply elem_of_take in Hi as (j & Hj & _).
    exact (marketHours_lookup_elem _ _ Hj). }
  destruct (hour_loop stock_trades (take k marketHours) [] (PyInt 0) 0 vwap_map)
    as (V & Q & vwap_map' & Hloop & Hcum & _);
    [reflexivity|left; reflexivity|lia|exact (table_ok_subset _ _ _ Hsub Hok)|
    | |intros i Hi; apply Hcols, Hsub, Hi|].
  - intros j. rewrite take_take. apply Hb.
  - rewrite fmap_take. eapply sublist_NoDup; [exact hourLabels_NoDup|].
    apply sublist_take.
  - exists V, Q, vwap_map'. done.
Qed.

Lemma no_trades_cumulative stock_trades : forall hours,
  (forall i, i ∈ hours -> stock_trades !! hourLabel i = Some (PyInt 0, 0)) ->
  spec_cumulative stock_trades hours = Ok (PyInt 0, 0).
Proof.
  unfold spec_cumulative. induction hours as [|i hours IH]; intros Hz; [reflexivity|].
  cbn [foldM accumulate]. rewrite (Hz i) by left.
  cbn [getitem mbind result_bind py_add]. apply IH.
  intros j Hj. apply Hz. right. exact Hj.
Qed.

Lemma no_trades_vwap stock_trades k a :
  no_trades stock_trades ->
  spec_vwap stock_trades (take k marketHours) = Ok a -> a = PyInt 0.
Proof.
  intros Hz. unfold spec_vwap. rewrite no_trades_cumulative.
  - cbn. intros [= <-]. reflexivity.
  - intros i Hi. apply Hz. apply elem_of_take in Hi as (j & Hj & _).
    exact (marketHours_lookup_elem _ _ Hj).
Qed.

Lemma spec_vwap_inv stock_trades hours a :
  spec_vwap stock_trades hours = Ok a ->
  exists V Q,
    spec_cumulative stock_trades hours = Ok (V, Q)
    /\ (Q <> 0 -> py_truediv V Q = Ok a)
    /\ (Q = 0 -> a = PyInt 0).
Proof.
  unfold spec_vwap.
  destruct (spec_cumulative stock_trades hours) as [[V Q]|]; [|discriminate].
  cbn [mbind result_bind]. intros Ha. exists V, Q. split; [reflexivity|].
  case_bool_decide as HQ.
  - split; [intros _; exact Ha|contradiction].
  - injection Ha as <-. split; [contradiction|reflexivity].
Qed.

Lemma securityStep_eq stock_map trades stocks vwap_map ID :
  securityStep stock_map trades (stocks, vwap_map) ID
  = (ticker ← getitem (dict_get ID stock_map);
     stock_trades ← getitem (dict_get ID trades);
     '(_, _, vwap_map) ← foldM (hourStep stock_trades)
                           (PyInt 0, 0, vwap_map) marketHours;
     Ok (stocks ++ [ticker], vwap_map)).
Proof. reflexivity. Qed.

(** The loop over the securities [ids], from the tickers [stocks] and the
    columns [vwap_map] gathered so far: one more ticker per security,
    one more number per security in each of the 7 columns. *)
Lemma security_loop stock_map trades : forall ids stocks vwap_map,
  (forall ID, ID ∈ ids ->
     exists ticker stock_trades,
       dict_get ID stock_map = Some ticker
       /\ dict_get ID trades = Some stock_trades
       /\ table_ok stock_trades marketHours
       /\ quantities_convertible stock_trades) ->
  (forall i, i ∈ marketHours -> is_Some (vwap_map !! hourLabel i)) ->
  exists tickers vwap_map',
    foldM (securityStep stock_map trades) (stocks, vwap_map) ids
    = Ok (stocks ++ tickers, vwap_map')
    /\ length tickers = length ids
    /\ (forall n ID, ids !! n = Some ID -> dict_get ID stock_map = tickers !! n)
    /\ (forall k i, marketHours !! k = Some i ->
          exists col new,
            vwap_map !! hourLabel i = Some col
            /\ vwap_map' !! hourLabel i = Some (col ++ new)
            /\ length new = length ids
            /\ forall n ID, ids !! n = Some ID ->
                 exists stock_trades a,
                   dict_get ID trades = Some stock_trades
                   /\ new !! n = Some a
                   /\ spec_vwap stock_trades (take (S k) marketHours) = Ok a)
    /\ (forall s, s ∉ hourLabels -> vwap_map' !! s = vwap_map !! s).
Proof.
  induction ids as [|ID ids IH]; intros stocks vwap_map Hids Hcols.
  { exists [], vwap_map. rewrite app_nil_r. split; [reflexivity|].
    split; [reflexivity|]. split; [intros n ID Hn; discriminate|]. split; [|done].
    intros k i Hk. destruct (Hcols i (marketHours_lookup_elem _ _ Hk)) as [col Hcol].
    exists col, []. rewrite app_nil_r. split; [exact Hcol|]. split; [exact Hcol|].
    split; [reflexivity|]. intros n ID Hn. discriminate. }
  destruct (Hids ID) as (ticker & stock_trades & Hticker & Htable & Hok & Hb);
    [left|].
  destruct (hour_loop_whole stock_trades vwap_map Hok Hb Hcols)
    as (V & Q & vwap_map1 & Hloop & Hcolumns & Hothers).
  destruct (IH (stocks ++ [ticker]) vwap_map1)
    as (tickers & vwap_map' & Hfold & Hlen & Htickers & Hcolumns' & Hothers').
  { intros ID' HID'. apply Hids. right. exact HID'. }
  { intros i Hi. apply list_elem_of_lookup in Hi as [k Hk].
    destruct (Hcolumns k i Hk) as (a & col & _ & _ & Hc). eauto. }
  exists (ticker :: tickers), vwap_map'. split; [|split; [|split; [|split]]].
  - cbn [foldM]. rewrite securityStep_eq, Hticker, Htable.
    cbn [getitem mbind result_bind]. rewrite Hloop. cbn [mbind result_bind].
    rewrite Hfold, <- app_assoc. reflexivity.
  - cbn [length]. rewrite Hlen. reflexivity.
  - intros [|n] ID' Hn; cbn in Hn.
    + injection Hn as <-. exact Hticker.
    + exact (Htickers n ID' Hn).
  - intros k i Hk.
    destruct (Hcolumns k i Hk) as (a & col & Ha & Hcol & Hcol1).
    destruct (Hcolumns' k i Hk) as (col1 & new & Hc1 & Hc' & Hnew & Hrows).
    rewrite Hcol1 in Hc1. injection Hc1 as <-.
    exists col, (a :: new). split; [exact Hcol|]. split.
    { rewrite Hc', <- app_assoc. reflexivity. }
    split; [cbn [length]; rewrite Hnew; reflexivity|].
    intros [|n] ID' Hn; cbn in Hn.
    + injection Hn as <-. exists stock_trades, a. done.
    + exact (Hrows n ID' Hn).
  - intros s Hs. rewrite (Hothers' s Hs). exact (Hothers s Hs).
Qed.

Lemma empty_columns_lookup i :
  i ∈ marketHours ->
  empty_columns !! hourLabel i = Some [].
Proof.
  intros Hi. unfold marketHours in Hi. apply elem_of_seqZ in Hi.
  assert (Hc : i = 10 \/ i = 11 \/ i = 12 \/ i = 13 \/ i = 14 \/ i = 15 \/ i = 16)
    by lia.
  destruct Hc as [Hc|[Hc|[Hc|[Hc|[Hc|[Hc|Hc]]]]]]; subst i; vm_compute; reflexivity.
Qed.

Lemma empty_columns_other (l : list Z) : forall (m : gmap string (list pynum)) s,
  s ∉ hourLabel <$> l ->
  foldl (fun m i => <[hourLabel i := []]> m) m l !! s = m !! s.
Proof.
  induction l as [|i l IH]; intros m s Hs; [reflexivity|].
  rewrite fmap_cons in Hs. apply not_elem_of_cons in Hs as [Hs1 Hs2].
  cbn [foldl]. rewrite (IH _ _ Hs2). apply lookup_insert_ne. congruence.
Qed.

(** The projection of a well-formed table of trades. *)
Lemma project_columns stock_map trades :
  NoDup (dict_keys trades) ->
  dict_keys trades = dict_keys stock_map ->
  tables_ok trades ->
  (forall ID stock_trades, dict_get ID trades = Some stock_trades ->
     quantities_convertible stock_trades) ->
  exists stocks vwap_map,
    project stock_map trades = Ok (stocks, vwap_map)
    /\ length stocks = length trades
    /\ (forall s, is_Some (vwap_map !! s) <-> s ∈ hourLabels)
    /\ forall k i, marketHours !! k = Some i ->
         exists col,
           vwap_map !! hourLabel i = Some col
           /\ length col = length trades
           /\ forall n ID stock_trades, trades !! n = Some (ID, stock_trades) ->
                exists a,
                  col !! n = Some a
                  /\ spec_vwap stock_trades (take (S k) marketHours) = Ok a
                  /\ dict_get ID stock_map = stocks !! n.
Proof.
  intros Hnd Hkeys Hok Hb. unfold project.
  destruct (security_loop stock_map trades (dict_keys trades) [] empty_columns)
    as (tickers & vwap_map & Hfold & Hlen & Htickers & Hcolumns & Hothers).
  { intros ID HID.
    destruct (proj2 (dict_get_is_Some ID trades) HID) as [stock_trades Hst].
    assert (Hin : ID ∈ dict_keys stock_map) by (rewrite <- Hkeys; exact HID).
    destruct (proj2 (dict_get_is_Some ID stock_map) Hin) as [ticker Hticker].
    exists ticker, stock_trades. split; [exact Hticker|]. split; [exact Hst|].
    split; [exact (Hok _ _ Hst)|exact (Hb _ _ Hst)]. }
  { intros i Hi. rewrite (empty_columns_lookup i Hi). eauto. }
  exists tickers, vwap_map.
  assert (Hlk : length (dict_keys trades) = length trades)
    by apply length_fmap.
  split; [exact Hfold|]. split; [lia|]. split.
  - intros s. split.
    + intros Hs. destruct (decide (s ∈ hourLabels)) as [|Hn]; [done|].
      rewrite (Hothers s Hn) in Hs. unfold empty_columns in Hs.
      rewrite (empty_columns_other _ _ _ Hn) in Hs.
      destruct Hs as [? Hs]. discriminate Hs.
    + intros Hs. apply list_elem_of_fmap in Hs as (i & -> & Hi).
      apply list_elem_of_lookup in Hi as [k Hk].
      destruct (Hcolumns k i Hk) as (col & new & _ & Hc & _). eauto.
  - intros k i Hk.
    destruct (Hcolumns k i Hk) as (col & new & Hcol & Hc & Hnew & Hrows).
    rewrite (empty_columns_lookup i (marketHours_lookup_elem _ _ Hk)) in Hcol.
    injection Hcol as <-. exists new. split; [exact Hc|]. split; [lia|].
    intros n ID stock_trades Hn.
    assert (Hid : dict_keys trades !! n = Some ID).
    { unfold dict_keys. rewrite list_lookup_fmap, Hn. reflexivity. }
    destruct (Hrows n ID Hid) as (stock_trades' & a & Hget & Ha & Hv).
    rewrite (dict_get_lookup _ _ _ _ Hnd Hn) in Hget. injection Hget as <-.
    exists a. split; [exact Ha|]. split; [exact Hv|]. exact (Htickers n ID Hid).
Qed.

(** ** Claims on the running VWAP *)

(** C4: for every security of the directory [main] gives exactly 7
    numbers, one in each of the 7 columns (one column per hour label, in
    the order of the hours), at the row of the security.  The number for
    an hour is V / Q when Q is not 0, and the int 0 when it is, for V and
    Q the cumulative value and quantity of the security up to that hour;
    a security without trades gets 0 seven times.  (The capture is
    taken to be shorter than 2^900 bytes: no quantity then comes near
    2^1024, from where on [V / Q] raises [OverflowError].) *)
Theorem every_security_gets_seven_vwaps file stock_map trades :
  Z.of_nat (length file) < 2 ^ 900 ->
  parseTrades file messageMap = Some (Ok (stock_map, trades)) ->
  exists stocks vwap_map,
    main file = Some (Ok (stocks, vwap_map))
    /\ dict_keys trades = dict_keys stock_map
    /\ length stocks = length stock_map
    /\ length marketHours = 7%nat
    /\ (forall s, is_Some (vwap_map !! s) <-> s ∈ hourLabel <$> marketHours)
    /\ forall k i, marketHours !! k = Some i ->
         exists col,
           vwap_map !! hourLabel i = Some col
           /\ length col = length stock_map
           /\ forall n ID stock_trades, trades !! n = Some (ID, stock_trades) ->
                exists a V Q,
                  col !! n = Some a
                  /\ dict_get ID stock_map = stocks !! n
                  /\ spec_cumulative stock_trades (take (S k) marketHours) = Ok (V, Q)
                  /\ (Q <> 0 -> py_truediv V Q = Ok a)
                  /\ (Q = 0 -> a = PyInt 0)
                  /\ (no_trades stock_trades -> a = PyInt 0).
Proof.
  intros Hsize Hparse.
  destruct (parseTrades_ok _ _ _ _ Hparse) as (Hnd & Hkeys & Hok).
  pose proof (parseTrades_volume _ _ _ _ Hparse) as Hvol.
  assert (Hconv : forall ID stock_trades,
             dict_get ID trades = Some stock_trades ->
             quantities_convertible stock_trades).
  { intros ID stock_trades Hget.
    apply (bounded_quantities_convertible _ (Hok _ _ Hget)).
    pose proof (Hvol _ _ Hget) as Hq.
    assert (2 ^ 64 * Z.of_nat (length file) < 2 ^ 64 * 2 ^ 900) by lia.
    assert (2 ^ 64 * 2 ^ 900 < 2 ^ 1023) by (vm_compute; reflexivity).
    lia. }
  destruct (project_columns stock_map trades Hnd Hkeys Hok Hconv)
    as (stocks & vwap_map & Hproject & Hlen & Hlabels & Hcolumns).
  assert (Hrows : length trades = length stock_map).
  { rewrite <- (length_fmap fst trades), <- (length_fmap fst stock_map).
    exact (f_equal length Hkeys). }
  exists stocks, vwap_map. split; [|split; [exact Hkeys|split; [lia|split; [reflexivity|split]]]].
  - unfold main. rewrite Hparse. cbn [mbind option_bind result_bind].
    rewrite Hproject. reflexivity.
  - exact Hlabels.
  - intros k i Hk. destruct (Hcolumns k i Hk) as (col & Hcol & Hlc & Hentries).
    exists col. split; [exact Hcol|]. split; [lia|].
    intros n ID stock_trades Hn.
    destruct (Hentries n ID stock_trades Hn) as (a & Ha & Hv & Hticker).
    destruct (spec_vwap_inv _ _ _ Hv) as (V & Q & Hcum & Hdiv & Hzero).
    exists a, V, Q. split; [exact Ha|]. split; [exact Hticker|].
    split; [exact Hcum|]. split; [exact Hdiv|]. split; [exact Hzero|].
    intros Hnone. exact (no_trades_vwap _ _ _ Hnone Hv).
Qed.

Lemma every_security_gets_seven_vwaps_witness :
  exists stocks vwap_map,
    main session = Some (Ok (stocks, vwap_map)) /\ length stocks = 1%nat.
Proof.
  let r := eval vm_compute in (parseTrades session messageMap) in
  lazymatch r with
  | Some (Ok (?stock_map, ?trades)) =>
      destruct (every_security_gets_seven_vwaps session stock_map trades)
        as (stocks & vwap_map & Hmain & _ & Hlen & _)
  end.
  - vm_compute. reflexivity.
  - vm_compute. reflexivity.
  - exists stocks, vwap_map. split; [exact Hmain|exact Hlen].
Defined.

(** The table [traded_table] is well formed. *)
Lemma traded_table_ok : table_ok traded_table marketHours.
Proof.
  intros i Hi. apply elem_of_seqZ in Hi.
  assert (Hc : i = 10 \/ i = 11 \/ i = 12 \/ i = 13 \/ i = 14 \/ i = 15 \/ i = 16)
    by lia.
  clear Hi.
  destruct Hc as [->|[->|[->|[->|[->|[->| ->]]]]]];
    eexists _, _; (split; [vm_compute; reflexivity|]);
    (split; [first [left; reflexivity | right; eexists; reflexivity]|lia]).
Qed.

Lemma traded_table_convertible : quantities_convertible traded_table.
Proof.
  apply bounded_quantities_convertible; [apply traded_table_ok|].
  vm_compute. reflexivity.
Qed.

(** C5: the running totals are a fold over the hours.  The totals the
    loop carries after the pass for an hour are the totals it carried
    before that pass (after the pass for the hour before, or 0 and 0 at
    the first hour) plus the value and the quantity of the bucket of the
    hour; and when the quantity carried is positive, the number the pass
    appends to the column of the hour is the value carried over the
    quantity carried.  On a well-formed table with a total quantity
    below 2^1023, as is every table that [parseTrades] returns from a
    capture shorter than 2^900 bytes, the loop does get through every
    hour, and carries the cumulative sums of the buckets. *)
Theorem running_totals_are_a_fold stock_trades vwap_map k i :
  marketHours !! k = Some i ->
  (forall V Q columns V' Q' columns',
     after_hours stock_trades vwap_map k = Ok (V, Q, columns) ->
     after_hours stock_trades vwap_map (S k) = Ok (V', Q', columns') ->
     exists value quantity a col,
       stock_trades !! hourLabel i = Some (value, quantity)
       /\ py_add value V = Ok V'
       /\ Q' = quantity + Q
       /\ columns !! hourLabel i = Some col
       /\ columns' = <[hourLabel i := col ++ [a]]> columns
       /\ (0 < Q' -> py_truediv V' Q' = Ok a))
  /\ after_hours stock_trades vwap_map 0 = Ok (PyInt 0, 0, vwap_map)
  /\ (table_ok stock_trades marketHours ->
      total_quantity stock_trades marketHours < 2 ^ 1023 ->
      (forall j, j ∈ marketHours -> is_Some (vwap_map !! hourLabel j)) ->
      exists V Q columns V' Q' columns',
        after_hours stock_trades vwap_map k = Ok (V, Q, columns)
        /\ after_hours stock_trades vwap_map (S k) = Ok (V', Q', columns')
        /\ spec_cumulative stock_trades (take k marketHours) = Ok (V, Q)
        /\ spec_cumulative stock_trades (take (S k) marketHours) = Ok (V', Q'))
  /\ (forall file stock_map trades ID,
        Z.of_nat (length file) < 2 ^ 900 ->
        parseTrades file messageMap = Some (Ok (stock_map, trades)) ->
        dict_get ID trades = Some stock_trades ->
        table_ok stock_trades marketHours
        /\ total_quantity stock_trades marketHours < 2 ^ 1023).
Proof.
  intros Hk. split; [|split; [reflexivity|split]].
  - intros V Q columns V' Q' columns' Hbefore Hafter.
    unfold after_hours in Hafter. rewrite (take_S_r _ _ _ Hk), foldM_app in Hafter.
    fold (after_hours stock_trades vwap_map k) in Hafter. rewrite Hbefore in Hafter.
    cbn [mbind result_bind foldM] in Hafter. rewrite hourStep_eq in Hafter.
    destruct (stock_trades !! hourLabel i) as [[value quantity]|]; [|discriminate].
    cbn [getitem mbind result_bind] in Hafter.
    destruct (VWAP (value, quantity) V Q) as [[[V1 Q1] a]|] eqn:HV; [|discriminate].
    cbn [mbind result_bind] in Hafter. unfold append_vwap in Hafter.
    destruct (columns !! hourLabel i) as [col|]; [|discriminate].
    cbn [getitem mbind result_bind] in Hafter. injection Hafter as <- <- <-.
    destruct (VWAP_inv _ _ _ _ _ _ _ HV) as (Hadd & HQ & Hdiv & _).
    exists value, quantity, a, col. split; [reflexivity|]. split; [exact Hadd|].
    split; [exact HQ|]. split; [reflexivity|]. split; [reflexivity|].
    intros Hpos. apply Hdiv. lia.
  - intros Hok Hbound Hcols.
    pose proof (bounded_quantities_convertible _ Hok Hbound) as Hb.
    destruct (hour_loop_prefix stock_trades vwap_map k Hok Hb Hcols)
      as (V & Q & columns & Hbefore & Hcum).
    destruct (hour_loop_prefix stock_trades vwap_map (S k) Hok Hb Hcols)
      as (V' & Q' & columns' & Hafter & Hcum').
    exists V, Q, columns, V', Q', columns'. done.
  - intros file stock_map trades ID Hsize Hparse Hget.
    destruct (parseTrades_ok _ _ _ _ Hparse) as (_ & _ & Hok).
    split; [exact (Hok _ _ Hget)|].
    pose proof (parseTrades_volume _ _ _ _ Hparse _ _ Hget) as Hq.
    assert (2 ^ 64 * Z.of_nat (length file) < 2 ^ 64 * 2 ^ 900) by lia.
    assert (2 ^ 64 * 2 ^ 900 < 2 ^ 1023) by (vm_compute; reflexivity).
    lia.
Qed.

Lemma running_totals_are_a_fold_witness :
  exists columns columns' a col,
    after_hours traded_table empty_columns 6 = Ok (PyFloat 5000, 100, columns)
    /\ after_hours traded_table empty_columns 7
       = Ok (PyFloat 6002.5, 110, columns')
    /\ traded_table !! hourLabel 16 = Some (PyFloat 1002.5, 10)
    /\ py_add (PyFloat 1002.5) (PyFloat 5000) = Ok (PyFloat 6002.5)
    /\ 110 = 10 + 100
    /\ columns !! hourLabel 16 = Some col
    /\ columns' = <[hourLabel 16 := col ++ [a]]> columns
    /\ py_truediv (PyFloat 6002.5) 110 = Ok a
    /\ a = PyFloat (6002.5 / 110).
Proof.
  pose proof (running_totals_are_a_fold traded_table empty_columns 6 16 eq_refl)
    as (Hstep & _ & Hrun & _).
  destruct Hrun as (V & Q & columns & V' & Q' & columns' & Hb & Ha & Hc & Hc').
  - exact traded_table_ok.
  - vm_compute. reflexivity.
  - intros j Hj. exists []. exact (empty_columns_lookup j Hj).
  - vm_compute in Hc. injection Hc as <- <-.
    vm_compute in Hc'. injection Hc' as <- <-.
    destruct (Hstep _ _ _ _ _ _ Hb Ha)
      as (value & quantity & a & col & Hbucket & Hadd & HQ & Hcol & Hcols & Hdiv).
    vm_compute in Hbucket. injection Hbucket as <- <-.
    specialize (Hdiv eq_refl).
    exists columns, columns', a, col.
    split; [exact Hb|]. split; [exact Ha|]. split; [vm_compute; reflexivity|].
    split; [exact Hadd|]. split; [reflexivity|]. split; [exact Hcol|].
    split; [exact Hcols|]. split; [exact Hdiv|].
    vm_compute in Hdiv. injection Hdiv as <-. vm_compute. reflexivity.
Defined.

(** ** The session, end to end

    The tickers and the 7 columns for the session [session]: 0 from 10:00
    to 3:00, and 50.00 at 4:00, the hour of the only trade. *)
Example session_vwaps :
  (r ← main session;
   Some ('(stocks, vwap_map) ← r;
         Ok (stocks, (fun i => vwap_map !! hourLabel i) <$> marketHours)))
  = Some (Ok ([[84; 69; 83; 84]],
              [Some [PyInt 0]; Some [PyInt 0]; Some [PyInt 0]; Some [PyInt 0];
               Some [PyInt 0]; Some [PyInt 0]; Some [PyFloat 50]])).
Proof. vm_compute. reflexivity. Qed.

(** * Further properties of the source *)

(** ** The timestamp codec *)

Lemma be_uint_app a b :
  be_uint (a ++ b) = be_uint a * 256 ^ Z.of_nat (length b) + be_uint b.
Proof.
  induction b as [|x b IH] using rev_ind.
  - rewrite app_nil_r. cbn [length]. change (be_uint []) with 0. lia.
  - rewrite app_assoc, !be_uint_snoc, IH, length_app, Nat2Z.inj_add, Z.pow_add_r by lia.
    cbn [length]. change (256 ^ Z.of_nat 1) with 256. ring.
Qed.

Lemma be_uint_zeros n : be_uint (replicate n x00) = 0.
Proof.
  induction n as [|n IH]; [reflexivity|].
  change (replicate (S n) x00) with ([x00] ++ replicate n x00).
  rewrite be_uint_app, IH. change (be_uint [x00]) with 0. lia.
Qed.

Lemma decodeTimestamp_pack timestamp :
  decodeTimestamp timestamp = be_uint (pack_s 6 timestamp).
Proof.
  unfold decodeTimestamp. rewrite be_uint_app.
  change (be_uint (pack_s 2 [x00; x00])) with 0. lia.
Qed.

Lemma pack_s_length n b : length (pack_s n b) = n.
Proof. unfold pack_s. rewrite length_app, length_take, length_replicate. lia. Qed.

(** X1: [decodeTimestamp] never fails and gives an integer below 2^48
    for any bytes.  Six bytes are read as the big-endian number they
    spell; fewer bytes are null-padded on the right by [struct.pack] (the
    number they spell, times 256 for each byte that is missing), and of
    more than six bytes only the first six are read. *)
Theorem decodeTimestamp_value timestamp :
  0 <= decodeTimestamp timestamp < 2 ^ 48
  /\ decodeTimestamp timestamp
     = be_uint (take 6 timestamp) * 256 ^ Z.of_nat (6 - length timestamp)
  /\ forall b0 b1 b2 b3 b4 b5,
       decodeTimestamp [b0; b1; b2; b3; b4; b5]
       = byte_val b0 * 2 ^ 40 + byte_val b1 * 2 ^ 32 + byte_val b2 * 2 ^ 24
         + byte_val b3 * 2 ^ 16 + byte_val b4 * 2 ^ 8 + byte_val b5.
Proof.
  split; [|split].
  - rewrite decodeTimestamp_pack.
    pose proof (be_uint_range (pack_s 6 timestamp)) as H.
    rewrite pack_s_length in H. exact H.
  - rewrite decodeTimestamp_pack. unfold pack_s.
    rewrite be_uint_app, be_uint_zeros, length_replicate. lia.
  - intros b0 b1 b2 b3 b4 b5. rewrite decodeTimestamp_pack.
    unfold pack_s, be_uint. cbn [take length Nat.sub replicate app fold_left].
    change (2 ^ 40) with (256 * 256 * 256 * 256 * 256).
    change (2 ^ 32) with (256 * 256 * 256 * 256).
    change (2 ^ 24) with (256 * 256 * 256).
    change (2 ^ 16) with (256 * 256). change (2 ^ 8) with 256. ring.
Qed.

Lemma byte_val_of_Z z : byte_val (byte_of_Z z) = z mod 256.
Proof.
  unfold byte_of_Z, byte_val.
  pose proof (Z.mod_pos_bound z 256 eq_refl) as Hr.
  destruct (Byte.of_N (Z.to_N (z mod 256))) as [b|] eqn:Hb.
  - apply Byte.to_of_N in Hb. cbn [default option_rect]. unfold default.
    change (Z.of_N (to_N b) = z mod 256). rewrite Hb. lia.
  - apply Byte.of_N_None_iff in Hb. lia.
Qed.

Lemma byte_of_Z_val b : byte_of_Z (byte_val b) = b.
Proof.
  unfold byte_of_Z. pose proof (byte_val_range b) as Hr.
  rewrite Z.mod_small by exact Hr. unfold byte_val.
  rewrite N2Z.id, Byte.of_to_N. reflexivity.
Qed.

Lemma be_bytes_length n : forall z, length (be_bytes n z) = n.
Proof.
  induction n as [|n IH]; intros z; [reflexivity|].
  cbn [be_bytes]. rewrite length_app, IH. cbn [length]. lia.
Qed.

Lemma be_uint_be_bytes n : forall z, be_uint (be_bytes n z) = z mod 256 ^ Z.of_nat n.
Proof.
  induction n as [|n IH]; intros z.
  - cbn [be_bytes]. change (256 ^ Z.of_nat 0) with 1. rewrite Z.mod_1_r. reflexivity.
  - cbn [be_bytes]. rewrite be_uint_snoc, IH, byte_val_of_Z.
    rewrite Nat2Z.inj_succ, Z.pow_succ_r by lia.
    rewrite (Z.rem_mul_r z 256 (256 ^ Z.of_nat n)) by lia. lia.
Qed.

Lemma be_bytes_be_uint bs : be_bytes (length bs) (be_uint bs) = bs.
Proof.
  induction bs as [|b bs IH] using rev_ind; [reflexivity|].
  rewrite length_app, be_uint_snoc. cbn [length].
  rewrite Nat.add_1_r. cbn [be_bytes].
  pose proof (byte_val_range b) as Hb.
  assert ((be_uint bs * 256 + byte_val b) / 256 = be_uint bs) as ->.
  { rewrite Z.div_add_l by lia. rewrite Z.div_small by lia. lia. }
  rewrite IH. f_equal. f_equal.
  unfold byte_of_Z.
  assert ((be_uint bs * 256 + byte_val b) mod 256 = byte_val b) as ->.
  { rewrite Z.add_comm, Z.mod_add by lia. apply Z.mod_small, Hb. }
  unfold byte_val. rewrite N2Z.id, Byte.of_to_N. reflexivity.
Qed.

(** X2: [decodeTimestamp] is the inverse of the 6-byte big-endian
    encoding, both ways: a number below 2^48 written on 6 bytes is read
    back as itself, and the number read from 6 bytes, written on 6 bytes,
    gives those bytes again.  Two different 6-byte timestamps are
    therefore never read as the same number. *)
Theorem decodeTimestamp_round_trip :
  (forall n, 0 <= n < 2 ^ 48 -> decodeTimestamp (be_bytes 6 n) = n)
  /\ (forall timestamp, length timestamp = 6%nat ->
        be_bytes 6 (decodeTimestamp timestamp) = timestamp)
  /\ (forall a b, length a = 6%nat -> length b = 6%nat ->
        decodeTimestamp a = decodeTimestamp b -> a = b).
Proof.
  assert (Hback : forall timestamp, length timestamp = 6%nat ->
            be_bytes 6 (decodeTimestamp timestamp) = timestamp).
  { intros timestamp Hl. rewrite (decodeTimestamp_be_uint _ Hl), <- Hl.
    apply be_bytes_be_uint. }
  split; [|split; [exact Hback|]].
  - intros n Hn.
    rewrite decodeTimestamp_be_uint by apply be_bytes_length.
    rewrite be_uint_be_bytes. apply Z.mod_small.
    change (256 ^ Z.of_nat 6) with (2 ^ 48). exact Hn.
  - intros a b Ha Hb Heq.
    rewrite <- (Hback a Ha), <- (Hback b Hb), Heq. reflexivity.
Qed.

(** ** One pass of the decode loop *)

Lemma decode_char_error b e : decode_char b = Raise e -> e = UnicodeDecodeError.
Proof. unfold decode_char. repeat case_match; congruence. Qed.

Lemma getitem_error {A} (o : option A) e : getitem o = Raise e -> e = KeyError.
Proof. destruct o; cbn; congruence. Qed.

Lemma utf8_decode_error_upto n : forall bs e,
  (length bs <= n)%nat -> utf8_decode bs = Raise e -> e = UnicodeDecodeError.
Proof.
  induction n as [|n IH]; intros bs e Hl.
  - destruct bs; [discriminate|cbn in Hl; lia].
  - destruct bs as [|b0 bs1]; [discriminate|]. cbn [length] in Hl.
    cbn [utf8_decode]. unfold fmap, result_fmap.
    repeat case_match; try congruence; subst; cbn [length] in Hl;
      intros [= <-];
      match goal with
      | H : utf8_decode ?l = Raise _ |- _ => apply (IH l); [lia|exact H]
      end.
Qed.

Lemma utf8_decode_error bs e : utf8_decode bs = Raise e -> e = UnicodeDecodeError.
Proof. apply (utf8_decode_error_upto (length bs)). lia. Qed.

Lemma read_bytes_length file n : length (read_bytes file n) = Nat.min n (length file).
Proof. unfold read_bytes. apply length_take. Qed.

Lemma struct_unpack_size fmt msg :
  length msg <> calcsize (parse_format fmt) ->
  struct_unpack fmt msg = Raise StructError.
Proof.
  intros H. unfold struct_unpack.
  destruct (Nat.eqb_spec (length msg) (calcsize (parse_format fmt)));
    [contradiction|reflexivity].
Qed.

(** The exception a pass ends with, from what its steps can raise. *)
Ltac raised :=
  unfold mbind, result_bind, fmap, result_fmap;
  repeat case_match; try discriminate; intros [= <-];
  repeat match goal with
    | H : decode_char _ = Raise _ |- _ => apply decode_char_error in H
    | H : utf8_decode _ = Raise _ |- _ => apply utf8_decode_error in H
    | H : getitem _ = Raise _ |- _ => apply getitem_error in H
    | H : price_of (be_uint (slice _ 4 _)) = Raise _ |- _ =>
        rewrite price_of_slice in H; discriminate H
    end;
  simplify_eq.

(** X3: a pass over a message that is whole (the stream holds at least
    the bytes the layout table gives to its tag) raises nothing but
    [KeyError], and this only on an "E" message met while the market is
    open, and [UnicodeDecodeError], and this only on an "S" or "R"
    message or on a "C" message met while the market is open.  It never
    raises [struct.error], [OverflowError] or [ZeroDivisionError]. *)
Theorem whole_message_errors c m_type steps file st e :
  decode_char [c] = Ok m_type -> messageMap !! m_type = Some steps ->
  (steps <= length file)%nat ->
  iteration messageMap (c :: file) st = Raise e ->
  e = KeyError /\ m_type = "E"%string /\ started st = true
  \/ e = UnicodeDecodeError
     /\ (m_type = "S"%string \/ m_type = "R"%string
         \/ m_type = "C"%string /\ started st = true).
Proof.
  intros Hc Hm Hlen. rewrite iteration_cons, Hc. cbn [mbind result_bind].
  rewrite Hm.
  assert (Hl : length (read_bytes file steps) = steps)
    by (rewrite read_bytes_length; lia).
  revert Hl. generalize (read_bytes file steps) as msg. intros msg Hl.
  destruct (dispatch m_type msg st) as [ctl|e'] eqn:Hd;
    [destruct ctl; discriminate|].
  cbn [mbind result_bind]. intros [= <-]. revert Hd.
  case_tag m_type "S".
  { vm_compute in Hm. injection Hm as <-.
    rewrite dispatch_S, struct_unpack_ok by exact Hl. cbn [mbind result_bind].
    raised; subst; right; split; auto. }
  case_tag m_type "R".
  { vm_compute in Hm. injection Hm as <-.
    rewrite dispatch_R, struct_unpack_ok by exact Hl. cbn [mbind result_bind].
    raised; subst; right; split; auto. }
  case_tag m_type "A".
  { vm_compute in Hm. injection Hm as <-.
    rewrite dispatch_A, struct_unpack_ok by exact Hl. cbn [mbind result_bind].
    fields. rewrite price_of_slice. discriminate. }
  case_tag m_type "F".
  { vm_compute in Hm. injection Hm as <-.
    rewrite dispatch_F, struct_unpack_ok by exact Hl. cbn [mbind result_bind].
    fields. rewrite price_of_slice. discriminate. }
  case_tag m_type "E".
  { vm_compute in Hm. injection Hm as <-. rewrite dispatch_E.
    destruct (started st) eqn:Hs; [|discriminate].
    rewrite struct_unpack_ok by exact Hl. cbn [mbind result_bind].
    raised; subst; left; auto. }
  case_tag m_type "C".
  { vm_compute in Hm. injection Hm as <-. rewrite dispatch_C.
    destruct (started st) eqn:Hs; [|discriminate].
    rewrite struct_unpack_ok by exact Hl. cbn [mbind result_bind].
    fields. rewrite price_of_slice.
    raised; subst; right; split; auto. }
  case_tag m_type "U".
  { vm_compute in Hm. injection Hm as <-.
    rewrite dispatch_U, struct_unpack_ok by exact Hl. cbn [mbind result_bind].
    fields. rewrite price_of_slice. discriminate. }
  case_tag m_type "P".
  { vm_compute in Hm. injection Hm as <-. rewrite dispatch_P.
    destruct (started st) eqn:Hs; [|discriminate].
    rewrite struct_unpack_ok by exact Hl. cbn [mbind result_bind].
    fields. rewrite price_of_slice. discriminate. }
  rewrite dispatch_other by assumption. discriminate.
Qed.

Lemma whole_message_errors_witness :
  iteration messageMap (msgE 7 34200000000001 99 10)
    (open_market 34200000000000 initial) = Raise KeyError
  /\ (KeyError = KeyError /\ "E"%string = "E"%string
      /\ started (open_market 34200000000000 initial) = true
      \/ KeyError = UnicodeDecodeError
         /\ ("E"%string = "S"%string \/ "E"%string = "R"%string
             \/ "E"%string = "C"%string
                /\ started (open_market 34200000000000 initial) = true)).
Proof.
  split; [vm_compute; reflexivity|].
  apply (whole_message_errors "E"%byte "E" 30
           (drop 1 (msgE 7 34200000000001 99 10))
           (open_market 34200000000000 initial) KeyError);
    [reflexivity|reflexivity|vm_compute; lia|vm_compute; reflexivity].
Defined.

(** X4: a stream that ends inside a message.  When the message is one
    the loop unpacks ("S", "R", "A", "F", "U" always, "E", "C", "P" while
    the market is open), the pass raises [struct.error].  When it is one
    the loop only passes over, the pass reads what is left, raises
    nothing, and the loop ends there as at a clean end of the stream. *)
Theorem truncated_message c m_type steps file st :
  decode_char [c] = Ok m_type -> messageMap !! m_type = Some steps ->
  (length file < steps)%nat ->
  let unpacked :=
    m_type ∈ ["S"; "R"; "A"; "F"; "U"]%string
    \/ m_type ∈ ["E"; "C"; "P"]%string /\ started st = true in
  (unpacked -> iteration messageMap (c :: file) st = Raise StructError)
  /\ (~ unpacked ->
      iteration messageMap (c :: file) st = Ok (Continue [] st)
      /\ forall fuel,
           decodeLoop messageMap (S (S fuel)) (c :: file) st = Some (Ok st)).
Proof.
  intros Hc Hm Hlen unpacked.
  assert (Hit : iteration messageMap (c :: file) st
                = (ctl ← dispatch m_type file st;
                   match ctl with
                   | Next st' => Ok (Continue [] st')
                   | Break st' => Ok (Finished st')
                   end)).
  { rewrite iteration_cons, Hc. cbn [mbind result_bind]. rewrite Hm.
    unfold read_bytes. rewrite take_ge, drop_ge by lia. reflexivity. }
  rewrite Hit. clear Hit. split.
  - assert (Hsize : forall fmt, calcsize (parse_format fmt) = steps ->
                       struct_unpack fmt file = Raise StructError).
    { intros fmt Hf. apply struct_unpack_size. lia. }
    intros [Hin|[Hin Hs]].
    + case_tag m_type "S"; [rewrite dispatch_S, Hsize; [reflexivity|]; vm_compute in Hm; by injection Hm as <-|].
      case_tag m_type "R"; [rewrite dispatch_R, Hsize; [reflexivity|]; vm_compute in Hm; by injection Hm as <-|].
      case_tag m_type "A"; [rewrite dispatch_A, Hsize; [reflexivity|]; vm_compute in Hm; by injection Hm as <-|].
      case_tag m_type "F"; [rewrite dispatch_F, Hsize; [reflexivity|]; vm_compute in Hm; by injection Hm as <-|].
      case_tag m_type "U"; [rewrite dispatch_U, Hsize; [reflexivity|]; vm_compute in Hm; by injection Hm as <-|].
      exfalso. not_in_list Hin.
    + case_tag m_type "E"; [rewrite dispatch_E, Hs, Hsize; [reflexivity|]; vm_compute in Hm; by injection Hm as <-|].
      case_tag m_type "C"; [rewrite dispatch_C, Hs, Hsize; [reflexivity|]; vm_compute in Hm; by injection Hm as <-|].
      case_tag m_type "P"; [rewrite dispatch_P, Hs, Hsize; [reflexivity|]; vm_compute in Hm; by injection Hm as <-|].
      exfalso. not_in_list Hin.
  - intros Hnot.
    assert (Hd : dispatch m_type file st = Ok (Next st)).
    { case_tag m_type "S"; [exfalso; apply Hnot; left; in_list|].
      case_tag m_type "R"; [exfalso; apply Hnot; left; in_list|].
      case_tag m_type "A"; [exfalso; apply Hnot; left; in_list|].
      case_tag m_type "F"; [exfalso; apply Hnot; left; in_list|].
      case_tag m_type "U"; [exfalso; apply Hnot; left; in_list|].
      assert (Hs : m_type ∈ ["E"; "C"; "P"]%string -> started st = false).
      { intros Hin. destruct (started st) eqn:Hs; [|reflexivity].
        exfalso. apply Hnot. right. split; [exact Hin|reflexivity]. }
      case_tag m_type "E"; [rewrite dispatch_E, Hs by in_list; reflexivity|].
      case_tag m_type "C"; [rewrite dispatch_C, Hs by in_list; reflexivity|].
      case_tag m_type "P"; [rewrite dispatch_P, Hs by in_list; reflexivity|].
      apply dispatch_other; assumption. }
    rewrite Hd. split; [reflexivity|].
    intros fuel. rewrite decodeLoop_S, iteration_cons, Hc.
    cbn [mbind result_bind]. rewrite Hm.
    unfold read_bytes. rewrite take_ge, drop_ge by lia. rewrite Hd.
    reflexivity.
Qed.

Lemma truncated_message_witness :
  iteration messageMap (take 20 (msgA 7 34200000000005 99 500000)) initial
  = Raise StructError.
Proof.
  refine (proj1 (truncated_message "A"%byte "A" 35
                   (drop 1 (take 20 (msgA 7 34200000000005 99 500000)))
                   initial _ _ _) _).
  - reflexivity.
  - reflexivity.
  - vm_compute. lia.
  - left. in_list.
Defined.

(** X5: before the market has opened, the messages that report an
    execution ("E", "C", "P") are read and left aside: the pass takes the
    message off the stream and changes nothing, whatever the message holds
    (a reference that was never registered, a flag that is no text, fewer
    bytes than the table says). *)
Theorem executions_before_open_are_ignored file st :
  started st = false ->
  iteration messageMap ("E"%byte :: file) st = Ok (Continue (drop 30 file) st)
  /\ iteration messageMap ("C"%byte :: file) st = Ok (Continue (drop 35 file) st)
  /\ iteration messageMap ("P"%byte :: file) st = Ok (Continue (drop 43 file) st).
Proof.
  intros Hs. rewrite !iteration_cons.
  change (decode_char ["E"%byte]) with (Ok "E"%string).
  change (decode_char ["C"%byte]) with (Ok "C"%string).
  change (decode_char ["P"%byte]) with (Ok "P"%string).
  cbn [mbind result_bind].
  change (messageMap !! "E"%string) with (Some 30%nat).
  change (messageMap !! "C"%string) with (Some 35%nat).
  change (messageMap !! "P"%string) with (Some 43%nat).
  cbv iota beta. rewrite dispatch_E, dispatch_C, dispatch_P, Hs. done.
Qed.

Lemma executions_before_open_are_ignored_witness :
  iteration messageMap (msgE 7 34200000000001 99 10) initial
  = Ok (Continue [] initial).
Proof.
  exact (proj1 (executions_before_open_are_ignored
                  (drop 1 (msgE 7 34200000000001 99 10)) initial eq_refl)).
Defined.

(** ** System events, trades and executions with price *)

Lemma tag_eqb b c :
  String.eqb (String (ascii_of_byte b) EmptyString)
             (String (ascii_of_byte c) EmptyString)
  = Byte.eqb b c.
Proof.
  destruct (String.eqb_spec (String (ascii_of_byte b) EmptyString)
                            (String (ascii_of_byte c) EmptyString)) as [Heq|Hne].
  - injection Heq as Heq. apply (f_equal byte_of_ascii) in Heq.
    rewrite !byte_of_ascii_of_byte in Heq. subst c.
    symmetry. apply Byte.byte_dec_lb. reflexivity.
  - destruct (Byte.eqb b c) eqn:Heq; [|reflexivity].
    apply Byte.byte_dec_bl in Heq. subst c. contradiction Hne. reflexivity.
Qed.

Lemma decode_char_byte b :
  decode_char [b]
  = if bool_decide (128 <= byte_val b) then Raise UnicodeDecodeError
    else Ok (String (ascii_of_byte b) EmptyString).
Proof.
  unfold decode_char. destruct (Z.ltb_spec (byte_val b) 128);
    [rewrite bool_decide_false by lia|rewrite bool_decide_true by lia];
    reflexivity.
Qed.

Lemma decodeTimestamp_slice off msg :
  (off + 6 <= length msg)%nat ->
  decodeTimestamp (slice off 6 msg) = be_uint (slice off 6 msg).
Proof. intros H. apply decodeTimestamp_be_uint, slice_length_exact, H. Qed.

(** X6: a System Event message, by its event code [b], the last byte of
    the message, and its timestamp [t].  The code "Q" opens the market:
    the pass sets [openTime] to [t] and [started] to true, and leaves the
    closing time, the directory, the order reference table and the
    filled orders as they are.  The code "M" closes it: the pass sets
    [endTime] to [t], leaves the rest as it is, and ends the loop.  Any
    other code that is ASCII ("O", "S", "E", "C", ...) leaves the state
    as it is, and a code from 0x80 on ends the run in
    [UnicodeDecodeError]. *)
Theorem system_event_by_code msg rest st b :
  length msg = 11%nat -> slice 10 1 msg = [b] ->
  let t := be_uint (slice 4 6 msg) in
  iteration messageMap ("S"%byte :: msg ++ rest) st
  = if bool_decide (128 <= byte_val b) then Raise UnicodeDecodeError
    else if Byte.eqb b "Q"
    then Ok (Continue rest
               {| openTime := t; endTime := endTime st;
                  stock_map := stock_map st; added_orders := added_orders st;
                  filled_orders := filled_orders st; started := true |})
    else if Byte.eqb b "M"
    then Ok (Finished
               {| openTime := openTime st; endTime := t;
                  stock_map := stock_map st; added_orders := added_orders st;
                  filled_orders := filled_orders st; started := started st |})
    else Ok (Continue rest st).
Proof.
  intros Hl Hb t.
  rewrite (iteration_message messageMap "S"%byte "S" 11 msg rest st eq_refl eq_refl Hl).
  rewrite dispatch_S, struct_unpack_ok by exact Hl.
  cbn [mbind result_bind]. fields. rewrite Hb, decodeTimestamp_slice by lia.
  rewrite decode_char_byte. case_bool_decide; [reflexivity|].
  cbn [mbind result_bind].
  change "Q"%string with (String (ascii_of_byte "Q"%byte) EmptyString).
  change "M"%string with (String (ascii_of_byte "M"%byte) EmptyString).
  rewrite (tag_eqb b "Q"), (tag_eqb b "M").
  destruct (Byte.eqb b "Q"); [reflexivity|]. destruct (Byte.eqb b "M"); reflexivity.
Qed.

Lemma system_event_by_code_witness :
  iteration messageMap (msgS 34200000000000 "Q") initial
  = Ok (Continue []
          {| openTime := 34200000000000; endTime := 0; stock_map := [];
             added_orders := ∅; filled_orders := []; started := true |}).
Proof.
  exact (system_event_by_code (drop 1 (msgS 34200000000000 "Q")) [] initial
           "Q"%byte eq_refl eq_refl).
Defined.

(** X7: a Trade message ("P", a match of a non-displayed order) met
    while the market is open is collected as a filled order with the stock
    locate, the price (4 bytes at offset 31, over 10,000), the number of
    shares (4 bytes at offset 19) and the timestamp of the message.  The
    order reference table is not looked at: the pass cannot fail. *)
Theorem trade_message_is_collected msg rest st :
  started st = true -> length msg = 43%nat ->
  iteration messageMap ("P"%byte :: msg ++ rest) st
  = Ok (Continue rest
          (append_filled
             (be_uint (slice 0 2 msg),
              (exact_float (be_uint (slice 31 4 msg)) / exact_float (10 ^ 4))%float,
              be_uint (slice 19 4 msg),
              be_uint (slice 4 6 msg)) st)).
Proof.
  intros Hs Hl.
  rewrite (iteration_message messageMap "P"%byte "P" 43 msg rest st eq_refl eq_refl Hl).
  rewrite dispatch_P, Hs, struct_unpack_ok by exact Hl.
  cbn [mbind result_bind]. fields.
  rewrite price_of_slice, decodeTimestamp_slice by lia. reflexivity.
Qed.

Lemma trade_message_is_collected_witness :
  iteration messageMap
    (header "P" 7 34200000000009 ++ be_bytes 8 0 ++ list_byte_of_string "B"
       ++ be_bytes 4 100 ++ be_bytes 8 0 ++ be_bytes 4 500000 ++ be_bytes 8 1)
    (open_market 34200000000000 initial)
  = Ok (Continue []
          (append_filled (7, 50%float, 100, 34200000000009)
             (open_market 34200000000000 initial))).
Proof.
  exact (trade_message_is_collected
           (drop 1 (header "P" 7 34200000000009 ++ be_bytes 8 0
                      ++ list_byte_of_string "B" ++ be_bytes 4 100
                      ++ be_bytes 8 0 ++ be_bytes 4 500000 ++ be_bytes 8 1))
           [] (open_market 34200000000000 initial) eq_refl eq_refl).
Defined.

(** X8: a printable Order Executed With Price message ("C", flag "Y") met
    while the market is open is priced by its own price field (4 bytes at
    offset 31, over 10,000), whatever the order reference table holds for
    its reference number, registered or not: unlike an "E" message it
    never raises [KeyError]. *)
Theorem execute_with_price_ignores_table msg rest st :
  started st = true -> length msg = 35%nat -> slice 30 1 msg = ["Y"%byte] ->
  iteration messageMap ("C"%byte :: msg ++ rest) st
  = Ok (Continue rest
          (append_filled
             (be_uint (slice 0 2 msg),
              (exact_float (be_uint (slice 31 4 msg)) / exact_float (10 ^ 4))%float,
              be_uint (slice 18 4 msg),
              be_uint (slice 4 6 msg)) st)).
Proof.
  intros Hs Hl Hy.
  rewrite (iteration_message messageMap "C"%byte "C" 35 msg rest st eq_refl eq_refl Hl).
  rewrite dispatch_C, Hs, struct_unpack_ok by exact Hl.
  cbn [mbind result_bind]. fields. rewrite Hy. cbn [decode_char].
  change (byte_val "Y" <? 128) with true. cbn [mbind result_bind].
  change (String.eqb _ "Y") with true. cbv iota.
  rewrite price_of_slice, decodeTimestamp_slice by lia. reflexivity.
Qed.

Lemma execute_with_price_ignores_table_witness :
  iteration messageMap (msgC 7 34200000000009 99 10 "Y" 1002500)
    (set_order 99 50 (open_market 34200000000000 initial))
  = Ok (Continue []
          (append_filled (7, 100.25%float, 10, 34200000000009)
             (set_order 99 50 (open_market 34200000000000 initial)))).
Proof.
  exact (execute_with_price_ignores_table
           (drop 1 (msgC 7 34200000000009 99 10 "Y" 1002500)) []
           (set_order 99 50 (open_market 34200000000000 initial))
           eq_refl eq_refl eq_refl).
Defined.

(** ** The length prefix of a capture file *)

Lemma messageMap_lengths s n : messageMap !! s = Some n -> (11 <= n <= 49)%nat.
Proof.
  unfold messageMap. intros H. apply elem_of_list_to_map_2 in H.
  repeat (apply elem_of_cons in H as [H|H]; [injection H as -> ->; lia|]).
  by apply elem_of_nil in H.
Qed.

(** No byte below "A" is a tag of the table. *)
Lemma low_byte_is_no_tag b :
  byte_val b < 65 -> messageMap !! String (ascii_of_byte b) EmptyString = None.
Proof.
  destruct b; intros H;
    first [vm_compute in H; discriminate H | vm_compute; reflexivity].
Qed.

Lemma iteration_skip m_map c rest st :
  byte_val c < 128 -> m_map !! String (ascii_of_byte c) EmptyString = None ->
  iteration m_map (c :: rest) st = Ok (Continue rest st).
Proof.
  intros Hc Hm. rewrite iteration_cons, decode_char_byte.
  rewrite bool_decide_false by lia. cbn [mbind result_bind]. rewrite Hm.
  reflexivity.
Qed.

(** X9: a capture file holds every message behind a two-byte length.
    The loop has no code for it; it reads each of the two bytes as a tag,
    finds neither in the table (no message is longer than 50 bytes, and
    the tags begin at "A", 65) and so comes to the tag that follows them
    in the very state it was in: a message behind its length prefix is
    decoded as the message alone. *)
Theorem length_prefix_is_skipped c m_type msg rest st fuel :
  decode_char [c] = Ok m_type -> messageMap !! m_type = Some (length msg) ->
  decodeLoop messageMap (S (S fuel)) (framed c msg ++ rest) st
  = decodeLoop messageMap fuel (c :: msg ++ rest) st.
Proof.
  intros Hc Hm. apply messageMap_lengths in Hm. unfold framed.
  cbn [be_bytes app].
  assert (Hhi : byte_val (byte_of_Z (Z.of_nat (S (length msg)) / 256)) = 0).
  { rewrite byte_val_of_Z, Z.div_small by lia. reflexivity. }
  assert (Hlo : byte_val (byte_of_Z (Z.of_nat (S (length msg))))
                = Z.of_nat (S (length msg))).
  { rewrite byte_val_of_Z. apply Z.mod_small. lia. }
  rewrite decodeLoop_S, iteration_skip by (try apply low_byte_is_no_tag; lia).
  rewrite decodeLoop_S, iteration_skip by (try apply low_byte_is_no_tag; lia).
  reflexivity.
Qed.

Lemma length_prefix_is_skipped_witness :
  decodeLoop messageMap 3
    (framed "S" (drop 1 (msgS 34200000000000 "Q")) ++ []) initial
  = decodeLoop messageMap 1 (msgS 34200000000000 "Q" ++ []) initial.
Proof.
  exact (length_prefix_is_skipped "S"%byte "S"
           (drop 1 (msgS 34200000000000 "Q")) [] initial 1 eq_refl eq_refl).
Defined.

(** ** What a run keeps true *)

(** The ways a pass can change the state: an exhaustive list. *)
Lemma dispatch_cases m_type msg st c :
  dispatch m_type msg st = Ok c ->
  c = Next st
  \/ (exists t, c = Next (open_market t st) /\ opens (m_type, msg))
  \/ (exists t, c = Break (close_market t st))
  \/ (exists stockID ticker, c = Next (set_ticker stockID ticker st))
  \/ (exists reference price, c = Next (set_order reference price st))
  \/ (exists stockID price quantity timestamp,
        c = Next (append_filled
                    (stockID, price, quantity, decodeTimestamp timestamp) st)
        /\ started st = true).
Proof.
  case_tag m_type "S".
  { rewrite dispatch_S. unfold struct_unpack.
    destruct (_ =? _)%nat; [|discriminate]. cbn [mbind result_bind]. fields.
    destruct (decode_char (slice 10 1 msg)) as [code|] eqn:Hcode; [|discriminate].
    cbn [mbind result_bind].
    destruct (String.eqb_spec code "Q") as [->|_].
    - intros [= <-]. right; left. eexists. split; [reflexivity|].
      split; [reflexivity|]. cbn [snd].
      apply decode_char_inv in Hcode as (b & -> & _ & Heq).
      injection Heq as Heq. apply (f_equal byte_of_ascii) in Heq.
      rewrite byte_of_ascii_of_byte in Heq. rewrite <- Heq. reflexivity.
    - destruct (String.eqb code "M"); intros [= <-]; [|left; reflexivity].
      right; right; left. eauto. }
  case_tag m_type "R".
  { rewrite dispatch_R. case_binds. intros [= <-]. do 3 right. left. eauto. }
  case_tag m_type "A".
  { rewrite dispatch_A. case_binds. intros [= <-]. do 4 right. left. eauto. }
  case_tag m_type "F".
  { rewrite dispatch_F. case_binds. intros [= <-]. do 4 right. left. eauto. }
  case_tag m_type "E".
  { rewrite dispatch_E. destruct (started st) eqn:Hs; [|intros [= <-]; by left].
    case_binds. intros [= <-]. do 5 right. eauto 10. }
  case_tag m_type "C".
  { rewrite dispatch_C. destruct (started st) eqn:Hs; [|intros [= <-]; by left].
    case_binds; intros [= <-]; [do 5 right; eauto 10|by left]. }
  case_tag m_type "U".
  { rewrite dispatch_U. case_binds. intros [= <-]. do 4 right. left. eauto. }
  case_tag m_type "P".
  { rewrite dispatch_P. destruct (started st) eqn:Hs; [|intros [= <-]; by left].
    case_binds. intros [= <-]. do 5 right. eauto 10. }
  rewrite dispatch_other by assumption. intros [= <-]. by left.
Qed.

(** A pass that carries on, as a pass of [dispatch] over the message of
    its frame, if it has one. *)
Lemma iteration_continue_cases m_map file st file' st' :
  iteration m_map file st = Ok (Continue file' st') ->
  frame m_map file = [] /\ st' = st
  \/ exists m_type msg,
       frame m_map file = [(m_type, msg)]
       /\ dispatch m_type msg st = Ok (Next st').
Proof.
  destruct file as [|c file]; [discriminate|].
  rewrite iteration_cons. unfold frame. rewrite read_bytes_cons.
  destruct (decode_char [c]) as [m_type|]; [|discriminate].
  cbn [mbind result_bind]. change (drop 1 (c :: file)) with file.
  destruct (m_map !! m_type) as [steps|].
  - destruct (dispatch m_type (read_bytes file steps) st) as [[st1|st1]|] eqn:Hd;
      [|discriminate..].
    intros [= <- <-]. right. eauto.
  - intros [= <- <-]. left. done.
Qed.

Lemma dispatch_opens msg st st' :
  opens ("S"%string, msg) -> dispatch "S" msg st = Ok (Next st') ->
  started st' = true.
Proof.
  intros [_ Hq]. cbn [snd] in Hq. rewrite dispatch_S. unfold struct_unpack.
  destruct (_ =? _)%nat; [|discriminate]. cbn [mbind result_bind]. fields.
  rewrite Hq. cbn. intros [= <-]. reflexivity.
Qed.

Lemma iteration_started m_map file st file' st' :
  iteration m_map file st = Ok (Continue file' st') ->
  (started st' = true <-> started st = true \/ Exists opens (frame m_map file))
  /\ (started st' = false ->
      filled_orders st' = filled_orders st /\ openTime st' = openTime st).
Proof.
  intros Hit.
  destruct (iteration_continue_cases _ _ _ _ _ Hit)
    as [[-> ->]|(m_type & msg & -> & Hd)].
  { split; [|done]. split; [by left|]. intros [H|H]; [exact H|].
    by apply Exists_nil in H. }
  pose proof (dispatch_cases _ _ _ _ Hd)
    as [H|[(t & H & Ho)|[(t & H)|[(k & tk & H)|[(r & p & H)|(k & p & q & ts & H & Hs)]]]]];
    try discriminate H; injection H as ->.
  - split; [|done]. split; [by left|]. intros [H|H]; [exact H|].
    apply Exists_cons in H as [H|H]; [|by apply Exists_nil in H].
    destruct H as [Hm Hq]. cbn [fst] in Hm. subst m_type.
    eapply dispatch_opens; [|exact Hd]. split; [reflexivity|exact Hq].
  - split; [|discriminate]. split; [|reflexivity].
    intros _. right. apply Exists_cons. left. exact Ho.
  - split; [|done]. split; [by left|]. intros [H|H]; [exact H|].
    apply Exists_cons in H as [H|H]; [|by apply Exists_nil in H].
    destruct H as [Hm Hq]. cbn [fst] in Hm. subst m_type.
    eapply dispatch_opens; [|exact Hd]. split; [reflexivity|exact Hq].
  - split; [|done]. split; [by left|]. intros [H|H]; [exact H|].
    apply Exists_cons in H as [H|H]; [|by apply Exists_nil in H].
    destruct H as [Hm Hq]. cbn [fst] in Hm. subst m_type.
    eapply dispatch_opens; [|exact Hd]. split; [reflexivity|exact Hq].
  - split; [|cbn; congruence]. split; [intros _; left; exact Hs|intros _; exact Hs].
Qed.

Lemma reaches_started m_map file st log file' st' :
  reaches m_map file st log file' st' ->
  (started st' = true <-> started st = true \/ Exists opens log)
  /\ (started st' = false ->
      filled_orders st' = filled_orders st /\ openTime st' = openTime st).
Proof.
  induction 1 as [|file st file1 st1 log file2 st2 Hit _ IH].
  { split; [|done]. split; [by left|]. intros [H|H]; [exact H|].
    by apply Exists_nil in H. }
  destruct (iteration_started _ _ _ _ _ Hit) as [Hs1 Hk1].
  destruct IH as [Hs2 Hk2]. split.
  - rewrite Hs2, Hs1, Exists_app. tauto.
  - intros Hs. destruct (Hk2 Hs) as [-> ->]. apply Hk1.
    destruct (started st1) eqn:H1; [|reflexivity].
    assert (started st2 = true) by (apply Hs2; by left). congruence.
Qed.

(** X10: the market-open message gates the collection of trades.  At
    any point of a run the market counts as open exactly when it did at
    the start or a System Event message with the code "Q" has been
    dispatched since; and as long as it does not, no filled order has
    been added and the opening time is untouched.  From the initial
    state: without such a message no trade is ever collected. *)
Theorem market_open_gates_collection file st log file' st' :
  reaches messageMap file st log file' st' ->
  (started st' = true <-> started st = true \/ Exists opens log)
  /\ (started st' = false ->
      filled_orders st' = filled_orders st /\ openTime st' = openTime st).
Proof. apply reaches_started. Qed.

Lemma market_open_gates_collection_witness :
  started (open_market 34200000000000 initial) = true
  <-> started initial = true
      \/ Exists opens (frame messageMap (msgS 34200000000000 "Q") ++ []).
Proof.
  exact (proj1 (market_open_gates_collection
                  (msgS 34200000000000 "Q") initial
                  (frame messageMap (msgS 34200000000000 "Q") ++ []) []
                  (open_market 34200000000000 initial)
                  (reaches_step messageMap (msgS 34200000000000 "Q") initial
                     [] (open_market 34200000000000 initial) [] []
                     (open_market 34200000000000 initial) eq_refl
                     (reaches_refl messageMap []
                        (open_market 34200000000000 initial))))).
Defined.

(** X11: the order reference table holds, for a reference number, the
    price of the last Add or Replace message that registered it: a later
    registration of the same number overwrites the earlier one, and a
    plain Order Executed message is priced by the latest. *)
Theorem latest_registration_wins file st0 log1 message log2 msg rest st
  reference price :
  reaches messageMap file st0 (log1 ++ message :: log2)
    ("E"%byte :: msg ++ rest) st ->
  registration message = Some (reference, price) ->
  Forall (fun later => ~ registers reference later) log2 ->
  started st = true -> length msg = 30%nat ->
  be_uint (slice 10 8 msg) = reference ->
  added_orders st !! reference = Some price
  /\ iteration messageMap ("E"%byte :: msg ++ rest) st
     = Ok (Continue rest
             (append_filled
                (be_uint (slice 0 2 msg), price, be_uint (slice 18 4 msg),
                 decodeTimestamp (slice 4 6 msg)) st)).
Proof.
  intros Hrun Hreg Hlater Hs Hl Href.
  assert (Hp : added_orders st !! reference = Some price).
  { rewrite (reaches_table _ _ _ _ _ _ Hrun), table_after_app.
    change (message :: log2) with ([message] ++ log2).
    rewrite table_after_app, (table_after_unregistered _ _ _ Hlater).
    unfold table_after. cbn [foldl]. rewrite Hreg. apply lookup_insert_eq. }
  split; [exact Hp|].
  rewrite (iteration_execute _ _ _ Hs Hl), Href, Hp. reflexivity.
Qed.

Lemma latest_registration_wins_witness :
  added_orders
    (set_order 99 60 (set_order 99 50 (open_market 34200000000000 initial)))
    !! 99 = Some 60%float.
Proof.
  refine (proj1
    (latest_registration_wins
       (msgA 7 34200000000005 99 500000 ++ msgU 7 34200000000006 98 99 600000
          ++ msgE 7 34200000000009 99 100)
       (open_market 34200000000000 initial)
       [("A"%string, drop 1 (msgA 7 34200000000005 99 500000))]
       ("U"%string, drop 1 (msgU 7 34200000000006 98 99 600000)) []
       (drop 1 (msgE 7 34200000000009 99 100)) []
       (set_order 99 60 (set_order 99 50 (open_market 34200000000000 initial)))
       99 60%float _ _ _ _ _ _)).
  - refine (reaches_step messageMap _ _
              (msgU 7 34200000000006 98 99 600000 ++ msgE 7 34200000000009 99 100)
              (set_order 99 50 (open_market 34200000000000 initial))
              [("U"%string, drop 1 (msgU 7 34200000000006 98 99 600000))]
              _ _ _ _); [vm_compute; reflexivity|].
    refine (reaches_step messageMap _ _
              (msgE 7 34200000000009 99 100)
              (set_order 99 60
                 (set_order 99 50 (open_market 34200000000000 initial)))
              [] _ _ _ _); [vm_compute; reflexivity|].
    apply reaches_refl.
  - vm_compute. reflexivity.
  - constructor.
  - reflexivity.
  - reflexivity.
  - reflexivity.
Defined.

Lemma dict_keys_set_prefix {V} k (v : V) d :
  dict_keys d `prefix_of` dict_keys (dict_set k v d).
Proof.
  destruct (dict_get k d) as [v0|] eqn:Hk.
  - rewrite dict_keys_set_present by eauto. reflexivity.
  - rewrite dict_keys_set_absent by exact Hk. by apply prefix_app_r.
Qed.

Lemma decodeTimestamp_range timestamp : 0 <= decodeTimestamp timestamp < 2 ^ 48.
Proof.
  rewrite decodeTimestamp_pack.
  pose proof (be_uint_range (pack_s 6 timestamp)) as H.
  rewrite pack_s_length in H. exact H.
Qed.

Lemma iteration_keeps m_map file st file' st' :
  iteration m_map file st = Ok (Continue file' st') ->
  filled_orders st `prefix_of` filled_orders st'
  /\ dict_keys (stock_map st) `prefix_of` dict_keys (stock_map st')
  /\ endTime st' = endTime st
  /\ (Forall (fun o : order => 0 <= o.2) (filled_orders st) ->
      Forall (fun o : order => 0 <= o.2) (filled_orders st')).
Proof.
  intros Hit.
  destruct (iteration_continue_cases _ _ _ _ _ Hit)
    as [[_ ->]|(m_type & msg & _ & Hd)]; [done|].
  pose proof (dispatch_cases _ _ _ _ Hd)
    as [H|[(t & H & Ho)|[(t & H)|[(k & tk & H)|[(r & p & H)|(k & p & q & ts & H & Hs)]]]]];
    try discriminate H; injection H as ->; try done.
  - split; [done|]. split; [|done]. apply dict_keys_set_prefix.
  - cbn [append_filled filled_orders stock_map endTime].
    split; [by apply prefix_app_r|]. split; [done|]. split; [done|].
    intros Hall. apply Forall_app. split; [exact Hall|].
    apply Forall_singleton. apply decodeTimestamp_range.
Qed.

Lemma reaches_keeps m_map file st log file' st' :
  reaches m_map file st log file' st' ->
  filled_orders st `prefix_of` filled_orders st'
  /\ dict_keys (stock_map st) `prefix_of` dict_keys (stock_map st')
  /\ endTime st' = endTime st.
Proof.
  induction 1 as [|file st file1 st1 log file2 st2 Hit _ IH]; [done|].
  destruct (iteration_keeps _ _ _ _ _ Hit) as (H1 & H2 & H3 & _).
  destruct IH as (IH1 & IH2 & IH3).
  split; [by etrans|]. split; [by etrans|]. congruence.
Qed.

(** X12: what a run never undoes.  The filled orders collected at some
    point are still there, in their order, at the head of the list at any
    later point; the securities of the directory keep their places, new
    ones come after them; and the closing time is what it was (0 from the
    initial state) as long as the loop has not met the close message. *)
Theorem run_keeps_what_it_collected file st log file' st' :
  reaches messageMap file st log file' st' ->
  filled_orders st `prefix_of` filled_orders st'
  /\ dict_keys (stock_map st) `prefix_of` dict_keys (stock_map st')
  /\ endTime st' = endTime st.
Proof. apply reaches_keeps. Qed.

Lemma run_keeps_what_it_collected_witness :
  [(7, 50%float, 100, 34200000000005)]
    `prefix_of` [(7, 50%float, 100, 34200000000005);
                 (7, 100.25%float, 10, 34200000000009)]
  /\ [7] `prefix_of` [7; 8]
  /\ endTime
       (set_ticker 8 [65; 66; 67]
          (append_filled (7, 100.25%float, 10, 34200000000009)
             (append_filled (7, 50%float, 100, 34200000000005)
                (set_ticker 7 [84; 69; 83; 84]
                   (open_market 34200000000000 initial)))))
     = 0.
Proof.
  refine (run_keeps_what_it_collected
            (msgC 7 34200000000009 99 10 "Y" 1002500 ++ msgR 8 0 "ABC     ")
            (append_filled (7, 50%float, 100, 34200000000005)
               (set_ticker 7 [84; 69; 83; 84]
                  (open_market 34200000000000 initial)))
            (frame messageMap
               (msgC 7 34200000000009 99 10 "Y" 1002500 ++ msgR 8 0 "ABC     ")
             ++ frame messageMap (msgR 8 0 "ABC     ") ++ [])
            []
            (set_ticker 8 [65; 66; 67]
               (append_filled (7, 100.25%float, 10, 34200000000009)
                  (append_filled (7, 50%float, 100, 34200000000005)
                     (set_ticker 7 [84; 69; 83; 84]
                        (open_market 34200000000000 initial))))) _).
  refine (reaches_step messageMap _ _ (msgR 8 0 "ABC     ")
            (append_filled (7, 100.25%float, 10, 34200000000009)
               (append_filled (7, 50%float, 100, 34200000000005)
                  (set_ticker 7 [84; 69; 83; 84]
                     (open_market 34200000000000 initial))))
            _ _ _ _ _); [vm_compute; reflexivity|].
  refine (reaches_step messageMap _ _ []
            (set_ticker 8 [65; 66; 67]
               (append_filled (7, 100.25%float, 10, 34200000000009)
                  (append_filled (7, 50%float, 100, 34200000000005)
                     (set_ticker 7 [84; 69; 83; 84]
                        (open_market 34200000000000 initial)))))
            [] _ _ _ _); [vm_compute; reflexivity|].
  apply reaches_refl.
Defined.

Lemma calculateHour_after_close time endTime :
  endTime <= time -> calculateHour time endTime = "4:00"%string.
Proof.
  intros H. unfold calculateHour.
  assert ((endTime - time) / nsPerHour <= 0).
  { apply Z.div_le_upper_bound; [reflexivity|lia]. }
  rewrite Z.min_r by lia. reflexivity.
Qed.

Lemma reaches_times m_map file st log file' st' :
  reaches m_map file st log file' st' ->
  Forall (fun o : order => 0 <= o.2) (filled_orders st) ->
  Forall (fun o : order => 0 <= o.2) (filled_orders st').
Proof.
  induction 1 as [|file st file1 st1 log file2 st2 Hit _ IH]; [done|].
  intros Hall. apply IH. by apply (iteration_keeps _ _ _ _ _ Hit).
Qed.

(** X13: a capture without a market-close message.  The loop runs to
    the end of the stream and leaves the closing time at 0, the value it
    was initialised with; every timestamp is then at or after "the
    close", so [parseOrders] puts every collected trade, whatever its
    time of day, in the last bucket, 4:00. *)
Theorem without_close_every_trade_is_in_the_last_bucket file log st :
  reaches messageMap file initial log [] st ->
  parseTrades file messageMap
  = Some (trades ← parseOrders
                     (hourlyMap (dict_keys (stock_map st)) (openTime st) 0)
                     (filled_orders st) 0;
          Ok (stock_map st, trades))
  /\ endTime st = 0
  /\ Forall (fun o : order => calculateHour o.2 0 = "4:00"%string)
       (filled_orders st).
Proof.
  intros Hrun.
  assert (Hend : endTime st = 0) by apply (reaches_keeps _ _ _ _ _ _ Hrun).
  split; [|split; [exact Hend|]].
  - unfold parseTrades. rewrite (reaches_decodeLoop _ _ _ _ _ _ Hrun) by lia.
    cbn [length decodeLoop iteration read_bytes take].
    cbn [mbind option_bind result_bind]. rewrite Hend. reflexivity.
  - eapply Forall_impl; [apply (reaches_times _ _ _ _ _ _ Hrun); constructor|].
    intros o Ho. apply calculateHour_after_close. exact Ho.
Qed.

Lemma without_close_every_trade_is_in_the_last_bucket_witness :
  Forall (fun o : order => calculateHour o.2 0 = "4:00"%string)
    (filled_orders
       (append_filled (7, 100.25%float, 10, 34200000000009)
          (open_market 34200000000000 initial))).
Proof.
  refine (proj2 (proj2
    (without_close_every_trade_is_in_the_last_bucket
       (msgS 34200000000000 "Q" ++ msgC 7 34200000000009 99 10 "Y" 1002500)
       (frame messageMap
          (msgS 34200000000000 "Q" ++ msgC 7 34200000000009 99 10 "Y" 1002500)
        ++ frame messageMap (msgC 7 34200000000009 99 10 "Y" 1002500) ++ [])
       (append_filled (7, 100.25%float, 10, 34200000000009)
          (open_market 34200000000000 initial)) _))).
  refine (reaches_step messageMap _ _
            (msgC 7 34200000000009 99 10 "Y" 1002500)
            (open_market 34200000000000 initial) _ _ _ _ _);
    [vm_compute; reflexivity|].
  refine (reaches_step messageMap _ _ []
            (append_filled (7, 100.25%float, 10, 34200000000009)
               (open_market 34200000000000 initial)) [] _ _ _ _);
    [vm_compute; reflexivity|].
  apply reaches_refl.
Defined.

(** ** The hourly aggregator *)

Lemma foldl_insert_lookup {A} (b : A) (l : list Z) : forall (m : gmap string A) s,
  foldl (fun m n => <[hourLabel n := b]> m) m l !! s
  = if bool_decide (s ∈ hourLabel <$> l) then Some b else m !! s.
Proof.
  induction l as [|n l IH]; intros m s.
  - cbn [foldl fmap list_fmap]. rewrite bool_decide_false; [reflexivity|].
    apply not_elem_of_nil.
  - cbn [foldl]. rewrite IH, fmap_cons.
    destruct (decide (s ∈ hourLabel <$> l)) as [Hin|Hnin].
    + rewrite !bool_decide_true; [reflexivity|right; exact Hin|exact Hin].
    + rewrite (bool_decide_false _ Hnin).
      destruct (decide (s = hourLabel n)) as [->|Hne].
      * rewrite lookup_insert_eq, bool_decide_true; [reflexivity|left].
      * rewrite lookup_insert_ne by congruence.
        rewrite bool_decide_false; [reflexivity|].
        intros H. apply elem_of_cons in H as [H|H]; contradiction.
Qed.

Lemma hourlyMap_get {V} (T : V) (stockIDs : list Z) : forall acc ID,
  dict_get ID (foldl (fun trades ID => dict_set ID T trades) acc stockIDs)
  = if bool_decide (ID ∈ stockIDs) then Some T else dict_get ID acc.
Proof.
  induction stockIDs as [|a l IH]; intros acc ID.
  - cbn [foldl]. rewrite bool_decide_false; [reflexivity|apply not_elem_of_nil].
  - cbn [foldl]. rewrite IH.
    destruct (decide (ID ∈ l)) as [Hin|Hnin].
    + rewrite !bool_decide_true; [reflexivity|right; exact Hin|exact Hin].
    + rewrite (bool_decide_false _ Hnin).
      destruct (decide (a = ID)) as [->|Hne].
      * rewrite dict_get_set_eq, bool_decide_true; [reflexivity|left].
      * rewrite dict_get_set_ne by exact Hne.
        rewrite bool_decide_false; [reflexivity|].
        intros H. apply elem_of_cons in H as [H|H]; [congruence|contradiction].
Qed.

Lemma hourlyMap_bucket stockIDs openTime endTime ID hour :
  bucket_at ID hour (hourlyMap stockIDs openTime endTime)
  = if bool_decide (ID ∈ stockIDs /\ hour ∈ hourLabels)
    then Some (PyInt 0, 0) else None.
Proof.
  unfold bucket_at, hourlyMap. rewrite hourlyMap_get.
  destruct (decide (ID ∈ stockIDs)) as [Hin|Hnin].
  - rewrite (bool_decide_true _ Hin). cbn [mbind option_bind].
    rewrite foldl_insert_lookup, lookup_empty. fold hourLabels.
    destruct (decide (hour ∈ hourLabels)) as [Hh|Hh].
    + rewrite !bool_decide_true; [reflexivity|done|done].
    + rewrite !bool_decide_false; [reflexivity|tauto|done].
  - rewrite (bool_decide_false _ Hnin). cbn [dict_get mbind option_bind].
    rewrite bool_decide_false; [reflexivity|tauto].
Qed.

(** X14: [hourlyMap] gives every stock ID of its list a bucket (0, 0)
    under each of the seven hour labels, and no other bucket to anyone;
    the securities come in the order of the list.  Its arguments
    [openTime] and [endTime] play no part. *)
Theorem hourlyMap_empty_buckets stockIDs openTime endTime :
  (forall ID hour,
     bucket_at ID hour (hourlyMap stockIDs openTime endTime)
     = if bool_decide (ID ∈ stockIDs /\ hour ∈ hourLabels)
       then Some (PyInt 0, 0) else None)
  /\ (NoDup stockIDs ->
      dict_keys (hourlyMap stockIDs openTime endTime) = stockIDs)
  /\ hourlyMap stockIDs openTime endTime = hourlyMap stockIDs 0 0.
Proof.
  split; [intros; apply hourlyMap_bucket|]. split; [|reflexivity].
  intros Hnd. apply (hourlyMap_ok stockIDs openTime endTime Hnd).
Qed.

(** X15: a timestamp at or after the close falls in the last bucket:
    the only clamp of [calculateHour] is this one. *)
Theorem calculateHour_clamps_after_close time endTime :
  endTime <= time -> calculateHour time endTime = "4:00"%string.
Proof. apply calculateHour_after_close. Qed.

Lemma calculateHour_clamps_after_close_witness :
  calculateHour (57600000113132 + 3 * nsPerHour) 57600000113132 = "4:00"%string.
Proof.
  apply (calculateHour_clamps_after_close
           (57600000113132 + 3 * nsPerHour) 57600000113132).
  vm_compute. congruence.
Defined.

(** X16: before the close the label goes round a 12-hour clock.  With
    [h] the whole hours from the timestamp to the close, the label is one
    of the seven of [hourlyMap] exactly when [h mod 12] is below 7: a
    timestamp 7 to 11 hours before the close gets a label (9:00 down to
    5:00) that no table has, and a timestamp 12 hours further back gets
    the label of the timestamp itself. *)
Theorem calculateHour_wraps_around time endTime :
  time <= endTime ->
  (calculateHour time endTime ∈ hourLabels
   <-> ((endTime - time) / nsPerHour) mod 12 < 7)
  /\ calculateHour (time - 12 * nsPerHour) endTime = calculateHour time endTime.
Proof.
  intros Hle.
  assert (Hh : 0 <= (endTime - time) / nsPerHour)
    by (apply Z.div_pos; [lia|reflexivity]).
  split.
  - rewrite (calculateHour_of_hours _ _ _ eq_refl Hh).
    remember ((endTime - time) / nsPerHour) as h eqn:Eh. clear Eh.
    pose proof (Z.mod_pos_bound h 12 eq_refl) as Hr.
    rewrite (hourLabel_mod (16 - h) (16 - h mod 12)).
    2:{ replace (16 - h - (16 - h mod 12)) with (- (h - h mod 12)) by lia.
        rewrite (Z.div_mod h 12) at 1 by lia.
        replace (- (12 * (h / 12) + h mod 12 - h mod 12)) with ((- (h / 12)) * 12)
          by lia.
        apply Z.mod_mul. lia. }
    remember (h mod 12) as r eqn:Er. clear Er.
    assert (Hc : r = 0 \/ r = 1 \/ r = 2 \/ r = 3 \/ r = 4 \/ r = 5 \/ r = 6
                 \/ r = 7 \/ r = 8 \/ r = 9 \/ r = 10 \/ r = 11) by lia.
    clear Hr. rewrite hourLabels_eq.
    destruct Hc as [->|[->|[->|[->|[->|[->|[->|[->|[->|[->|[->| ->]]]]]]]]]]];
      (split; [intros Hin|intros Hlt]);
      first [ reflexivity
            | exfalso; vm_compute in Hlt; discriminate Hlt
            | solve [vm_compute; in_list]
            | exfalso; vm_compute in Hin; not_in_list Hin ].
  - assert (Hd : (endTime - (time - 12 * nsPerHour)) / nsPerHour
                 = (endTime - time) / nsPerHour + 12).
    { replace (endTime - (time - 12 * nsPerHour))
        with (endTime - time + 12 * nsPerHour) by lia.
      apply Z.div_add. discriminate. }
    rewrite (calculateHour_of_hours _ _ _ eq_refl Hh).
    rewrite (calculateHour_of_hours _ _ _ Hd) by lia.
    apply hourLabel_mod.
    replace (16 - ((endTime - time) / nsPerHour + 12)
             - (16 - (endTime - time) / nsPerHour)) with ((-1) * 12) by lia.
    apply Z.mod_mul. lia.
Qed.

Lemma calculateHour_wraps_around_witness :
  calculateHour (57600000000000 - 8 * nsPerHour) 57600000000000 ∈ hourLabels
  <-> ((57600000000000 - (57600000000000 - 8 * nsPerHour)) / nsPerHour) mod 12 < 7.
Proof.
  apply (calculateHour_wraps_around
           (57600000000000 - 8 * nsPerHour) 57600000000000).
  vm_compute. congruence.
Defined.

Lemma parseOrder_missing endTime trades stock price quantity time :
  bucket_at stock (calculateHour time endTime) trades = None ->
  parseOrder endTime trades (stock, price, quantity, time) = Raise KeyError.
Proof.
  unfold bucket_at, parseOrder.
  destruct (dict_get stock trades) as [stock_trades|]; [|reflexivity].
  cbn [mbind option_bind getitem result_bind]. intros ->. reflexivity.
Qed.

Lemma parseOrder_inv endTime trades stock price quantity time trades' :
  parseOrder endTime trades (stock, price, quantity, time) = Ok trades' ->
  exists stock_trades curValue curQuantity newValue,
    dict_get stock trades = Some stock_trades
    /\ stock_trades !! calculateHour time endTime = Some (curValue, curQuantity)
    /\ bucket_add (curValue, curQuantity) (stock, price, quantity, time)
       = Ok (newValue, curQuantity + quantity)
    /\ trades'
       = dict_set stock
           (<[calculateHour time endTime := (newValue, curQuantity + quantity)]>
              stock_trades) trades.
Proof.
  unfold parseOrder, bucket_add.
  destruct (dict_get stock trades) as [stock_trades|]; [|discriminate].
  cbn [getitem mbind result_bind].
  destruct (stock_trades !! calculateHour time endTime) as [[cv cq]|] eqn:Hb;
    [|discriminate].
  cbn [getitem mbind result_bind].
  destruct (float_mul_int price quantity) as [value|]; [|discriminate].
  cbn [mbind result_bind].
  destruct (py_add cv (PyFloat value)) as [nv|] eqn:Hadd; [|discriminate].
  cbn [mbind result_bind]. intros [= <-].
  exists stock_trades, cv, cq, nv. rewrite Hadd. done.
Qed.

(** Folding an order in changes the bucket it falls in, and no other. *)
Lemma parseOrder_bucket_at endTime trades o trades' ID hour :
  parseOrder endTime trades o = Ok trades' ->
  match bucket_at ID hour trades with
  | Some b =>
      exists b', bucket_at ID hour trades' = Some b'
                 /\ foldM bucket_add b (matching ID hour endTime [o]) = Ok b'
  | None => bucket_at ID hour trades' = None
  end
  /\ dict_keys trades' = dict_keys trades.
Proof.
  destruct o as [[[stock price] quantity] time]. intros Ho.
  apply parseOrder_inv in Ho
    as (stock_trades & cv & cq & nv & Hst & Hb & Hadd & ->).
  split; [|apply dict_keys_set_present; eauto].
  unfold matching. rewrite filter_cons, filter_nil. cbn [fst snd].
  destruct (decide (stock = ID /\ calculateHour time endTime = hour))
    as [[<- <-]|Hne].
  - assert (Hat : bucket_at stock (calculateHour time endTime) trades
                  = Some (cv, cq))
      by (unfold bucket_at; rewrite Hst; exact Hb).
    rewrite bucket_at_set_eq, Hat.
    eexists. split; [reflexivity|]. cbn [foldM]. rewrite Hadd. reflexivity.
  - rewrite (bucket_at_set_ne _ _ _ _ _ _ _ Hst) by (intros [= -> ->]; by apply Hne).
    destruct (bucket_at ID hour trades) as [b|]; [|reflexivity].
    eexists. split; reflexivity.
Qed.

Lemma matching_cons ID hour endTime o orders :
  matching ID hour endTime (o :: orders)
  = matching ID hour endTime [o] ++ matching ID hour endTime orders.
Proof.
  unfold matching. rewrite !filter_cons, filter_nil.
  destruct (decide _); reflexivity.
Qed.

Lemma parseOrders_bucket_at endTime ID hour : forall orders trades trades',
  parseOrders trades orders endTime = Ok trades' ->
  match bucket_at ID hour trades with
  | Some b =>
      exists b', bucket_at ID hour trades' = Some b'
                 /\ foldM bucket_add b (matching ID hour endTime orders) = Ok b'
  | None => bucket_at ID hour trades' = None
  end
  /\ dict_keys trades' = dict_keys trades.
Proof.
  induction orders as [|o orders IH]; intros trades trades'.
  - intros [= <-]. split; [|reflexivity].
    destruct (bucket_at ID hour trades) as [b|]; [|reflexivity].
    eexists. split; reflexivity.
  - unfold parseOrders. cbn [foldM].
    destruct (parseOrder endTime trades o) as [trades1|] eqn:Ho; [|discriminate].
    cbn [mbind result_bind]. intros Hrest.
    destruct (parseOrder_bucket_at _ _ _ _ ID hour Ho) as [H1 K1].
    destruct (IH _ _ Hrest) as [H2 K2]. split; [|congruence].
    destruct (bucket_at ID hour trades) as [b|].
    + destruct H1 as (b1 & Hb1 & Hf1). rewrite Hb1 in H2.
      destruct H2 as (b' & Hb' & Hf'). exists b'. split; [exact Hb'|].
      rewrite matching_cons, foldM_app, Hf1. exact Hf'.
    + rewrite H1 in H2. exact H2.
Qed.

Lemma bucket_add_quantity : forall orders b b',
  foldM bucket_add b orders = Ok b' -> b'.2 = b.2 + quantity_sum orders.
Proof.
  induction orders as [|o orders IH]; intros b b'.
  - intros [= <-]. unfold quantity_sum. cbn [foldr]. lia.
  - cbn [foldM]. destruct (bucket_add b o) as [b1|] eqn:Ho; [|discriminate].
    cbn [mbind result_bind]. intros Hrest. rewrite (IH _ _ Hrest).
    destruct o as [[[stock price] quantity] time]. destruct b as [cv cq].
    unfold bucket_add in Ho.
    destruct (float_mul_int price quantity) as [value|]; [|discriminate].
    cbn [mbind result_bind] in Ho.
    destruct (py_add cv (PyFloat value)) as [nv|]; [|discriminate].
    injection Ho as <-. unfold quantity_sum. cbn [foldr fst snd]. lia.
Qed.

(** X17: [parseOrders] folds each bucket over the orders that fall in
    it.  When it returns, the bucket of a security and an hour is what
    adding, one after the other and in their order, the filled orders of
    that security and hour to the bucket it started from gives; its
    quantity is the old quantity plus the sum of their quantities.
    Orders of other securities or hours do not touch it, no bucket and
    no security appears or disappears. *)
Theorem parseOrders_folds_each_bucket trades orders endTime trades' :
  parseOrders trades orders endTime = Ok trades' ->
  dict_keys trades' = dict_keys trades
  /\ forall ID hour,
       match bucket_at ID hour trades with
       | Some b =>
           exists b',
             bucket_at ID hour trades' = Some b'
             /\ foldM bucket_add b (matching ID hour endTime orders) = Ok b'
             /\ b'.2 = b.2 + quantity_sum (matching ID hour endTime orders)
       | None => bucket_at ID hour trades' = None
       end.
Proof.
  intros H. split; [apply (parseOrders_bucket_at endTime 0 "" _ _ _ H)|].
  intros ID hour. destruct (parseOrders_bucket_at endTime ID hour _ _ _ H) as [Hb _].
  destruct (bucket_at ID hour trades) as [b|]; [|exact Hb].
  destruct Hb as (b' & Hb' & Hf). exists b'. split; [exact Hb'|].
  split; [exact Hf|]. apply (bucket_add_quantity _ _ _ Hf).
Qed.

Lemma parseOrders_folds_each_bucket_witness :
  exists trades',
    parseOrders (hourlyMap [7] 0 0)
      [(7, 100.25%float, 10, 57600000000000 - 1);
       (7, 50%float, 5, 57600000000000 - 2)] 57600000000000 = Ok trades'
    /\ dict_keys trades' = dict_keys (hourlyMap [7] 0 0).
Proof.
  let r := eval vm_compute in
    (parseOrders (hourlyMap [7] 0 0)
       [(7, 100.25%float, 10, 57600000000000 - 1);
        (7, 50%float, 5, 57600000000000 - 2)] 57600000000000) in
  lazymatch r with
  | Ok ?t =>
      exists t; split;
      [vm_compute; reflexivity
      |refine (proj1 (parseOrders_folds_each_bucket (hourlyMap [7] 0 0)
                        [(7, 100.25%float, 10, 57600000000000 - 1);
                         (7, 50%float, 5, 57600000000000 - 2)]
                        57600000000000 t _));
       vm_compute; reflexivity]
  end.
Defined.

(** X18: a filled order that has no bucket ends the run.  On the table
    of [hourlyMap], an order for a stock ID that is not in the directory,
    or with a timestamp whose label is none of the seven, makes
    [parseOrders] raise [KeyError] when it comes to it: the order is not
    dropped, and nothing is returned for the orders before it. *)
Theorem parseOrders_missing_bucket_raises stockIDs openTime endTime0 endTime
  orders trades1 stock price quantity time rest :
  parseOrders (hourlyMap stockIDs openTime endTime0) orders endTime = Ok trades1 ->
  stock ∉ stockIDs \/ calculateHour time endTime ∉ hourLabels ->
  parseOrders (hourlyMap stockIDs openTime endTime0)
    (orders ++ (stock, price, quantity, time) :: rest) endTime
  = Raise KeyError.
Proof.
  intros Hok Hmiss. unfold parseOrders in *. rewrite foldM_app, Hok.
  cbn [mbind result_bind foldM]. rewrite parseOrder_missing; [reflexivity|].
  destruct (parseOrders_bucket_at endTime stock (calculateHour time endTime)
              _ _ _ Hok) as [Hb _].
  rewrite hourlyMap_bucket, bool_decide_false in Hb by tauto. exact Hb.
Qed.

Lemma parseOrders_missing_bucket_raises_witness :
  parseOrders (hourlyMap [7] 0 0)
    ([] ++ [(7, 100.25%float, 10, 57600000000000 - 8 * nsPerHour)])
    57600000000000
  = Raise KeyError.
Proof.
  apply (parseOrders_missing_bucket_raises [7] 0 0 57600000000000 []
           (hourlyMap [7] 0 0) 7 100.25%float 10
           (57600000000000 - 8 * nsPerHour) []).
  - reflexivity.
  - right. vm_compute. intros H. not_in_list H.
Defined.

(** ** The exceptions of [VWAP] *)

Lemma checked_error sf e : checked sf = Raise e -> e = OverflowError.
Proof. destruct sf; cbn; congruence. Qed.

Lemma float_of_int_error z e : float_of_int z = Raise e -> e = OverflowError.
Proof.
  unfold float_of_int. destruct (is_exact z); [discriminate|apply checked_error].
Qed.

Lemma py_add_error a b e : py_add a b = Raise e -> e = OverflowError.
Proof.
  destruct a as [x|x], b as [y|y]; cbn [py_add as_float mbind result_bind];
    try discriminate.
  - destruct (float_of_int x) eqn:H; [discriminate|].
    intros [= <-]. apply (float_of_int_error _ _ H).
  - destruct (float_of_int y) eqn:H; [discriminate|].
    intros [= <-]. apply (float_of_int_error _ _ H).
Qed.

Lemma py_truediv_cases a q :
  q <> 0 ->
  match py_truediv a q with
  | Ok average => exists f, average = PyFloat f
  | Raise e => e = OverflowError
  end.
Proof.
  intros Hq. apply Z.eqb_neq in Hq. destruct a as [x|x]; unfold py_truediv.
  - unfold int_truediv. rewrite Hq.
    destruct (is_exact x && is_exact q); [cbn; eauto|].
    destruct (checked _) eqn:H; cbn; [eauto|].
    apply (checked_error _ _ H).
  - destruct (float_of_int q) eqn:H; cbn [mbind result_bind].
    + rewrite Hq. eauto.
    + apply (float_of_int_error _ _ H).
Qed.

(** X19: [VWAP] never divides by zero.  When it returns, the quantity
    is the sum of the two quantities, and the average is a float when
    that sum is not 0 and the int 0 when it is, whatever the value.  The
    only exception it can raise is [OverflowError], for an int too large
    for a float. *)
Theorem VWAP_never_divides_by_zero tradeTuple runningValue runningQuantity :
  match VWAP tradeTuple runningValue runningQuantity with
  | Ok (totalValue, totalQuantity, average) =>
      py_add tradeTuple.1 runningValue = Ok totalValue
      /\ totalQuantity = tradeTuple.2 + runningQuantity
      /\ (totalQuantity = 0 -> average = PyInt 0)
      /\ (totalQuantity <> 0 -> exists f, average = PyFloat f)
  | Raise e => e = OverflowError
  end.
Proof.
  destruct tradeTuple as [value quantity]. unfold VWAP. cbn [fst snd].
  destruct (py_add value runningValue) as [totalValue|e] eqn:Hadd;
    cbn [mbind result_bind]; [|apply (py_add_error _ _ _ Hadd)].
  case_bool_decide as HQ.
  - pose proof (py_truediv_cases totalValue _ HQ) as Hd.
    destruct (py_truediv totalValue (quantity + runningQuantity)) as [average|e];
      cbn [mbind result_bind]; [|exact Hd].
    split; [reflexivity|]. split; [reflexivity|]. split; [contradiction|].
    intros _. exact Hd.
  - cbn [mbind result_bind]. split; [reflexivity|]. split; [reflexivity|].
    split; [reflexivity|]. intros H. contradiction.
Qed.

(** ** The stock directory *)

Lemma utf8_decode_ascii bs :
  Forall (fun b => byte_val b < 128) bs -> utf8_decode bs = Ok (byte_val <$> bs).
Proof.
  induction 1 as [|b bs Hb _ IH]; [reflexivity|].
  cbn [utf8_decode]. apply Z.ltb_lt in Hb. rewrite Hb, IH. reflexivity.
Qed.

Lemma isspace_printable c : 32 < c < 128 -> isspace c = false.
Proof.
  intros H. unfold isspace.
  rewrite (proj2 (Z.leb_gt c 0x0D)), (proj2 (Z.leb_gt c 0x20)),
    (proj2 (Z.leb_gt 0x2000 c)) by lia.
  rewrite !andb_false_r. cbn [orb andb].
  repeat match goal with
    | |- context [c =? ?k] => rewrite (proj2 (Z.eqb_neq c k)) by lia
    end.
  reflexivity.
Qed.

Lemma lstrip_spaces n l : lstrip (replicate n 32 ++ l) = lstrip l.
Proof. induction n as [|n IH]; [reflexivity|exact IH]. Qed.

Lemma lstrip_printable l : Forall (fun c => 32 < c < 128) l -> lstrip l = l.
Proof.
  destruct 1 as [|c l Hc _]; [reflexivity|].
  cbn [lstrip]. rewrite (isspace_printable c Hc). reflexivity.
Qed.

Lemma strip_padded l n :
  Forall (fun c => 32 < c < 128) l -> strip (l ++ replicate n 32) = l.
Proof.
  intros Hl. unfold strip.
  assert (Hrev : lstrip (reverse (l ++ replicate n 32)) = reverse l).
  { rewrite reverse_app, reverse_replicate, lstrip_spaces.
    apply lstrip_printable. rewrite reverse_Permutation. exact Hl. }
  destruct l as [|c l].
  - cbn [app]. rewrite <- (app_nil_r (replicate n 32)), lstrip_spaces.
    reflexivity.
  - assert (Hfirst : lstrip ((c :: l) ++ replicate n 32)
                     = (c :: l) ++ replicate n 32).
    { cbn [app lstrip]. rewrite isspace_printable; [reflexivity|].
      apply (Forall_inv Hl). }
    rewrite Hfirst, Hrev. apply reverse_involutive.
Qed.

(** X20: the ticker of a Stock Directory message.  A ticker of
    printable ASCII characters other than the space, padded with spaces to
    the 8 bytes of its field, is entered in the directory without the
    padding, under the stock locate of the message (its first two
    bytes). *)
Theorem directory_ticker_is_stripped msg rest st ticker pad :
  length msg = 38%nat ->
  slice 10 8 msg = ticker ++ replicate pad " "%byte ->
  Forall (fun b => 32 < byte_val b < 128) ticker ->
  iteration messageMap ("R"%byte :: msg ++ rest) st
  = Ok (Continue rest
          (set_ticker (be_uint (slice 0 2 msg)) (byte_val <$> ticker) st)).
Proof.
  intros Hl Hfield Hticker.
  rewrite (iteration_message messageMap "R"%byte "R" 38 msg rest st eq_refl eq_refl Hl).
  rewrite dispatch_R, struct_unpack_ok by exact Hl.
  cbn [mbind result_bind]. fields. rewrite Hfield, utf8_decode_ascii.
  2:{ apply Forall_app. split.
      - eapply Forall_impl; [exact Hticker|]. cbn. lia.
      - apply Forall_replicate. vm_compute. reflexivity. }
  cbn [fmap result_fmap mbind result_bind].
  rewrite fmap_app, fmap_replicate.
  change (byte_val " ") with 32. rewrite strip_padded; [reflexivity|].
  apply Forall_fmap. exact Hticker.
Qed.

Lemma directory_ticker_is_stripped_witness :
  iteration messageMap (msgR 7 0 "ABC     ") initial
  = Ok (Continue [] (set_ticker 7 [65; 66; 67] initial)).
Proof.
  refine (directory_ticker_is_stripped (drop 1 (msgR 7 0 "ABC     ")) []
            initial (list_byte_of_string "ABC") 5 eq_refl eq_refl _).
  repeat (apply Forall_cons; split; [vm_compute; split; reflexivity|]).
  apply Forall_nil_2.
Defined.

(** X21: the directory is keyed by the stock locate.  After a Stock
    Directory message the locate of the message is listed; every other
    locate has the ticker it had; a locate that was listed keeps its
    place in the order of the securities (its ticker is replaced), a new
    one is put last; and no locate is ever listed twice. *)
Theorem directory_is_keyed_by_locate msg rest st st' :
  length msg = 38%nat ->
  iteration messageMap ("R"%byte :: msg ++ rest) st = Ok (Continue rest st') ->
  let stockID := be_uint (slice 0 2 msg) in
  is_Some (dict_get stockID (stock_map st'))
  /\ (forall ID, ID <> stockID ->
        dict_get ID (stock_map st') = dict_get ID (stock_map st))
  /\ dict_keys (stock_map st')
     = (if bool_decide (stockID ∈ dict_keys (stock_map st))
        then dict_keys (stock_map st)
        else dict_keys (stock_map st) ++ [stockID])
  /\ (NoDup (dict_keys (stock_map st)) -> NoDup (dict_keys (stock_map st'))).
Proof.
  intros Hl.
  rewrite (iteration_message messageMap "R"%byte "R" 38 msg rest st eq_refl eq_refl Hl).
  rewrite dispatch_R, struct_unpack_ok by exact Hl.
  cbn [mbind result_bind]. fields.
  destruct (utf8_decode (slice 10 8 msg)) as [ticker|]; [|discriminate].
  cbn [fmap result_fmap mbind result_bind]. cbv zeta. intros [= <-].
  cbn [set_ticker stock_map].
  split; [rewrite dict_get_set_eq; eauto|].
  split; [intros ID Hne; apply dict_get_set_ne; congruence|].
  split; [|apply dict_set_NoDup].
  case_bool_decide as Hin.
  - apply dict_keys_set_present, dict_get_is_Some, Hin.
  - apply dict_keys_set_absent, dict_get_None, Hin.
Qed.

Lemma directory_is_keyed_by_locate_witness :
  dict_keys (stock_map (set_ticker 7 [65; 66; 67] (set_ticker 7 [88] initial)))
  = (if bool_decide
          (be_uint (slice 0 2 (drop 1 (msgR 7 0 "ABC     ")))
           ∈ dict_keys (stock_map (set_ticker 7 [88] initial)))
     then dict_keys (stock_map (set_ticker 7 [88] initial))
     else dict_keys (stock_map (set_ticker 7 [88] initial))
          ++ [be_uint (slice 0 2 (drop 1 (msgR 7 0 "ABC     ")))]).
Proof.
  exact (proj1 (proj2 (proj2
    (directory_is_keyed_by_locate (drop 1 (msgR 7 0 "ABC     ")) []
       (set_ticker 7 [88] initial)
       (set_ticker 7 [65; 66; 67] (set_ticker 7 [88] initial))
       eq_refl eq_refl)))).
Defined.

Lemma utf8_decode_invalid_upto n : forall bs b,
  (length bs <= n)%nat -> b ∈ bs -> 0xF5 <= byte_val b ->
  utf8_decode bs = Raise UnicodeDecodeError.
Proof.
  induction n as [|n IH]; intros bs b Hl Hin Hb.
  - destruct bs; [by apply elem_of_nil in Hin|cbn in Hl; lia].
  - destruct bs as [|b0 bs1]; [by apply elem_of_nil in Hin|].
    cbn [length] in Hl.
    assert (Hbad : forall lo hi, hi < 0xF5 -> in_range lo hi b = false).
    { intros lo hi Hhi. unfold in_range.
      rewrite (proj2 (Z.leb_gt (byte_val b) hi)) by lia. apply andb_false_r. }
    assert (Hrec : forall l, (length l <= n)%nat -> b ∈ l ->
              forall (f : list Z -> list Z),
                f <$> utf8_decode l = Raise UnicodeDecodeError).
    { intros l Hll Hinl f. rewrite (IH l b Hll Hinl Hb). reflexivity. }
    apply elem_of_cons in Hin as [<-|Hin].
    { cbn [utf8_decode]. rewrite (proj2 (Z.ltb_ge (byte_val b) 0x80)) by lia.
      rewrite !Hbad by lia. destruct bs1; reflexivity. }
    cbn [utf8_decode].
    destruct (byte_val b0 <? 0x80); [apply Hrec; [lia|exact Hin]|].
    destruct (in_range 0xC2 0xDF b0).
    { destruct bs1 as [|b1 bs2]; [reflexivity|]. cbn [length] in Hl.
      apply elem_of_cons in Hin as [<-|Hin];
        [rewrite Hbad by lia; reflexivity|].
      destruct (in_range 0x80 0xBF b1); [|reflexivity].
      apply Hrec; [lia|exact Hin]. }
    destruct (in_range 0xE0 0xEF b0).
    { destruct bs1 as [|b1 [|b2 bs3]]; [reflexivity..|]. cbn [length] in Hl.
      apply elem_of_cons in Hin as [<-|Hin].
      { rewrite Hbad; [reflexivity|]. destruct (byte_val b0 =? 0xED); lia. }
      apply elem_of_cons in Hin as [<-|Hin].
      { rewrite (Hbad 0x80 0xBF) by lia. rewrite andb_false_r. reflexivity. }
      destruct (_ && _); [|reflexivity]. apply Hrec; [lia|exact Hin]. }
    destruct (in_range 0xF0 0xF4 b0); [|reflexivity].
    destruct bs1 as [|b1 [|b2 [|b3 bs4]]]; [reflexivity..|]. cbn [length] in Hl.
    apply elem_of_cons in Hin as [<-|Hin].
    { rewrite Hbad; [reflexivity|]. destruct (byte_val b0 =? 0xF4); lia. }
    apply elem_of_cons in Hin as [<-|Hin].
    { rewrite (Hbad 0x80 0xBF) by lia. rewrite andb_false_r. reflexivity. }
    apply elem_of_cons in Hin as [<-|Hin].
    { rewrite (Hbad 0x80 0xBF) by lia. rewrite andb_false_r. reflexivity. }
    destruct (_ && _); [|reflexivity]. apply Hrec; [lia|exact Hin].
Qed.

(** X22: a ticker field that is not UTF-8 ends the run.  A byte from
    0xF5 on can be part of no UTF-8 sequence: a Stock Directory message
    with such a byte anywhere in its 8-byte ticker field raises
    [UnicodeDecodeError], and the security is not listed. *)
Theorem directory_ticker_must_be_utf8 msg rest st b :
  length msg = 38%nat -> b ∈ slice 10 8 msg -> 0xF5 <= byte_val b ->
  iteration messageMap ("R"%byte :: msg ++ rest) st = Raise UnicodeDecodeError.
Proof.
  intros Hl Hin Hb.
  rewrite (iteration_message messageMap "R"%byte "R" 38 msg rest st eq_refl eq_refl Hl).
  rewrite dispatch_R, struct_unpack_ok by exact Hl.
  cbn [mbind result_bind]. fields.
  rewrite (utf8_decode_invalid_upto _ _ b (Nat.le_refl _) Hin Hb). reflexivity.
Qed.

Lemma directory_ticker_must_be_utf8_witness :
  iteration messageMap
    (header "R" 7 0 ++ [xff; x41; x20; x20; x20; x20; x20; x20]
       ++ replicate 20 x20) initial
  = Raise UnicodeDecodeError.
Proof.
  refine (directory_ticker_must_be_utf8
            (drop 1 (header "R" 7 0 ++ [xff; x41; x20; x20; x20; x20; x20; x20]
                       ++ replicate 20 x20))
            [] initial xff eq_refl _ _).
  - apply elem_of_cons. left. reflexivity.
  - vm_compute. congruence.
Defined.

(** ** [main] *)

Lemma split_prefix sep prefix :
  sep ∉ list_ascii_of_string prefix ->
  hd EmptyString (split sep prefix) = prefix
  /\ forall rest,
       hd EmptyString (split sep (prefix ++ String sep rest)) = prefix.
Proof.
  induction prefix as [|a prefix IH]; cbn [list_ascii_of_string].
  - intros _. split; [reflexivity|]. intros rest.
    change (String.append EmptyString (String sep rest)) with (String sep rest).
    cbn [split]. rewrite Ascii.eqb_refl. reflexivity.
  - intros Hn. apply not_elem_of_cons in Hn as [Hne Hn].
    destruct (IH Hn) as [IH1 IH2].
    assert (Ha : Ascii.eqb a sep = false) by (apply Ascii.eqb_neq; congruence).
    split.
    + cbn [split]. rewrite Ha. cbn [hd]. rewrite IH1. reflexivity.
    + intros rest.
      change (String.append (String a prefix) (String sep rest))
        with (String a (String.append prefix (String sep rest))).
      cbn [split]. rewrite Ha. cbn [hd].
      rewrite IH2. reflexivity.
Qed.

(** X23: the name of the CSV file.  [main] cuts the name of the capture
    at its first comma, not at a dot, and appends ".csv": a name without
    comma is kept whole, extension included (data.gz gives data.gz.csv),
    and of a name with commas only what precedes the first is kept. *)
Theorem outName_cuts_at_first_comma prefix :
  ","%char ∉ list_ascii_of_string prefix ->
  outName prefix = (prefix ++ ".csv")%string
  /\ forall rest,
       outName (prefix ++ String "," rest) = (prefix ++ ".csv")%string.
Proof.
  intros Hn. destruct (split_prefix _ _ Hn) as [H1 H2]. unfold outName.
  split; [rewrite H1; reflexivity|]. intros rest. rewrite H2. reflexivity.
Qed.

Lemma outName_cuts_at_first_comma_witness :
  outName "data.gz" = "data.gz.csv"%string.
Proof.
  refine (proj1 (outName_cuts_at_first_comma "data.gz" _)).
  vm_compute. intros H. not_in_list H.
Defined.

Lemma empty_table_convertible : quantities_convertible empty_table.
Proof.
  apply bounded_quantities_convertible; [apply empty_table_ok|].
  vm_compute. reflexivity.
Qed.

Lemma empty_table_no_trades : no_trades empty_table.
Proof. intros i Hi. apply empty_table_lookup, Hi. Qed.

(** The projection of the table of [hourlyMap]: zeros. *)
Lemma project_hourlyMap stock_map openTime endTime :
  NoDup (dict_keys stock_map) ->
  exists stocks vwap_map,
    project stock_map (hourlyMap (dict_keys stock_map) openTime endTime)
    = Ok (stocks, vwap_map)
    /\ length stocks = length stock_map
    /\ forall i, i ∈ marketHours ->
         vwap_map !! hourLabel i = Some (replicate (length stock_map) (PyInt 0)).
Proof.
  intros Hnd.
  set (trades := hourlyMap (dict_keys stock_map) openTime endTime).
  destruct (hourlyMap_ok (dict_keys stock_map) openTime endTime Hnd)
    as [Hkeys Hok]. fold trades in Hkeys, Hok.
  assert (Hempty : forall ID stock_trades,
            dict_get ID trades = Some stock_trades -> stock_trades = empty_table).
  { intros ID stock_trades. unfold trades, hourlyMap. rewrite hourlyMap_get.
    case_bool_decide; [|discriminate]. intros [= <-]. reflexivity. }
  assert (Hlen : length trades = length stock_map).
  { rewrite <- (length_fmap fst trades), <- (length_fmap fst stock_map).
    exact (f_equal length Hkeys). }
  destruct (project_columns stock_map trades) as (stocks & vwap_map & Hp & Hl & _ & Hcols).
  { rewrite Hkeys. exact Hnd. }
  { exact Hkeys. }
  { exact Hok. }
  { intros ID stock_trades Hget. rewrite (Hempty _ _ Hget).
    apply empty_table_convertible. }
  exists stocks, vwap_map. split; [exact Hp|]. split; [lia|].
  intros i Hi. apply list_elem_of_lookup in Hi as [k Hk].
  destruct (Hcols k i Hk) as (col & Hcol & Hlc & Hentries).
  rewrite Hcol. f_equal. symmetry. apply replicate_as_Forall.
  split; [lia|]. apply Forall_lookup. intros n a Hn.
  destruct (lookup_lt_is_Some_2 trades n) as [[ID stock_trades] Ht].
  { apply lookup_lt_Some in Hn. lia. }
  destruct (Hentries n ID stock_trades Ht) as (a' & Ha' & Hv & _).
  rewrite Hn in Ha'. injection Ha' as <-.
  assert (Hget : dict_get ID trades = Some stock_trades).
  { apply (dict_get_lookup _ n); [rewrite Hkeys; exact Hnd|exact Ht]. }
  rewrite (Hempty _ _ Hget) in Hv. symmetry.
  apply (no_trades_vwap _ _ _ empty_table_no_trades Hv).
Qed.

(** X24: a capture in which the market never opens.  When the loop has
    come to the end of the stream, or to the market-close message,
    without having met a market-open message, [main] returns the tickers
    of the directory and, in each of the seven columns, the int 0 for
    every security: whatever executions the capture holds, none is
    counted. *)
Theorem unopened_market_gives_zeros file log file' st :
  reaches messageMap file initial log file' st ->
  ~ Exists opens log ->
  file' = []
  \/ (exists msg rest,
        file' = "S"%byte :: msg ++ rest /\ length msg = 11%nat
        /\ slice 10 1 msg = ["M"%byte]) ->
  exists stocks vwap_map,
    main file = Some (Ok (stocks, vwap_map))
    /\ length stocks = length (stock_map st)
    /\ forall i, i ∈ marketHours ->
         vwap_map !! hourLabel i
         = Some (replicate (length (stock_map st)) (PyInt 0)).
Proof.
  intros Hrun Hno Hend.
  destruct (reaches_started _ _ _ _ _ _ Hrun) as [Hs Hk].
  assert (Hclosed : started st = false).
  { destruct (started st); [|reflexivity].
    destruct (proj1 Hs eq_refl) as [H|H]; [discriminate H|contradiction]. }
  destruct (Hk Hclosed) as [Hfilled _]. cbn [initial filled_orders] in Hfilled.
  assert (Hloop : exists st_f,
            decodeLoop messageMap (S (length file)) file initial = Some (Ok st_f)
            /\ stock_map st_f = stock_map st /\ filled_orders st_f = []).
  { rewrite (reaches_decodeLoop _ _ _ _ _ _ Hrun) by lia.
    destruct Hend as [->|(msg & rest & -> & Hl & Hm)].
    - exists st. done.
    - exists (close_market (decodeTimestamp (slice 4 6 msg)) st).
      rewrite decodeLoop_S.
      rewrite (iteration_message messageMap "S"%byte "S" 11 msg rest st
                 eq_refl eq_refl Hl).
      rewrite dispatch_S, struct_unpack_ok by exact Hl.
      cbn [mbind result_bind]. fields. rewrite Hm. done. }
  destruct Hloop as (st_f & Hloop & Hmap & Hnone).
  pose proof (decodeLoop_inv _ _ _ _ _ Hloop initial_inv) as [Hnd _].
  destruct (project_hourlyMap (stock_map st_f) (openTime st_f) (endTime st_f) Hnd)
    as (stocks & vwap_map & Hp & Hl & Hcols).
  exists stocks, vwap_map. rewrite <- Hmap. split; [|done].
  unfold main, parseTrades. rewrite Hloop.
  cbn [mbind option_bind result_bind]. rewrite Hnone.
  cbn [parseOrders foldM mbind result_bind]. rewrite Hp. reflexivity.
Qed.

Lemma unopened_market_gives_zeros_witness :
  exists stocks vwap_map,
    main (msgR 7 0 "TEST    " ++ msgE 7 34200000000001 99 10)
    = Some (Ok (stocks, vwap_map))
    /\ length stocks = 1%nat
    /\ forall i, i ∈ marketHours ->
         vwap_map !! hourLabel i = Some [PyInt 0].
Proof.
  refine (unopened_market_gives_zeros
            (msgR 7 0 "TEST    " ++ msgE 7 34200000000001 99 10)
            (frame messageMap (msgR 7 0 "TEST    " ++ msgE 7 34200000000001 99 10)
             ++ frame messageMap (msgE 7 34200000000001 99 10) ++ [])
            [] (set_ticker 7 [84; 69; 83; 84] initial) _ _ _).
  - refine (reaches_step messageMap _ _ (msgE 7 34200000000001 99 10)
              (set_ticker 7 [84; 69; 83; 84] initial) _ _ _ _ _);
      [vm_compute; reflexivity|].
    refine (reaches_step messageMap _ _ []
              (set_ticker 7 [84; 69; 83; 84] initial) [] _ _ _ _);
      [vm_compute; reflexivity|].
    apply reaches_refl.
  - vm_compute. intros H.
    repeat (apply Exists_cons in H as [[H _]|H]; [discriminate H|]).
    by apply Exists_nil in H.
  - left. reflexivity.
Defined.

(** ** The exceptions of a run *)

Lemma bucket_at_Some ID hour trades b :
  bucket_at ID hour trades = Some b ->
  exists stock_trades,
    dict_get ID trades = Some stock_trades /\ stock_trades !! hour = Some b.
Proof.
  unfold bucket_at. destruct (dict_get ID trades) as [stock_trades|];
    [|discriminate].
  cbn [mbind option_bind]. eauto.
Qed.

(** On a table whose values are the int 0 or floats, and for a quantity
    of the wire, folding an order in fails only for want of a bucket. *)
Lemma parseOrder_result endTime trades o :
  (forall ID hour v q, bucket_at ID hour trades = Some (v, q) -> value_ok v) ->
  0 <= o.1.2 < 2 ^ 64 ->
  match bucket_at o.1.1.1 (calculateHour o.2 endTime) trades with
  | Some _ =>
      exists trades',
        parseOrder endTime trades o = Ok trades'
        /\ (forall ID hour v q,
              bucket_at ID hour trades' = Some (v, q) -> value_ok v)
        /\ (forall ID hour,
              is_Some (bucket_at ID hour trades')
              <-> is_Some (bucket_at ID hour trades))
  | None => parseOrder endTime trades o = Raise KeyError
  end.
Proof.
  destruct o as [[[stock price] quantity] time]. cbn [fst snd]. intros Hval Hq.
  destruct (bucket_at stock (calculateHour time endTime) trades) as [[cv cq]|]
    eqn:Hat; [|apply parseOrder_missing, Hat].
  destruct (bucket_at_Some _ _ _ _ Hat) as (stock_trades & Hst & Hb).
  rewrite (parseOrder_bucket _ _ _ _ _ _ _ _ _ Hst Hb).
  destruct (float_of_int_below quantity) as [y Hy].
  { assert (2 ^ 64 < 2 ^ 1023) by (vm_compute; reflexivity). lia. }
  unfold float_mul_int. rewrite Hy. cbn [mbind result_bind].
  destruct (py_add_ok cv (PyFloat (price * y))) as (nv & Hadd & Hnv).
  { apply (Hval _ _ _ _ Hat). }
  { right. eauto. }
  rewrite Hadd. cbn [mbind result_bind]. eexists. split; [reflexivity|].
  split.
  - intros ID hour v q.
    destruct (decide ((ID, hour) = (stock, calculateHour time endTime)))
      as [[= -> ->]|Hne].
    + rewrite bucket_at_set_eq. intros [= <- <-]. exact Hnv.
    + rewrite (bucket_at_set_ne _ _ _ _ _ _ _ Hst Hne). apply Hval.
  - intros ID hour.
    destruct (decide ((ID, hour) = (stock, calculateHour time endTime)))
      as [[= -> ->]|Hne].
    + rewrite bucket_at_set_eq, Hat. split; eauto.
    + rewrite (bucket_at_set_ne _ _ _ _ _ _ _ Hst Hne). reflexivity.
Qed.

Lemma parseOrders_result endTime : forall orders trades,
  (forall ID hour v q, bucket_at ID hour trades = Some (v, q) -> value_ok v) ->
  Forall (fun o : order => 0 <= o.1.2 < 2 ^ 64) orders ->
  (Forall (fun o : order =>
             is_Some (bucket_at o.1.1.1 (calculateHour o.2 endTime) trades))
          orders ->
   exists trades', parseOrders trades orders endTime = Ok trades')
  /\ (~ Forall (fun o : order =>
                  is_Some (bucket_at o.1.1.1 (calculateHour o.2 endTime) trades))
               orders ->
      parseOrders trades orders endTime = Raise KeyError).
Proof.
  induction orders as [|o orders IH]; intros trades Hval Hall.
  { split; [intros _; eexists; reflexivity|]. intros H. contradiction H.
    constructor. }
  apply Forall_cons in Hall as [Hq Hall].
  pose proof (parseOrder_result endTime trades o Hval Hq) as Ho.
  unfold parseOrders. cbn [foldM]. fold (parseOrders).
  destruct (bucket_at o.1.1.1 (calculateHour o.2 endTime) trades) as [b|] eqn:Hat.
  - destruct Ho as (trades1 & -> & Hval1 & Hdom). cbn [mbind result_bind].
    destruct (IH trades1 Hval1 Hall) as [IHok IHko].
    assert (Hiff : Forall (fun o : order =>
                     is_Some (bucket_at o.1.1.1 (calculateHour o.2 endTime) trades1))
                     orders
                   <-> Forall (fun o : order =>
                     is_Some (bucket_at o.1.1.1 (calculateHour o.2 endTime) trades))
                     orders).
    { apply Forall_iff. intros o'. apply Hdom. }
    split.
    + intros H. apply Forall_cons in H as [_ H]. apply IHok, Hiff, H.
    + intros H. apply IHko. intros H'. apply H. apply Forall_cons.
      split; [rewrite Hat; eauto|apply Hiff, H'].
  - rewrite Ho. cbn [mbind result_bind]. split; [|reflexivity].
    intros H. apply Forall_cons in H as [H _]. rewrite Hat in H.
    destruct H as [? H]. discriminate H.
Qed.

Lemma parseOrders_error endTime : forall orders trades e,
  (forall ID hour v q, bucket_at ID hour trades = Some (v, q) -> value_ok v) ->
  Forall (fun o : order => 0 <= o.1.2 < 2 ^ 64) orders ->
  parseOrders trades orders endTime = Raise e -> e = KeyError.
Proof.
  induction orders as [|o orders IH]; intros trades e Hval Hall; [discriminate|].
  apply Forall_cons in Hall as [Hq Hall].
  pose proof (parseOrder_result endTime trades o Hval Hq) as Ho.
  unfold parseOrders. cbn [foldM]. fold (parseOrders).
  destruct (bucket_at o.1.1.1 (calculateHour o.2 endTime) trades) as [b|].
  - destruct Ho as (trades1 & -> & Hval1 & _). cbn [mbind result_bind].
    apply (IH _ _ Hval1 Hall).
  - rewrite Ho. cbn [mbind result_bind]. congruence.
Qed.

Lemma hourlyMap_values stockIDs openTime endTime ID hour v q :
  bucket_at ID hour (hourlyMap stockIDs openTime endTime) = Some (v, q) ->
  value_ok v.
Proof.
  rewrite hourlyMap_bucket. case_bool_decide; [|discriminate].
  intros [= <- <-]. by left.
Qed.

(** X25: once the decode loop has returned, [parseTrades] fails for
    one reason only.  If every collected trade has a bucket (its stock
    locate is in the directory, at the end of the run, and the label of
    its hour is one of the seven), [parseTrades] returns the directory
    and a table; if one has none, it raises [KeyError]. *)
Theorem parseTrades_fails_on_missing_bucket file st :
  decodeLoop messageMap (S (length file)) file initial = Some (Ok st) ->
  (Forall (has_bucket (dict_keys (stock_map st)) (endTime st)) (filled_orders st) ->
   exists trades, parseTrades file messageMap = Some (Ok (stock_map st, trades)))
  /\ (~ Forall (has_bucket (dict_keys (stock_map st)) (endTime st))
        (filled_orders st) ->
      parseTrades file messageMap = Some (Raise KeyError)).
Proof.
  intros Hloop. unfold parseTrades. rewrite Hloop.
  cbn [mbind option_bind result_bind].
  destruct (decodeLoop_inv _ _ _ _ _ Hloop initial_inv) as [Hnd Hall].
  set (trades := hourlyMap (dict_keys (stock_map st)) (openTime st) (endTime st)).
  destruct (parseOrders_result (endTime st) (filled_orders st) trades)
    as [Hok Hko].
  { intros ID hour v q. apply hourlyMap_values. }
  { exact Hall. }
  assert (Hiff : Forall (has_bucket (dict_keys (stock_map st)) (endTime st))
                   (filled_orders st)
                 <-> Forall (fun o : order =>
                       is_Some (bucket_at o.1.1.1
                                  (calculateHour o.2 (endTime st)) trades))
                       (filled_orders st)).
  { apply Forall_iff. intros o. unfold trades, has_bucket.
    rewrite hourlyMap_bucket. case_bool_decide as H; split; intros H'.
    - eauto.
    - exact H.
    - contradiction.
    - destruct H' as [? H']. discriminate H'. }
  split.
  - intros H. destruct (Hok (proj1 Hiff H)) as [trades' ->].
    cbn [mbind result_bind]. eauto.
  - intros H. rewrite Hko; [reflexivity|]. intros H'. apply H, Hiff, H'.
Qed.

Lemma parseTrades_fails_on_missing_bucket_witness :
  parseTrades (msgS 34200000000000 "Q" ++ msgC 7 34200000000009 99 10 "Y" 1002500)
    messageMap
  = Some (Raise KeyError).
Proof.
  refine (proj2 (parseTrades_fails_on_missing_bucket
                   (msgS 34200000000000 "Q"
                      ++ msgC 7 34200000000009 99 10 "Y" 1002500)
                   (append_filled (7, 100.25%float, 10, 34200000000009)
                      (open_market 34200000000000 initial)) _) _).
  - vm_compute. reflexivity.
  - intros H. pose proof (Forall_inv H) as [Hin _]. vm_compute in Hin.
    exact (proj1 (elem_of_nil _) Hin).
Defined.

(** What a pass of [dispatch] can raise. *)
Lemma dispatch_errors m_type msg st e :
  dispatch m_type msg st = Raise e ->
  e = StructError \/ e = UnicodeDecodeError \/ e = KeyError.
Proof.
  assert (Hunpack : forall fmt (k : list field -> result control) e,
            (k (unpack_fields (parse_format fmt) msg) = Raise e ->
             e = StructError \/ e = UnicodeDecodeError \/ e = KeyError) ->
            struct_unpack fmt msg ≫= k = Raise e ->
            e = StructError \/ e = UnicodeDecodeError \/ e = KeyError).
  { intros fmt k e' Hk. unfold struct_unpack.
    destruct (_ =? _)%nat; cbn [mbind result_bind].
    - exact Hk.
    - intros [= <-]. by left. }
  revert e.
  case_tag m_type "S".
  { rewrite dispatch_S. intros e. apply Hunpack. raised; subst; auto. }
  case_tag m_type "R".
  { rewrite dispatch_R. intros e. apply Hunpack. raised; subst; auto. }
  case_tag m_type "A".
  { rewrite dispatch_A. intros e. apply Hunpack. fields.
    rewrite price_of_slice. discriminate. }
  case_tag m_type "F".
  { rewrite dispatch_F. intros e. apply Hunpack. fields.
    rewrite price_of_slice. discriminate. }
  case_tag m_type "E".
  { rewrite dispatch_E. destruct (started st); [|intros e; discriminate].
    intros e. apply Hunpack. raised; subst; auto. }
  case_tag m_type "C".
  { rewrite dispatch_C. destruct (started st); [|intros e; discriminate].
    intros e. apply Hunpack. fields. rewrite price_of_slice.
    raised; subst; auto. }
  case_tag m_type "U".
  { rewrite dispatch_U. intros e. apply Hunpack. fields.
    rewrite price_of_slice. discriminate. }
  case_tag m_type "P".
  { rewrite dispatch_P. destruct (started st); [|intros e; discriminate].
    intros e. apply Hunpack. fields. rewrite price_of_slice. discriminate. }
  rewrite dispatch_other by assumption. intros e. discriminate.
Qed.

Lemma iteration_errors m_map file st e :
  iteration m_map file st = Raise e ->
  e = StructError \/ e = UnicodeDecodeError \/ e = KeyError.
Proof.
  destruct file as [|c file]; [discriminate|]. rewrite iteration_cons.
  destruct (decode_char [c]) as [m_type|e'] eqn:Hc; cbn [mbind result_bind].
  - destruct (m_map !! m_type) as [steps|]; [|discriminate].
    destruct (dispatch m_type (read_bytes file steps) st) as [[?|?]|e'] eqn:Hd;
      cbn [mbind result_bind]; try discriminate.
    intros [= <-]. apply (dispatch_errors _ _ _ _ Hd).
  - intros [= <-]. right; left. apply (decode_char_error _ _ Hc).
Qed.

Lemma decodeLoop_errors m_map : forall fuel file st e,
  decodeLoop m_map fuel file st = Some (Raise e) ->
  e = StructError \/ e = UnicodeDecodeError \/ e = KeyError.
Proof.
  induction fuel as [|fuel IH]; intros file st e; [discriminate|].
  rewrite decodeLoop_S.
  destruct (iteration m_map file st) as [[file1 st1|st1]|e'] eqn:Hit.
  - apply IH.
  - discriminate.
  - intros [= <-]. apply (iteration_errors _ _ _ _ Hit).
Qed.

(** The projection of what [parseTrades] returns does not fail. *)
Lemma main_of_parseTrades file stock_map trades :
  Z.of_nat (length file) < 2 ^ 900 ->
  parseTrades file messageMap = Some (Ok (stock_map, trades)) ->
  exists columns, main file = Some (Ok columns).
Proof.
  intros Hsize Hparse.
  destruct (parseTrades_ok _ _ _ _ Hparse) as (Hnd & Hkeys & Hok).
  pose proof (parseTrades_volume _ _ _ _ Hparse) as Hvol.
  destruct (project_columns stock_map trades Hnd Hkeys Hok)
    as (stocks & vwap_map & Hproject & _).
  { intros ID stock_trades Hget.
    apply (bounded_quantities_convertible _ (Hok _ _ Hget)).
    pose proof (Hvol _ _ Hget) as Hq.
    assert (2 ^ 64 * Z.of_nat (length file) < 2 ^ 64 * 2 ^ 900) by lia.
    assert (2 ^ 64 * 2 ^ 900 < 2 ^ 1023) by (vm_compute; reflexivity).
    lia. }
  exists (stocks, vwap_map). unfold main. rewrite Hparse.
  cbn [mbind option_bind result_bind]. rewrite Hproject. reflexivity.
Qed.

(** X26: the exceptions of [main].  On a capture shorter than 2^900
    bytes a run of [main] that does not return columns ends with
    [struct.error] (a message cut short), [UnicodeDecodeError] (a tag, an
    event code, a flag or a ticker that is not UTF-8) or [KeyError] (an
    execution against a reference that is not registered, or a trade
    without bucket); it raises neither [OverflowError] nor
    [ZeroDivisionError]. *)
Theorem main_exceptions file e :
  Z.of_nat (length file) < 2 ^ 900 ->
  main file = Some (Raise e) ->
  e = StructError \/ e = UnicodeDecodeError \/ e = KeyError.
Proof.
  intros Hsize. 
  destruct (parseTrades file messageMap) as [[[stock_map trades]|e']|] eqn:Hp.
  - destruct (main_of_parseTrades _ _ _ Hsize Hp) as [columns ->]. discriminate.
  - unfold main. rewrite Hp. cbn [mbind option_bind result_bind].
    intros [= <-]. revert Hp. unfold parseTrades.
    destruct (decodeLoop messageMap (S (length file)) file initial)
      as [[st|e'']|] eqn:Hloop; cbn [mbind option_bind result_bind];
      [| |discriminate].
    + destruct (decodeLoop_inv _ _ _ _ _ Hloop initial_inv) as [_ Hall].
      destruct (parseOrders _ _ _) as [trades|e''] eqn:Ho;
        cbn [mbind result_bind]; [discriminate|].
      intros [= <-]. right; right.
      eapply parseOrders_error; [|exact Hall|exact Ho].
      intros ID hour v q. apply hourlyMap_values.
    + intros [= <-]. apply (decodeLoop_errors _ _ _ _ _ Hloop).
  - unfold main. rewrite Hp. discriminate.
Qed.

Lemma main_exceptions_witness :
  main (msgS 34200000000000 "Q" ++ msgE 7 34200000000001 99 10)
  = Some (Raise KeyError)
  /\ (KeyError = StructError \/ KeyError = UnicodeDecodeError
      \/ KeyError = KeyError).
Proof.
  split; [vm_compute; reflexivity|].
  apply (main_exceptions
           (msgS 34200000000000 "Q" ++ msgE 7 34200000000001 99 10) KeyError).
  - vm_compute. reflexivity.
  - vm_compute. reflexivity.
Defined.

(** ** The running quantity *)

Lemma hour_fold_quantity stock_trades : forall hours cv cq vwap_map V Q columns,
  foldM (hourStep stock_trades) (cv, cq, vwap_map) hours = Ok (V, Q, columns) ->
  Q = cq + total_quantity stock_trades hours.
Proof.
  induction hours as [|i hours IH]; intros cv cq vwap_map V Q columns.
  - intros [= <- <- <-]. cbn [total_quantity foldr]. lia.
  - cbn [foldM]. rewrite hourStep_eq. unfold total_quantity. cbn [foldr].
    fold (total_quantity stock_trades hours). unfold quantity_at.
    destruct (stock_trades !! hourLabel i) as [[value quantity]|]; [|discriminate].
    cbn [getitem mbind result_bind].
    destruct (VWAP (value, quantity) cv cq) as [[[V1 Q1] a]|] eqn:HV;
      [|discriminate].
    cbn [mbind result_bind].
    destruct (append_vwap (hourLabel i) a vwap_map) as [vwap_map1|];
      [|discriminate].
    cbn [mbind result_bind]. intros Hrest.
    destruct (VWAP_inv _ _ _ _ _ _ _ HV) as (_ & -> & _).
    rewrite (IH _ _ _ _ _ _ Hrest). lia.
Qed.

(** X27: the running quantity of a security.  After the passes for the
    first [k] hours the quantity the loop of [main] carries is the sum of
    the quantities of the first [k] buckets; on a table of quantities that
    are not negative it never decreases from an hour to a later one, so it
    is 0 up to the hour of the first trade and positive from then on. *)
Theorem running_quantity_never_decreases stock_trades vwap_map k k'
  V Q columns V' Q' columns' :
  table_ok stock_trades marketHours -> (k <= k')%nat ->
  after_hours stock_trades vwap_map k = Ok (V, Q, columns) ->
  after_hours stock_trades vwap_map k' = Ok (V', Q', columns') ->
  Q = total_quantity stock_trades (take k marketHours)
  /\ Q' = total_quantity stock_trades (take k' marketHours)
  /\ 0 <= Q <= Q'.
Proof.
  intros Hok Hle Hk Hk'.
  apply hour_fold_quantity in Hk, Hk'. rewrite Z.add_0_l in Hk, Hk'.
  split; [exact Hk|]. split; [exact Hk'|]. subst Q Q'.
  assert (Hsub : forall l, (forall i, i ∈ l -> i ∈ marketHours) ->
                   0 <= total_quantity stock_trades l).
  { intros l Hl. apply total_quantity_nonneg.
    apply (table_ok_subset _ _ _ Hl Hok). }
  assert (Htake : forall n i, i ∈ take n marketHours -> i ∈ marketHours).
  { intros n i Hi. apply elem_of_take in Hi as (j & Hj & _).
    exact (marketHours_lookup_elem _ _ Hj). }
  split; [apply Hsub, Htake|].
  replace k' with (k + (k' - k))%nat by lia.
  rewrite <- take_take_drop, total_quantity_app.
  assert (0 <= total_quantity stock_trades (take (k' - k) (drop k marketHours)));
    [|lia].
  apply Hsub. intros i Hi. apply elem_of_take in Hi as (j & Hj & _).
  rewrite lookup_drop in Hj. exact (marketHours_lookup_elem _ _ Hj).
Qed.

Lemma running_quantity_never_decreases_witness :
  exists V columns V' columns',
    after_hours traded_table empty_columns 6 = Ok (V, 100, columns)
    /\ after_hours traded_table empty_columns 7 = Ok (V', 110, columns')
    /\ 100 = total_quantity traded_table (take 6 marketHours)
    /\ 110 = total_quantity traded_table (take 7 marketHours)
    /\ 0 <= 100 <= 110.
Proof.
  assert (Hcols : forall i, i ∈ marketHours ->
                    is_Some (empty_columns !! hourLabel i)).
  { intros i Hi. exists []. exact (empty_columns_lookup i Hi). }
  destruct (hour_loop_prefix traded_table empty_columns 6
              traded_table_ok traded_table_convertible Hcols)
    as (V & Q & columns & Hbefore & _).
  destruct (hour_loop_prefix traded_table empty_columns 7
              traded_table_ok traded_table_convertible Hcols)
    as (V' & Q' & columns' & Hafter & _).
  destruct (running_quantity_never_decreases traded_table empty_columns 6 7
              V Q columns V' Q' columns' traded_table_ok (Nat.le_succ_diag_r 6)
              Hbefore Hafter) as (HQ & HQ' & Hle).
  vm_compute in HQ. vm_compute in HQ'. subst Q Q'.
  exists V, columns, V', columns'.
  split; [exact Hbefore|]. split; [exact Hafter|].
  split; [vm_compute; reflexivity|]. split; [vm_compute; reflexivity|].
  exact Hle.
Defined.
